(** * A Rocq model of [pytorch_pretrained_bert/modelingold.py]

    The file embeds the transformer encoder of the repository (layer
    normalisation, activations, multi-head self-attention, the encoder layer,
    the pooled and per-token heads), the configuration object and the routine
    that imports TensorFlow checkpoints, and proves properties of them.

    Tensors are nested lists of real numbers ([tensor1] .. [tensor4]); the
    operations of the tensor library (matrix product, softmax, broadcasting,
    [view], [permute]) are written out on those lists.  Rounding is not
    modelled: every statement is about the real-number semantics of the
    forward pass. *)

From Stdlib Require Import String Ascii DecimalString.
From Stdlib Require Import Reals Lia Lra Arith ZArith Bool List.
Import ListNotations.

Set Warnings "-register-all".

(* ================================================================== *)
(** * Lists: lookups, comprehension over index ranges *)
(* ================================================================== *)

Module Lists.

(** [zip_with f a b]: pointwise combination of two lists of equal
    length (the shorter length is used otherwise). *)
Fixpoint zip_with {A B C : Type} (f : A -> B -> C) (a : list A) (b : list B)
  : list C :=
  match a, b with
  | x :: a', y :: b' => f x y :: zip_with f a' b'
  | _, _ => []
  end.

(** [tabulate n f] is [[f 0; ...; f (n-1)]]. *)
Definition tabulate {A : Type} (n : nat) (f : nat -> A) : list A :=
  map f (seq 0 n).

Lemma tabulate_length {A} n (f : nat -> A) : length (tabulate n f) = n.
Proof. unfold tabulate. now rewrite length_map, length_seq. Qed.

Lemma tabulate_nth {A} n (f : nat -> A) i d :
  (i < n)%nat -> nth i (tabulate n f) d = f i.
Proof.
  intros Hi. unfold tabulate.
  rewrite (nth_indep _ d (f 0%nat)) by now rewrite length_map, length_seq.
  rewrite map_nth, seq_nth by assumption. reflexivity.
Qed.

Lemma tabulate_ext {A} n (f g : nat -> A) :
  (forall i, (i < n)%nat -> f i = g i) -> tabulate n f = tabulate n g.
Proof.
  intros H. unfold tabulate. apply map_ext_in.
  intros i Hi. apply in_seq in Hi. apply H. lia.
Qed.

Lemma map_nth_in {A B} (f : A -> B) (l : list A) (d : A) (d' : B) i :
  (i < length l)%nat -> nth i (map f l) d' = f (nth i l d).
Proof.
  intros Hi. rewrite (nth_indep _ d' (f d)) by now rewrite length_map.
  apply map_nth.
Qed.

(** A list is the table of its own lookups. *)
Lemma tabulate_self {A} (l : list A) d :
  l = tabulate (length l) (fun i => nth i l d).
Proof.
  apply (nth_ext _ _ d d).
  - now rewrite tabulate_length.
  - intros i Hi. now rewrite tabulate_nth.
Qed.

Lemma map_tabulate {A B} (g : A -> B) n (f : nat -> A) :
  map g (tabulate n f) = tabulate n (fun i => g (f i)).
Proof. unfold tabulate. now rewrite map_map. Qed.

Lemma map_as_tabulate {A B} (g : A -> B) (l : list A) d :
  map g l = tabulate (length l) (fun i => g (nth i l d)).
Proof. rewrite (tabulate_self l d) at 1. apply map_tabulate. Qed.

Lemma zip_with_length {A B C} (f : A -> B -> C) a b :
  length (zip_with f a b) = Nat.min (length a) (length b).
Proof.
  revert b. induction a as [|x a IH]; intros [|y b]; simpl; auto.
Qed.

Lemma zip_with_nth {A B C} (f : A -> B -> C) a b i da db dc :
  (i < length a)%nat -> (i < length b)%nat ->
  nth i (zip_with f a b) dc = f (nth i a da) (nth i b db).
Proof.
  revert b i. induction a as [|x a IH]; intros [|y b] [|i] Ha Hb;
    simpl in *; try lia; auto.
  apply IH; lia.
Qed.

Lemma zip_with_as_tabulate {A B C} (f : A -> B -> C) a b da db :
  length a = length b ->
  zip_with f a b = tabulate (length a) (fun i => f (nth i a da) (nth i b db)).
Proof.
  intros Hl. apply (nth_ext _ _ (f da db) (f da db)).
  - rewrite zip_with_length, tabulate_length. lia.
  - intros i Hi. rewrite zip_with_length in Hi.
    rewrite tabulate_nth by lia. apply zip_with_nth; lia.
Qed.

Lemma zip_with_map_map {A B C D} (f : B -> C -> D) (g : A -> B) (h : A -> C) l :
  zip_with f (map g l) (map h l) = map (fun v => f (g v) (h v)) l.
Proof. induction l as [|v l IH]; simpl; [|rewrite IH]; reflexivity. Qed.

End Lists.

Import Lists.

(* ================================================================== *)
(** * The tensor library, on nested lists of reals *)
(* ================================================================== *)

Module Torch.

Local Open Scope R_scope.

Definition tensor1 := list R.
Definition tensor2 := list tensor1.
Definition tensor3 := list tensor2.
Definition tensor4 := list tensor3.

(** ** Broadcasting

    A binary tensor operation accepts two axes of equal size, or one axis of
    size one, whose only entry is then used against every entry of the other
    operand.  (Other size combinations are rejected by the library; here the
    common prefix is combined.) *)
Definition broadcast {A B C : Type} (f : A -> B -> C) (a : list A) (b : list B)
  : list C :=
  match a, b with
  | [x], _ => map (f x) b
  | _, [y] => map (fun x => f x y) a
  | _, _ => zip_with f a b
  end.

(** Lookup along an axis that may be broadcast. *)
Definition bnth {A : Type} (i : nat) (l : list A) (d : A) : A :=
  match l with
  | [x] => x
  | _ => nth i l d
  end.

(** ** Reductions and products *)

Definition sum (x : tensor1) : R := fold_right Rplus 0 x.

(** [x.mean(-1)] *)
Definition mean (x : tensor1) : R := sum x / INR (length x).

Definition dot (a b : tensor1) : R := sum (zip_with Rmult a b).

(** Size of the second axis. *)
Definition dim1 {A : Type} (m : list (list A)) : nat := length (hd [] m).

(** [swap_axes d n m]: exchange the two leading axes of [m], whose second
    axis has size [n]. *)
Definition swap_axes {A : Type} (d : A) (n : nat) (m : list (list A))
  : list (list A) :=
  tabulate n (fun k => map (fun r => nth k r d) m).

(** [m.transpose(-1, -2)] of a matrix. *)
Definition transpose (m : tensor2) : tensor2 := swap_axes 0 (dim1 m) m.

(** [torch.matmul] of two matrices: entry (i, k) is the dot product of row
    [i] of [a] and column [k] of [b]. *)
Definition matmul (a b : tensor2) : tensor2 :=
  map (fun row => map (fun col => dot row col) (transpose b)) a.

(** [nn.Softmax(dim=-1)] on one row. *)
Definition softmax (x : tensor1) : tensor1 :=
  map (fun xi => exp xi / sum (map exp x)) x.

(** ** [nn.Linear] *)

Record Linear := mkLinear {
  weight : tensor2;      (* out_features rows of in_features entries *)
  bias : tensor1         (* out_features entries *)
}.

(** [F.linear(x, W, b) = x W^T + b] on the last axis. *)
Definition Linear_forward1 (l : Linear) (x : tensor1) : tensor1 :=
  zip_with Rplus (map (fun w => dot x w) (weight l)) (bias l).

Definition Linear_forward2 (l : Linear) (x : tensor2) : tensor2 :=
  map (Linear_forward1 l) x.

Definition Linear_forward3 (l : Linear) (x : tensor3) : tensor3 :=
  map (Linear_forward2 l) x.

(** ** [nn.Dropout]

    In evaluation mode the module is the identity.  In training mode each
    entry is kept or zeroed by a random draw, and the kept entries are
    scaled by [1 / (1 - p)]; the draw is an explicit argument [keep]. *)
Definition drop_entry (p : R) (k : bool) (v : R) : R :=
  if k then v / (1 - p) else 0.

Definition Dropout1 (training : bool) (p : R) (keep : list bool) (x : tensor1)
  : tensor1 :=
  if training then zip_with (drop_entry p) keep x else x.

Definition Dropout2 (training : bool) (p : R) (keep : list (list bool))
  (x : tensor2) : tensor2 :=
  if training then zip_with (Dropout1 true p) keep x else x.

Definition Dropout3 (training : bool) (p : R) (keep : list (list (list bool)))
  (x : tensor3) : tensor3 :=
  if training then zip_with (Dropout2 true p) keep x else x.

Definition Dropout4 (training : bool) (p : R)
  (keep : list (list (list (list bool)))) (x : tensor4) : tensor4 :=
  if training then zip_with (Dropout3 true p) keep x else x.

(** ** Elementwise sums of tensors of equal shape *)

Definition add1 (a b : tensor1) : tensor1 := broadcast Rplus a b.
Definition add2 (a b : tensor2) : tensor2 := broadcast add1 a b.
Definition add3 (a b : tensor3) : tensor3 := broadcast add2 a b.
Definition add4 (a b : tensor4) : tensor4 := broadcast add3 a b.

(** ** Basic facts *)

Lemma broadcast_as_tabulate {A B C} (f : A -> B -> C) a b da db :
  length b = 1%nat \/ length b = length a ->
  broadcast f a b =
  tabulate (length a) (fun i => f (nth i a da) (bnth i b db)).
Proof.
  intros Hb. unfold broadcast, bnth.
  destruct a as [|x [|x' a]].
  - destruct b as [|y [|y' b]]; reflexivity.
  - destruct b as [|y [|y' b]]; simpl in *; try lia; reflexivity.
  - destruct b as [|y [|y' b]].
    + simpl in Hb. lia.
    + rewrite (map_as_tabulate _ _ da). reflexivity.
    + rewrite (zip_with_as_tabulate _ _ _ da db) by (destruct Hb; simpl in *; lia).
      reflexivity.
Qed.

Lemma Dropout1_eval p keep x : Dropout1 false p keep x = x.
Proof. reflexivity. Qed.

End Torch.

Import Torch.

(* ================================================================== *)
(** * [BertLayerNorm] (the class used when apex is not installed) *)
(* ================================================================== *)

Module LayerNorm.

Local Open Scope R_scope.

Record BertLayerNorm := mkLayerNorm {
  ln_weight : tensor1;
  ln_bias : tensor1;
  variance_epsilon : R
}.

(** The default [eps=1e-12] of the constructor. *)
Definition default_eps : R := 1 / 10 ^ 12.

(** [BertLayerNorm.forward] on the last axis, statement by statement:
    [u] and [s] keep the reduced axis with size one ([keepdim=True]) and are
    broadcast against [x]. *)
Definition forward1 (self : BertLayerNorm) (x : tensor1) : tensor1 :=
  let u := [mean x] in
  let s := [mean (map (fun v => v ^ 2) (broadcast Rminus x u))] in
  let x' := broadcast Rdiv (broadcast Rminus x u)
              (map sqrt (map (fun v => v + variance_epsilon self) s)) in
  broadcast Rplus (broadcast Rmult (ln_weight self) x') (ln_bias self).

(** The leading axes are batch axes. *)
Definition forward2 (self : BertLayerNorm) (x : tensor2) : tensor2 :=
  map (forward1 self) x.

Definition forward3 (self : BertLayerNorm) (x : tensor3) : tensor3 :=
  map (forward2 self) x.

(** Layer normalisation as the specification words it: entry [i] of the
    result is [weight_i * (x_i - u) / sqrt (s + eps) + bias_i], with [u] the
    mean of the row and [s] the mean of the squared deviations from [u]. *)
Definition squared_deviations (u : R) (x : tensor1) : tensor1 :=
  map (fun xi => (xi - u) * (xi - u)) x.

Definition layer_norm_spec (w b : tensor1) (eps : R) (x : tensor1) : tensor1 :=
  let u := mean x in
  let s := mean (squared_deviations u x) in
  tabulate (length x)
    (fun i => nth i w 0 * (nth i x 0 - u) / sqrt (s + eps) + nth i b 0).

(** Every row of [x] has the size the module was built for. *)
Definition rows_of_size3 (n : nat) (x : tensor3) : Prop :=
  Forall (Forall (fun row : tensor1 => length row = n)) x.

Lemma broadcast_scalar_r {A B C} (f : A -> B -> C) (a : list A) (y : B) :
  broadcast f a [y] = map (fun x => f x y) a.
Proof. destruct a as [|x [|x' a]]; reflexivity. Qed.

Lemma broadcast_same_length {A B C} (f : A -> B -> C) a b :
  length a = length b -> broadcast f a b = zip_with f a b.
Proof.
  intros H. destruct a as [|x [|x' a]]; destruct b as [|y [|y' b]];
    simpl in H; try discriminate; reflexivity.
Qed.

Lemma forward1_spec (self : BertLayerNorm) (x : tensor1) :
  length (ln_weight self) = length x ->
  length (ln_bias self) = length x ->
  forward1 self x =
  layer_norm_spec (ln_weight self) (ln_bias self) (variance_epsilon self) x.
Proof.
  intros Hw Hb. unfold forward1, layer_norm_spec, squared_deviations.
  rewrite !broadcast_scalar_r. cbn [map].
  rewrite broadcast_scalar_r, !map_map.
  set (u := mean x).
  assert (Hs : map (fun v => (v - u) ^ 2) x = map (fun xi => (xi - u) * (xi - u)) x).
  { apply map_ext. intros v. ring. }
  rewrite Hs. clear Hs.
  set (s := mean (map (fun xi => (xi - u) * (xi - u)) x)).
  rewrite (broadcast_same_length Rmult) by now rewrite length_map.
  rewrite (broadcast_same_length Rplus)
    by (rewrite zip_with_length, length_map; lia).
  apply (nth_ext _ _ 0 0).
  - rewrite !zip_with_length, length_map, tabulate_length. lia.
  - intros i Hi. rewrite !zip_with_length, length_map in Hi.
    rewrite tabulate_nth by lia.
    rewrite (zip_with_nth _ _ _ _ 0 0)
      by (rewrite ?zip_with_length, ?length_map; lia).
    rewrite (zip_with_nth _ _ _ _ 0 0) by (rewrite ?length_map; lia).
    rewrite (map_nth_in _ _ 0) by lia.
    unfold Rdiv. ring.
Qed.

(** C2. For every input tensor whose last axis has the module's size, the
    fallback [BertLayerNorm.forward] returns
    [weight * (x - u) / sqrt (s + variance_epsilon) + bias], where [u] is the
    mean over the last axis and [s] the mean of the squared deviations from
    [u]: the epsilon is inside the square root. *)
Theorem BertLayerNorm_forward_spec (self : BertLayerNorm) (x : tensor3) :
  length (ln_bias self) = length (ln_weight self) ->
  rows_of_size3 (length (ln_weight self)) x ->
  forward3 self x =
  map (map (layer_norm_spec (ln_weight self) (ln_bias self)
              (variance_epsilon self))) x.
Proof.
  intros Hb Hx. unfold forward3, forward2.
  apply map_ext_in. intros m Hm.
  apply map_ext_in. intros row Hrow.
  unfold rows_of_size3 in Hx. rewrite Forall_forall in Hx.
  specialize (Hx m Hm). rewrite Forall_forall in Hx.
  specialize (Hx row Hrow).
  apply forward1_spec; congruence.
Qed.

Definition sample_norm : BertLayerNorm := mkLayerNorm [1; 1] [0; 0] default_eps.

Example BertLayerNorm_forward_spec_witness :
  forward3 sample_norm [[[1; 0]; [3; 5]]] =
  map (map (layer_norm_spec [1; 1] [0; 0] default_eps)) [[[1; 0]; [3; 5]]].
Proof.
  apply (BertLayerNorm_forward_spec sample_norm [[[1; 0]; [3; 5]]]).
  - reflexivity.
  - repeat constructor.
Defined.

End LayerNorm.

(* ================================================================== *)
(** * Activation functions: [gelu], [swish], and the table [ACT2FN] *)
(* ================================================================== *)

Module Activations.

Local Open Scope R_scope.

(** [torch.sigmoid] *)
Definition sigmoid (x : R) : R := 1 / (1 + exp (- x)).

(** [torch.nn.functional.relu] *)
Definition relu (x : R) : R := Rmax 0 x.

Section WithErf.

(** [torch.erf], the error function of the tensor library. *)
Variable erf : R -> R.

(** [gelu]: [x * 0.5 * (1.0 + torch.erf(x / math.sqrt(2.0)))]. *)
Definition gelu (x : R) : R := x * (5 / 10) * (1 + erf (x / sqrt 2)).

(** [swish]: [x * torch.sigmoid(x)]. *)
Definition swish (x : R) : R := x * sigmoid x.

(** ** Where each computation is defined

    The bodies of the functions that this file defines itself are kept as
    expression trees over the operations of the tensor library and of
    [math]; a function taken from the library is named by the operation. *)

Inductive unary_op :=
| torch_erf          (* torch.erf *)
| torch_sigmoid      (* torch.sigmoid *)
| torch_sqrt         (* torch.sqrt *)
| torch_relu         (* torch.nn.functional.relu *)
| nn_Tanh            (* nn.Tanh() *)
| nn_Softmax         (* nn.Softmax(dim=-1) *)
| math_sqrt          (* math.sqrt *)
| tensor_pow (n : nat)   (* Tensor.pow(n) *)
| tensor_mean_keepdim.   (* Tensor.mean(-1, keepdim=True) *)

Inductive binary_op :=
| tensor_mul | tensor_add | tensor_sub | tensor_div.

Inductive expr :=
| Input                      (* the argument [x] *)
| Attribute (name : string)  (* [self.<name>] *)
| Number (r : R)             (* a Python float *)
| Unary (op : unary_op) (e : expr)
| Binary (op : binary_op) (e1 e2 : expr).

Inductive callable :=
| FrameworkFunction (op : unary_op)
| RepositoryFunction (name : string) (body : expr).

Definition is_framework_function (c : callable) : bool :=
  match c with
  | FrameworkFunction _ => true
  | RepositoryFunction _ _ => false
  end.

Definition eval_unary (op : unary_op) (x : tensor1) : tensor1 :=
  match op with
  | torch_erf => map erf x
  | torch_sigmoid => map sigmoid x
  | torch_sqrt => map sqrt x
  | torch_relu => map relu x
  | nn_Tanh => map tanh x
  | nn_Softmax => softmax x
  | math_sqrt => map sqrt x
  | tensor_pow n => map (fun v => v ^ n) x
  | tensor_mean_keepdim => [mean x]
  end.

Definition eval_binary (op : binary_op) (a b : tensor1) : tensor1 :=
  match op with
  | tensor_mul => broadcast Rmult a b
  | tensor_add => broadcast Rplus a b
  | tensor_sub => broadcast Rminus a b
  | tensor_div => broadcast Rdiv a b
  end.

(** Value of an expression on the last axis; a Python float is a tensor of
    one entry. *)
Fixpoint eval (attrs : string -> tensor1) (x : tensor1) (e : expr) : tensor1 :=
  match e with
  | Input => x
  | Attribute a => attrs a
  | Number r => [r]
  | Unary op e1 => eval_unary op (eval attrs x e1)
  | Binary op e1 e2 => eval_binary op (eval attrs x e1) (eval attrs x e2)
  end.

Definition call (c : callable) (attrs : string -> tensor1) (x : tensor1)
  : tensor1 :=
  match c with
  | FrameworkFunction op => eval_unary op x
  | RepositoryFunction _ body => eval attrs x body
  end.

(** [def gelu(x): return x * 0.5 * (1.0 + torch.erf(x / math.sqrt(2.0)))] *)
Definition gelu_body : expr :=
  Binary tensor_mul
    (Binary tensor_mul Input (Number (5 / 10)))
    (Binary tensor_add (Number 1)
       (Unary torch_erf
          (Binary tensor_div Input (Unary math_sqrt (Number 2))))).

(** [def swish(x): return x * torch.sigmoid(x)] *)
Definition swish_body : expr :=
  Binary tensor_mul Input (Unary torch_sigmoid Input).

(** [BertLayerNorm.forward]:
    [u = x.mean(-1, keepdim=True)];
    [s = (x - u).pow(2).mean(-1, keepdim=True)];
    [x = (x - u) / torch.sqrt(s + self.variance_epsilon)];
    [return self.weight * x + self.bias]. *)
Definition layer_norm_body : expr :=
  let u := Unary tensor_mean_keepdim Input in
  let s := Unary tensor_mean_keepdim
             (Unary (tensor_pow 2) (Binary tensor_sub Input u)) in
  let x' := Binary tensor_div (Binary tensor_sub Input u)
              (Unary torch_sqrt
                 (Binary tensor_add s (Attribute "variance_epsilon"))) in
  Binary tensor_add (Binary tensor_mul (Attribute "weight") x')
    (Attribute "bias").

(** [ACT2FN = {"gelu": gelu, "relu": torch.nn.functional.relu,
               "swish": swish}] *)
Definition ACT2FN : list (string * callable) :=
  [ ("gelu"%string, RepositoryFunction "gelu" gelu_body);
    ("relu"%string, FrameworkFunction torch_relu);
    ("swish"%string, RepositoryFunction "swish" swish_body) ].

(** The fallback [BertLayerNorm] class of the file. *)
Definition BertLayerNorm_forward : callable :=
  RepositoryFunction "BertLayerNorm.forward" layer_norm_body.

(** [self.activation = nn.Tanh()] of [BertPooler]. *)
Definition BertPooler_activation : callable := FrameworkFunction nn_Tanh.

(** [nn.Softmax(dim=-1)] of [BertSelfAttention.forward]. *)
Definition attention_softmax : callable := FrameworkFunction nn_Softmax.

(** The activation and normalisation computations a forward pass can
    reach: [ACT2FN[config.hidden_act]] in [BertIntermediate], the layer
    normalisation, the activation of the pooler and the softmax of the
    attention. *)
Definition forward_pass_callables : list callable :=
  map snd ACT2FN ++
  [BertLayerNorm_forward; BertPooler_activation; attention_softmax].

Definition layer_norm_attrs (self : LayerNorm.BertLayerNorm) (a : string)
  : tensor1 :=
  if String.eqb a "weight" then LayerNorm.ln_weight self
  else if String.eqb a "bias" then LayerNorm.ln_bias self
  else if String.eqb a "variance_epsilon" then [LayerNorm.variance_epsilon self]
  else [].

End WithErf.

End Activations.

Module ActivationFacts.

Import Activations.
Local Open Scope R_scope.

(** [ACT2FN[name]] *)
Definition lookup_activation (name : string) : option callable :=
  option_map snd
    (find (fun entry => String.eqb (fst entry) name) ACT2FN).

Lemma eval_gelu_body (erf : R -> R) attrs x :
  eval erf attrs x gelu_body = map (gelu erf) x.
Proof.
  cbn [eval gelu_body eval_unary eval_binary map].
  rewrite !LayerNorm.broadcast_scalar_r.
  assert (H1 : forall b, broadcast Rplus [1] b = map (Rplus 1) b) by reflexivity.
  rewrite H1, !map_map.
  rewrite LayerNorm.broadcast_same_length by now rewrite !length_map.
  rewrite zip_with_map_map. reflexivity.
Qed.

Lemma eval_swish_body (erf : R -> R) attrs x :
  eval erf attrs x swish_body = map swish x.
Proof.
  cbn [eval swish_body eval_unary eval_binary].
  rewrite LayerNorm.broadcast_same_length by now rewrite !length_map.
  rewrite <- (map_id x) at 1. rewrite zip_with_map_map. reflexivity.
Qed.

Lemma eval_layer_norm_body (erf : R -> R) self x :
  eval erf (layer_norm_attrs self) x layer_norm_body = LayerNorm.forward1 self x.
Proof. reflexivity. Qed.



End ActivationFacts.

(* ================================================================== *)
(** * [BertSelfAttention] *)
(* ================================================================== *)

Module SelfAttention.

Local Open Scope R_scope.

Record BertSelfAttention := mkSelfAttention {
  num_attention_heads : nat;
  attention_head_size : nat;
  query : Linear;
  key : Linear;
  value : Linear;
  attention_probs_dropout_prob : R;
  training : bool
}.

Definition all_head_size (self : BertSelfAttention) : nat :=
  (num_attention_heads self * attention_head_size self)%nat.

(** [row.view(n, d)]: the last axis cut into [n] consecutive pieces of [d]
    entries. *)
Fixpoint view_heads (n d : nat) (row : tensor1) : tensor2 :=
  match n with
  | O => []
  | S n' => firstn d row :: view_heads n' d (skipn d row)
  end.

(** [transpose_for_scores]: [x.view(B, S, heads, head_size)] followed by
    [permute(0, 2, 1, 3)]. *)
Definition transpose_for_scores (self : BertSelfAttention) (x : tensor3)
  : tensor4 :=
  let x := map (map (view_heads (num_attention_heads self)
                       (attention_head_size self))) x in
  map (swap_axes [] (num_attention_heads self)) x.

(** [torch.matmul] on the two trailing axes, the two leading axes being
    batch axes. *)
Definition matmul4 (a b : tensor4) : tensor4 :=
  zip_with (zip_with matmul) a b.

Definition keep_mask4 := list (list (list (list bool))).

(** [BertSelfAttention.forward]; [keep] is the draw of the dropout module,
    consulted in training mode only. *)
Definition forward (self : BertSelfAttention) (keep : keep_mask4)
  (hidden_states : tensor3) (attention_mask : tensor4) : tensor3 :=
  let mixed_query_layer := Linear_forward3 (query self) hidden_states in
  let mixed_key_layer := Linear_forward3 (key self) hidden_states in
  let mixed_value_layer := Linear_forward3 (value self) hidden_states in
  let query_layer := transpose_for_scores self mixed_query_layer in
  let key_layer := transpose_for_scores self mixed_key_layer in
  let value_layer := transpose_for_scores self mixed_value_layer in
  let attention_scores :=
    matmul4 query_layer (map (map transpose) key_layer) in
  let attention_scores :=
    map (map (map (map
      (fun v => v / sqrt (INR (attention_head_size self))))))
      attention_scores in
  let attention_scores := add4 attention_scores attention_mask in
  let attention_probs := map (map (map softmax)) attention_scores in
  let attention_probs :=
    Dropout4 (training self) (attention_probs_dropout_prob self) keep
      attention_probs in
  let context_layer := matmul4 attention_probs value_layer in
  let context_layer := map (fun c => swap_axes [] (dim1 c) c) context_layer in
  map (map (@concat R)) context_layer.

(** ** The published definition

    [Attention(Q, K, V) = softmax(Q K^T / sqrt d + M) V] for each head, and
    the heads' outputs concatenated. *)

(** Entries [h*d .. h*d + d - 1] of a projected row: the part of head [h]. *)
Definition head_slice (d h : nat) (row : tensor1) : tensor1 :=
  firstn d (skipn (h * d) row).

(** [sum_j p_j * V_j], a vector of [d] entries. *)
Definition weighted_sum (d : nat) (p : tensor1) (V : tensor2) : tensor1 :=
  fold_right
    (fun pv acc => zip_with Rplus (map (Rmult (fst pv)) (snd pv)) acc)
    (repeat 0 d) (combine p V).

Definition scaled_dot_product_attention (d : nat) (Q K V M : tensor2)
  : tensor2 :=
  let scores := map (fun q => map (fun k => dot q k / sqrt (INR d)) K) Q in
  let probs := map softmax (add2 scores M) in
  map (fun p => weighted_sum d p V) probs.

Definition multi_head_attention (self : BertSelfAttention)
  (hidden_states : tensor3) (attention_mask : tensor4) : tensor3 :=
  let n := num_attention_heads self in
  let d := attention_head_size self in
  tabulate (length hidden_states) (fun b =>
    let X := nth b hidden_states [] in
    let Q := Linear_forward2 (query self) X in
    let K := Linear_forward2 (key self) X in
    let V := Linear_forward2 (value self) X in
    let head h :=
      scaled_dot_product_attention d
        (map (head_slice d h) Q) (map (head_slice d h) K)
        (map (head_slice d h) V)
        (bnth h (bnth b attention_mask []) []) in
    tabulate (length X) (fun i =>
      concat (tabulate n (fun h => nth i (head h) [])))).

(** The shapes [__init__] gives the three projections: [all_head_size]
    output features each, with at least one head of at least one entry. *)
Definition projections_shaped (self : BertSelfAttention) : Prop :=
  (1 <= num_attention_heads self)%nat /\
  (1 <= attention_head_size self)%nat /\
  Forall (fun l : Linear =>
            length (weight l) = all_head_size self /\
            length (bias l) = all_head_size self)
         [query self; key self; value self].

(** The mask can be broadcast against the scores along the batch axis, the
    head axis and the axis of the attending position: each of these axes of
    the mask has size one or the size of the scores. *)
Definition mask_broadcastable (self : BertSelfAttention)
  (hidden_states : tensor3) (attention_mask : tensor4) : Prop :=
  (length attention_mask = 1%nat \/
   length attention_mask = length hidden_states) /\
  Forall (fun m : tensor3 =>
            (length m = 1%nat \/ length m = num_attention_heads self) /\
            Forall (fun m2 : tensor2 =>
                      length m2 = 1%nat \/
                      Forall (fun X : tensor2 => length X = length m2)
                        hidden_states) m)
         attention_mask.

End SelfAttention.

Module SelfAttentionFacts.

Import SelfAttention.
Local Open Scope R_scope.

(** ** Tables *)

Lemma zip_with_tabulate_tabulate {A B C} (f : A -> B -> C) n g h :
  zip_with f (tabulate n g) (tabulate n h) = tabulate n (fun i => f (g i) (h i)).
Proof. unfold tabulate. apply zip_with_map_map. Qed.

Lemma zip_with_tabulate_map {A B C D} (f : A -> B -> C) (g : nat -> A)
  (h : D -> B) l d :
  zip_with f (tabulate (length l) g) (map h l) =
  tabulate (length l) (fun i => f (g i) (h (nth i l d))).
Proof.
  rewrite (map_as_tabulate h l d). apply zip_with_tabulate_tabulate.
Qed.

Lemma broadcast_length {A B C} (f : A -> B -> C) a b :
  length b = 1%nat \/ length b = length a ->
  length (broadcast f a b) = length a.
Proof.
  intros H. unfold broadcast.
  destruct a as [|x [|x' a]]; destruct b as [|y [|y' b]];
    simpl in *; try lia; rewrite ?length_map, ?zip_with_length;
    simpl; try lia.
Qed.

Lemma bnth_In {A} (l : list A) i d :
  length l = 1%nat \/ (i < length l)%nat -> In (bnth i l d) l.
Proof.
  intros H. unfold bnth. destruct l as [|x [|y l]].
  - simpl in H. lia.
  - left. reflexivity.
  - apply nth_In. destruct H as [H|H]; [discriminate|exact H].
Qed.

(** ** Views and transposes *)

Lemma view_heads_length n d row : length (view_heads n d row) = n.
Proof. revert row. induction n; intros; simpl; auto. Qed.

Lemma view_heads_nth n d row h :
  (h < n)%nat -> nth h (view_heads n d row) [] = head_slice d h row.
Proof.
  revert row h. induction n as [|n IH]; intros row h Hh; [lia|].
  destruct h as [|h]; simpl.
  - reflexivity.
  - rewrite IH by lia. unfold head_slice. rewrite skipn_skipn.
    f_equal. f_equal. lia.
Qed.

Lemma head_slice_length n d h row :
  length row = (n * d)%nat -> (h < n)%nat -> length (head_slice d h row) = d.
Proof.
  intros Hl Hh. unfold head_slice. rewrite length_firstn, length_skipn, Hl.
  assert (h * d + d <= n * d)%nat by nia. lia.
Qed.

(** [transpose_for_scores] on one batch entry lists, head by head, the
    slices of the rows. *)
Lemma swap_view_heads n d (X : tensor2) :
  swap_axes [] n (map (view_heads n d) X) =
  tabulate n (fun h => map (head_slice d h) X).
Proof.
  unfold swap_axes. apply tabulate_ext. intros h Hh.
  rewrite map_map. apply map_ext. intros row. now apply view_heads_nth.
Qed.

Lemma transpose_columns (m : tensor2) c :
  m <> [] -> Forall (fun r => length r = c) m ->
  transpose m = tabulate c (fun k => map (fun r => nth k r 0) m).
Proof.
  intros Hne Hm. unfold transpose, swap_axes, dim1.
  destruct m as [|r m]; [congruence|]. simpl hd.
  inversion Hm; subst. reflexivity.
Qed.

Lemma transpose_transpose (m : tensor2) c :
  (1 <= c)%nat -> Forall (fun r => length r = c) m ->
  transpose (transpose m) = m.
Proof.
  intros Hc Hm. destruct m as [|r m]; [reflexivity|].
  rewrite (transpose_columns (r :: m) c) by (congruence || assumption).
  set (rows := r :: m) in *.
  unfold transpose, swap_axes, dim1.
  assert (Hhd : length (hd [] (tabulate c (fun k => map (fun r0 => nth k r0 0) rows)))
                = length rows).
  { destruct c as [|c]; [lia|]. unfold tabulate. simpl. now rewrite length_map. }
  rewrite Hhd.
  etransitivity; [|symmetry; apply (tabulate_self rows [])].
  apply tabulate_ext. intros i Hi.
  rewrite map_tabulate.
  rewrite Forall_forall in Hm.
  assert (Hr : length (nth i rows []) = c) by (apply Hm, nth_In, Hi).
  rewrite (tabulate_self (nth i rows []) 0), Hr.
  apply tabulate_ext. intros k Hk.
  now rewrite (map_nth_in _ _ []).
Qed.

(** ** The weighted sum of the value rows *)

Lemma weighted_sum_length d p V :
  Forall (fun r => length r = d) V -> length (weighted_sum d p V) = d.
Proof.
  intros HV. unfold weighted_sum. revert p.
  induction HV as [|r V Hr HV IH]; intros p.
  - destruct p; simpl; apply repeat_length.
  - destruct p as [|p0 p]; simpl; [apply repeat_length|].
    rewrite zip_with_length, length_map, IH. lia.
Qed.

Lemma weighted_sum_nth d p V k :
  Forall (fun r => length r = d) V -> (k < d)%nat ->
  nth k (weighted_sum d p V) 0 = dot p (map (fun r => nth k r 0) V).
Proof.
  intros HV Hk. revert p.
  induction HV as [|r V Hr HV IH]; intros p.
  - unfold weighted_sum, dot. destruct p; simpl; apply nth_repeat.
  - destruct p as [|p0 p].
    + unfold weighted_sum, dot. simpl. apply nth_repeat.
    + specialize (IH p).
      pose proof (weighted_sum_length d p V HV) as Hlen.
      unfold weighted_sum in *. unfold dot in *. simpl.
      rewrite (zip_with_nth _ _ _ _ 0 0) by (rewrite ?length_map; lia).
      rewrite (map_nth_in _ _ 0) by lia.
      rewrite IH. reflexivity.
Qed.

Lemma matmul_row_weighted_sum d p (V : tensor2) :
  V <> [] -> Forall (fun r => length r = d) V ->
  map (fun col => dot p col) (transpose V) = weighted_sum d p V.
Proof.
  intros Hne HV. rewrite (transpose_columns V d Hne HV), map_tabulate.
  apply (nth_ext _ _ 0 0).
  - now rewrite tabulate_length, weighted_sum_length.
  - intros k Hk. rewrite tabulate_length in Hk.
    rewrite tabulate_nth by assumption.
    symmetry. now apply weighted_sum_nth.
Qed.

(** ** One head *)

Lemma add2_nil (M : tensor2) : add2 [] M = [].
Proof. unfold add2, broadcast. destruct M as [|y [|y' M]]; reflexivity. Qed.

Lemma head_attention d (Qh Kh Vh Mh : tensor2) :
  (1 <= d)%nat ->
  Forall (fun r => length r = d) Kh ->
  Forall (fun r => length r = d) Vh ->
  length Vh = length Qh ->
  matmul
    (map softmax
       (add2 (map (map (fun v => v / sqrt (INR d))) (matmul Qh (transpose Kh)))
          Mh)) Vh =
  scaled_dot_product_attention d Qh Kh Vh Mh.
Proof.
  intros Hd HK HV Hlen.
  unfold scaled_dot_product_attention.
  unfold matmul at 2. rewrite (transpose_transpose Kh d Hd HK).
  rewrite map_map.
  assert (Hs : map (fun x => map (fun v => v / sqrt (INR d))
                                (map (fun col => dot x col) Kh)) Qh =
               map (fun q => map (fun k => dot q k / sqrt (INR d)) Kh) Qh).
  { apply map_ext. intros q. now rewrite map_map. }
  rewrite Hs. clear Hs.
  unfold matmul. apply map_ext_in. intros p Hp.
  apply matmul_row_weighted_sum; [|assumption].
  intros ->. destruct Qh; [|discriminate].
  cbn [map] in Hp. rewrite add2_nil in Hp. exact Hp.
Qed.

(** ** One batch entry *)

Definition batch_forward (self : BertSelfAttention) (X : tensor2) (Mb : tensor3)
  : tensor2 :=
  let n := num_attention_heads self in
  let d := attention_head_size self in
  let heads l := swap_axes [] n (map (view_heads n d) (Linear_forward2 l X)) in
  let scores :=
    zip_with matmul (heads (query self)) (map transpose (heads (key self))) in
  let scores := map (map (map (fun v => v / sqrt (INR d)))) scores in
  let probs := map (map softmax) (add3 scores Mb) in
  let c := zip_with matmul probs (heads (value self)) in
  map (@concat R) (swap_axes [] (dim1 c) c).

Ltac list_len :=
  rewrite ?length_map, ?zip_with_length, ?tabulate_length, ?length_map;
  try lia.

Lemma broadcast_nth {A B C} (f : A -> B -> C) a b i da db dc :
  length b = 1%nat \/ length b = length a -> (i < length a)%nat ->
  nth i (broadcast f a b) dc = f (nth i a da) (bnth i b db).
Proof.
  intros Hb Hi. rewrite (broadcast_as_tabulate f a b da db Hb).
  now rewrite tabulate_nth.
Qed.

Lemma forward_batchwise self keep hidden mask :
  training self = false ->
  length mask = 1%nat \/ length mask = length hidden ->
  forward self keep hidden mask =
  tabulate (length hidden)
    (fun b => batch_forward self (nth b hidden []) (bnth b mask [])).
Proof.
  intros Htr Hm. unfold forward. rewrite Htr. unfold Dropout4.
  unfold Linear_forward3, transpose_for_scores, matmul4, add4.
  assert (Hlen : forall (f : tensor3 -> tensor3),
             length (map f (zip_with (zip_with matmul)
               (map (swap_axes [] (num_attention_heads self))
                  (map (map (view_heads (num_attention_heads self)
                               (attention_head_size self)))
                     (map (Linear_forward2 (query self)) hidden)))
               (map (map transpose)
                  (map (swap_axes [] (num_attention_heads self))
                     (map (map (view_heads (num_attention_heads self)
                                  (attention_head_size self)))
                        (map (Linear_forward2 (key self)) hidden)))))) =
             length hidden).
  { intros f. list_len. }
  apply (nth_ext _ _ [] []).
  - rewrite !length_map, zip_with_length, !length_map, tabulate_length.
    rewrite broadcast_length by (rewrite Hlen; exact Hm).
    rewrite Hlen. lia.
  - intros b Hb.
    rewrite !length_map, zip_with_length, !length_map in Hb.
    rewrite broadcast_length in Hb by (rewrite Hlen; exact Hm).
    rewrite Hlen in Hb.
    assert (Hb' : (b < length hidden)%nat) by lia. clear Hb.
    rewrite tabulate_nth by assumption.
    rewrite (map_nth_in _ _ [])
      by (rewrite !length_map, zip_with_length, !length_map,
            broadcast_length by (rewrite Hlen; exact Hm);
          rewrite Hlen; lia).
    rewrite (map_nth_in _ _ [])
      by (rewrite zip_with_length, !length_map,
            broadcast_length by (rewrite Hlen; exact Hm);
          rewrite Hlen; lia).
    rewrite (zip_with_nth _ _ _ _ [] [])
      by (rewrite !length_map, ?broadcast_length by (rewrite Hlen; exact Hm);
          rewrite ?Hlen; lia).
    rewrite (map_nth_in _ _ [])
      by (rewrite broadcast_length by (rewrite Hlen; exact Hm);
          rewrite Hlen; lia).
    rewrite (broadcast_nth add3 _ mask b [] [] [])
      by (rewrite Hlen; assumption).
    rewrite (map_nth_in _ _ []) by (list_len; rewrite !length_map; lia).
    rewrite (zip_with_nth _ _ _ _ [] []) by (rewrite !length_map; lia).
    repeat (rewrite (map_nth_in _ _ []) by (rewrite ?length_map; lia)).
    repeat (rewrite (map_nth_in _ _ ([] : tensor2)) by assumption).
    reflexivity.
Qed.

Lemma Linear_forward1_length l x :
  length (Linear_forward1 l x) = Nat.min (length (weight l)) (length (bias l)).
Proof. unfold Linear_forward1. now rewrite zip_with_length, length_map. Qed.

Lemma head_rows self l X h :
  length (weight l) = all_head_size self ->
  length (bias l) = all_head_size self ->
  (h < num_attention_heads self)%nat ->
  Forall (fun r => length r = attention_head_size self)
    (map (head_slice (attention_head_size self) h) (Linear_forward2 l X)).
Proof.
  intros Hw Hb Hh. apply Forall_forall. intros r Hr.
  unfold Linear_forward2 in Hr. rewrite map_map in Hr.
  apply in_map_iff in Hr. destruct Hr as [x [<- _]].
  apply (head_slice_length (num_attention_heads self)); [|assumption].
  rewrite Linear_forward1_length, Hw, Hb. unfold all_head_size. lia.
Qed.

Lemma scaled_dot_product_attention_length d Q K V M :
  length M = 1%nat \/ length M = length Q ->
  length (scaled_dot_product_attention d Q K V M) = length Q.
Proof.
  intros HM. unfold scaled_dot_product_attention, add2.
  rewrite !length_map, broadcast_length; rewrite ?length_map; auto.
Qed.

Lemma batch_forward_spec self (X : tensor2) (Mb : tensor3) :
  projections_shaped self ->
  length Mb = 1%nat \/ length Mb = num_attention_heads self ->
  Forall (fun m2 : tensor2 => length m2 = 1%nat \/ length m2 = length X) Mb ->
  batch_forward self X Mb =
  tabulate (length X) (fun i =>
    concat (tabulate (num_attention_heads self) (fun h =>
      nth i
        (scaled_dot_product_attention (attention_head_size self)
           (map (head_slice (attention_head_size self) h)
              (Linear_forward2 (query self) X))
           (map (head_slice (attention_head_size self) h)
              (Linear_forward2 (key self) X))
           (map (head_slice (attention_head_size self) h)
              (Linear_forward2 (value self) X))
           (bnth h Mb [])) []))).
Proof.
  intros (Hn & Hd & Hlin) HMb HM2.
  inversion Hlin as [|? ? [Hqw Hqb] Hlin1]; subst.
  inversion Hlin1 as [|? ? [Hkw Hkb] Hlin2]; subst.
  inversion Hlin2 as [|? ? [Hvw Hvb] _]; subst.
  set (n := num_attention_heads self) in *.
  set (d := attention_head_size self) in *.
  set (head := fun h =>
        scaled_dot_product_attention d
           (map (head_slice d h) (Linear_forward2 (query self) X))
           (map (head_slice d h) (Linear_forward2 (key self) X))
           (map (head_slice d h) (Linear_forward2 (value self) X))
           (bnth h Mb [])).
  assert (HMh : forall h, (h < n)%nat ->
            length (bnth h Mb []) = 1%nat \/ length (bnth h Mb []) = length X).
  { intros h Hh. rewrite Forall_forall in HM2. apply HM2, bnth_In.
    destruct HMb as [H|H]; [left; exact H | right; lia]. }
  assert (Hheadlen : forall h, (h < n)%nat -> length (head h) = length X).
  { intros h Hh. unfold head.
    rewrite scaled_dot_product_attention_length;
      unfold Linear_forward2; rewrite !length_map; auto. }
  unfold batch_forward. fold n d.
  rewrite !swap_view_heads.
  rewrite map_tabulate, zip_with_tabulate_tabulate, map_tabulate.
  unfold add3.
  rewrite (broadcast_as_tabulate add2 _ Mb [] [])
    by now rewrite tabulate_length.
  rewrite tabulate_length, map_tabulate, zip_with_tabulate_tabulate.
  match goal with
  | |- map _ (swap_axes [] (dim1 ?c) ?c) = _ =>
      assert (Hc : c = tabulate n head)
  end.
  { apply tabulate_ext. intros h Hh. rewrite tabulate_nth by assumption.
    unfold head. apply head_attention.
    - exact Hd.
    - now apply head_rows.
    - now apply head_rows.
    - unfold Linear_forward2. now rewrite !length_map. }
  rewrite Hc. clear Hc.
  assert (Hdim : dim1 (tabulate n head) = length X).
  { unfold dim1, tabulate. destruct n as [|n']; [lia|].
    simpl. apply Hheadlen. lia. }
  rewrite Hdim. unfold swap_axes.
  rewrite map_tabulate. apply tabulate_ext. intros i Hi.
  now rewrite map_tabulate.
Qed.

(** C1. In evaluation mode (dropout is the identity), for every hidden-states
    tensor and additive attention mask, [BertSelfAttention.forward] computes,
    per head, the scores [Q_h K_h^T / sqrt attention_head_size], adds the
    mask, normalises with softmax along the last axis, takes the weighted
    sums of the value rows, and concatenates the heads: it is scaled
    dot-product multi-head attention. *)
Theorem BertSelfAttention_forward_is_multi_head_attention
  (self : BertSelfAttention) (keep : keep_mask4)
  (hidden_states : tensor3) (attention_mask : tensor4) :
  training self = false ->
  projections_shaped self ->
  mask_broadcastable self hidden_states attention_mask ->
  forward self keep hidden_states attention_mask =
  multi_head_attention self hidden_states attention_mask.
Proof.
  intros Htr Hshape [HmB Hm].
  rewrite (forward_batchwise self keep hidden_states attention_mask Htr HmB).
  unfold multi_head_attention. apply tabulate_ext. intros b Hb.
  assert (Hin : In (bnth b attention_mask []) attention_mask).
  { apply bnth_In. destruct HmB as [H|H]; [left; exact H | right; lia]. }
  rewrite Forall_forall in Hm. destruct (Hm _ Hin) as [Hheads Hrows].
  apply batch_forward_spec; try assumption.
  apply Forall_forall. intros m2 Hm2.
  rewrite Forall_forall in Hrows. destruct (Hrows _ Hm2) as [H1|HS].
  - left. exact H1.
  - right. rewrite Forall_forall in HS. symmetry. apply HS.
    now apply nth_In.
Qed.

Definition identity2 : Linear := mkLinear [[1; 0]; [0; 1]] [0; 0].

Definition sample_attention : BertSelfAttention :=
  mkSelfAttention 2 1 identity2 identity2 identity2 (1 / 10) false.

Example BertSelfAttention_forward_witness :
  projections_shaped sample_attention /\
  forward sample_attention [] [[[1; 2]; [3; 4]]] [[[[0; -10000]]]] =
  multi_head_attention sample_attention [[[1; 2]; [3; 4]]] [[[[0; -10000]]]].
Proof.
  assert (Hs : projections_shaped sample_attention).
  { split; [simpl; lia|]. split; [simpl; lia|]. repeat constructor. }
  split; [exact Hs|].
  apply (BertSelfAttention_forward_is_multi_head_attention sample_attention []
           [[[1; 2]; [3; 4]]] [[[[0; -10000]]]]).
  - reflexivity.
  - exact Hs.
  - split; [left; reflexivity|]. repeat constructor.
Defined.

(** ** The shape of the result *)

Lemma concat_length_uniform {A} (d : nat) (l : list (list A)) :
  Forall (fun r => length r = d) l ->
  length (concat l) = (length l * d)%nat.
Proof.
  induction 1 as [|r l Hr _ IH]; [reflexivity|].
  cbn [concat length]. rewrite length_app, IH, Hr. lia.
Qed.

Lemma scaled_dot_product_attention_rows d Q K V M i :
  Forall (fun r => length r = d) V ->
  length M = 1%nat \/ length M = length Q ->
  (i < length Q)%nat ->
  length (nth i (scaled_dot_product_attention d Q K V M) []) = d.
Proof.
  intros HV HM Hi.
  pose proof (scaled_dot_product_attention_length d Q K V M HM) as Hlen.
  set (attended := scaled_dot_product_attention d Q K V M) in *.
  assert (Hin : In (nth i attended []) attended) by (apply nth_In; lia).
  unfold attended at 2 in Hin. unfold scaled_dot_product_attention in Hin.
  cbv zeta in Hin. apply in_map_iff in Hin. destruct Hin as (p & Hp & _).
  rewrite <- Hp. now apply weighted_sum_length.
Qed.

Lemma mask_rows_broadcastable self hidden_states attention_mask b :
  mask_broadcastable self hidden_states attention_mask ->
  (b < length hidden_states)%nat ->
  (length (bnth b attention_mask []) = 1%nat \/
   length (bnth b attention_mask []) = num_attention_heads self) /\
  Forall (fun m2 : tensor2 =>
            length m2 = 1%nat \/ length m2 = length (nth b hidden_states []))
    (bnth b attention_mask []).
Proof.
  intros [HmB Hm] Hb.
  assert (Hin : In (bnth b attention_mask []) attention_mask).
  { apply bnth_In. destruct HmB as [H|H]; [left; exact H | right; lia]. }
  rewrite Forall_forall in Hm. destruct (Hm _ Hin) as [Hheads Hrows].
  split; [exact Hheads|].
  apply Forall_forall. intros m2 Hm2.
  rewrite Forall_forall in Hrows. destruct (Hrows _ Hm2) as [H1|HS].
  - left. exact H1.
  - right. rewrite Forall_forall in HS. symmetry. apply HS.
    now apply nth_In.
Qed.

(** In evaluation mode the context layer has the shape of the hidden
    states, with [all_head_size] entries on the last axis: one matrix for
    every sequence of the batch, one row for every position. *)
Theorem BertSelfAttention_forward_shape
  (self : BertSelfAttention) (keep : keep_mask4)
  (hidden_states : tensor3) (attention_mask : tensor4) :
  training self = false ->
  projections_shaped self ->
  mask_broadcastable self hidden_states attention_mask ->
  length (forward self keep hidden_states attention_mask) =
    length hidden_states
  /\
  (forall b, (b < length hidden_states)%nat ->
     length (nth b (forward self keep hidden_states attention_mask) []) =
       length (nth b hidden_states [])
     /\
     forall i, (i < length (nth b hidden_states []))%nat ->
       length (nth i (nth b (forward self keep hidden_states attention_mask)
                        []) []) = all_head_size self).
Proof.
  intros Htr Hshape Hmask.
  rewrite (forward_batchwise self keep hidden_states attention_mask Htr
             (proj1 Hmask)).
  split; [apply tabulate_length|].
  intros b Hb. rewrite tabulate_nth by exact Hb.
  destruct (mask_rows_broadcastable self hidden_states attention_mask b
              Hmask Hb) as [Hheads Hrows].
  rewrite (batch_forward_spec self (nth b hidden_states [])
             (bnth b attention_mask []) Hshape Hheads Hrows).
  split; [apply tabulate_length|].
  intros i Hi. rewrite tabulate_nth by exact Hi.
  destruct Hshape as (Hn & Hd & Hproj).
  inversion Hproj as [|? ? [Hqw Hqb] Hproj1]; subst.
  inversion Hproj1 as [|? ? [Hkw Hkb] Hproj2]; subst.
  inversion Hproj2 as [|? ? [Hvw Hvb] _]; subst.
  rewrite (concat_length_uniform (attention_head_size self)).
  - now rewrite tabulate_length.
  - apply Forall_forall. intros r Hr. unfold tabulate in Hr.
    apply in_map_iff in Hr. destruct Hr as (h & <- & Hh).
    apply in_seq in Hh.
    apply scaled_dot_product_attention_rows.
    + apply head_rows; [exact Hvw|exact Hvb|lia].
    + rewrite length_map. unfold Linear_forward2. rewrite length_map.
      assert (Hin : In (bnth h (bnth b attention_mask []) [])
                      (bnth b attention_mask [])).
      { apply bnth_In. destruct Hheads as [H|H]; [left; exact H|right; lia]. }
      rewrite Forall_forall in Hrows. exact (Hrows _ Hin).
    + rewrite length_map. unfold Linear_forward2. now rewrite length_map.
Qed.

Definition sample_hidden_states : tensor3 := [[[1; 2]; [3; 4]]].

Definition sample_mask : tensor4 := [[[[0; -10000]]]].

Example BertSelfAttention_forward_shape_witness :
  length (forward sample_attention [] sample_hidden_states sample_mask) =
    length sample_hidden_states
  /\
  (forall b, (b < length sample_hidden_states)%nat ->
     length (nth b (forward sample_attention [] sample_hidden_states
                      sample_mask) []) =
       length (nth b sample_hidden_states [])
     /\
     forall i, (i < length (nth b sample_hidden_states []))%nat ->
       length (nth i (nth b (forward sample_attention [] sample_hidden_states
                               sample_mask) []) []) =
       all_head_size sample_attention).
Proof.
  apply (BertSelfAttention_forward_shape sample_attention []
           sample_hidden_states sample_mask).
  - reflexivity.
  - split; [simpl; lia|]. split; [simpl; lia|]. repeat constructor.
  - split; [left; reflexivity|]. repeat constructor.
Defined.


(** ** Splitting into heads and merging back *)

Lemma firstn_plus {A} (a b : nat) (l : list A) :
  firstn (a + b) l = (firstn a l ++ firstn b (skipn a l))%list.
Proof.
  revert l. induction a as [|a IH]; intros l; [reflexivity|].
  destruct l as [|x l]; cbn [Nat.add firstn skipn app].
  - now rewrite firstn_nil.
  - now rewrite IH.
Qed.

Lemma concat_view_heads (n d : nat) (row : tensor1) :
  concat (view_heads n d row) = firstn (n * d) row.
Proof.
  revert row. induction n as [|n IH]; intros row; [reflexivity|].
  cbn [view_heads concat Nat.mul]. now rewrite IH, firstn_plus.
Qed.

Lemma swap_axes_twice {A} (d : A) (n : nat) (M : list (list A)) :
  Forall (fun r => length r = n) M ->
  swap_axes d (length M) (swap_axes d n M) = M.
Proof.
  intros HM. unfold swap_axes.
  etransitivity; [|symmetry; apply (tabulate_self M [])].
  apply tabulate_ext. intros i Hi. rewrite map_tabulate.
  assert (Hrow : length (nth i M []) = n).
  { rewrite Forall_forall in HM. apply HM. now apply nth_In. }
  etransitivity; [|symmetry; apply (tabulate_self (nth i M []) d)].
  rewrite Hrow. apply tabulate_ext. intros k Hk.
  now rewrite (map_nth_in _ M [] d).
Qed.

(** The [permute] and [view] that end [BertSelfAttention.forward] undo
    [transpose_for_scores]: a tensor whose last axis has [all_head_size]
    entries, split into heads and merged back, is the tensor itself. *)
Theorem transpose_for_scores_merged_back (self : BertSelfAttention)
  (x : tensor3) :
  (1 <= num_attention_heads self)%nat ->
  LayerNorm.rows_of_size3 (all_head_size self) x ->
  map (map (@concat R))
    (map (fun c => swap_axes [] (dim1 c) c) (transpose_for_scores self x)) = x.
Proof.
  intros Hn Hx. unfold transpose_for_scores. cbv zeta.
  rewrite !map_map. rewrite <- (map_id x) at 2.
  apply map_ext_in. intros X HX.
  set (n := num_attention_heads self) in *.
  set (d := attention_head_size self).
  set (M := map (view_heads n d) X).
  assert (HM : Forall (fun r => length r = n) M).
  { apply Forall_map. apply Forall_forall. intros row _.
    apply view_heads_length. }
  assert (Hdim : dim1 (swap_axes [] n M) = length M).
  { unfold dim1, swap_axes, tabulate. destruct n as [|n']; [lia|].
    cbn [seq map hd]. now rewrite length_map. }
  rewrite Hdim.
  match goal with
  | |- map _ ?t = _ =>
      assert (Ht : t = M) by exact (swap_axes_twice [] n M HM); rewrite Ht
  end.
  subst M.
  rewrite map_map. rewrite <- (map_id X) at 2.
  apply map_ext_in. intros row Hrow. rewrite concat_view_heads.
  apply firstn_all2.
  unfold LayerNorm.rows_of_size3 in Hx. rewrite Forall_forall in Hx.
  specialize (Hx X HX). rewrite Forall_forall in Hx.
  rewrite (Hx row Hrow). unfold all_head_size. fold n d. lia.
Qed.

Example transpose_for_scores_merged_back_witness :
  map (map (@concat R))
    (map (fun c => swap_axes [] (dim1 c) c)
       (transpose_for_scores sample_attention sample_hidden_states)) =
  sample_hidden_states.
Proof.
  apply (transpose_for_scores_merged_back sample_attention
           sample_hidden_states).
  - simpl. lia.
  - repeat constructor.
Defined.

(** ** The sequences of a batch do not see each other *)

(** In evaluation mode the context layer of a sequence of the batch is what
    the module returns for that sequence alone, with its part of the
    mask. *)
Theorem BertSelfAttention_forward_per_sequence
  (self : BertSelfAttention) (keep : keep_mask4)
  (hidden_states : tensor3) (attention_mask : tensor4) (b : nat) :
  training self = false ->
  length attention_mask = 1%nat \/
  length attention_mask = length hidden_states ->
  (b < length hidden_states)%nat ->
  nth b (forward self keep hidden_states attention_mask) [] =
  nth 0 (forward self keep [nth b hidden_states []]
           [bnth b attention_mask []]) [].
Proof.
  intros Htr Hmask Hb.
  rewrite (forward_batchwise self keep hidden_states attention_mask Htr Hmask).
  rewrite (forward_batchwise self keep [nth b hidden_states []]
             [bnth b attention_mask []] Htr (or_introl eq_refl)).
  rewrite tabulate_nth by exact Hb. reflexivity.
Qed.

(** A batch of two sequences of two tokens, the second token of the first
    sequence masked. *)
Definition pair_hidden_states : tensor3 :=
  [[[1; 2]; [3; 4]]; [[5; 6]; [7; 8]]].

Definition pair_mask : tensor4 := [[[[0; -10000]]]; [[[0; 0]]]].

Example BertSelfAttention_forward_per_sequence_witness :
  nth 1 (forward sample_attention [] pair_hidden_states pair_mask) [] =
  nth 0 (forward sample_attention [] [[[5; 6]; [7; 8]]] [[[[0; 0]]]]) [].
Proof.
  apply (BertSelfAttention_forward_per_sequence sample_attention []
           pair_hidden_states pair_mask 1).
  - reflexivity.
  - right. reflexivity.
  - simpl. lia.
Defined.


End SelfAttentionFacts.

(* ================================================================== *)
(** * [BertSelfOutput], [BertAttention], [BertIntermediate], [BertOutput],
      [BertLayer] *)
(* ================================================================== *)

Module EncoderLayer.

Import LayerNorm.
Local Open Scope R_scope.

Definition keep_mask3 := list (list (list bool)).

Record BertSelfOutput := mkSelfOutput {
  so_dense : Linear;
  so_LayerNorm : BertLayerNorm;
  so_dropout_prob : R;
  so_training : bool
}.

Definition BertSelfOutput_forward (self : BertSelfOutput) (keep : keep_mask3)
  (hidden_states input_tensor : tensor3) : tensor3 :=
  let hidden_states := Linear_forward3 (so_dense self) hidden_states in
  let hidden_states :=
    Dropout3 (so_training self) (so_dropout_prob self) keep hidden_states in
  LayerNorm.forward3 (so_LayerNorm self) (add3 hidden_states input_tensor).

Record BertAttention := mkAttention {
  att_self : SelfAttention.BertSelfAttention;
  att_output : BertSelfOutput
}.

Definition BertAttention_forward (self : BertAttention)
  (keep_probs : SelfAttention.keep_mask4) (keep : keep_mask3)
  (input_tensor : tensor3) (attention_mask : tensor4) : tensor3 :=
  let self_output :=
    SelfAttention.forward (att_self self) keep_probs input_tensor
      attention_mask in
  BertSelfOutput_forward (att_output self) keep self_output input_tensor.

(** [intermediate_act_fn] is [ACT2FN[config.hidden_act]] or the callable
    given as [config.hidden_act]. *)
Record BertIntermediate := mkIntermediate {
  int_dense : Linear;
  intermediate_act_fn : tensor3 -> tensor3
}.

Definition BertIntermediate_forward (self : BertIntermediate)
  (hidden_states : tensor3) : tensor3 :=
  let hidden_states := Linear_forward3 (int_dense self) hidden_states in
  intermediate_act_fn self hidden_states.

Record BertOutput := mkOutput {
  out_dense : Linear;
  out_LayerNorm : BertLayerNorm;
  out_dropout_prob : R;
  out_training : bool
}.

Definition BertOutput_forward (self : BertOutput) (keep : keep_mask3)
  (hidden_states input_tensor : tensor3) : tensor3 :=
  let hidden_states := Linear_forward3 (out_dense self) hidden_states in
  let hidden_states :=
    Dropout3 (out_training self) (out_dropout_prob self) keep hidden_states in
  LayerNorm.forward3 (out_LayerNorm self) (add3 hidden_states input_tensor).

Record BertLayer := mkLayer {
  attention : BertAttention;
  intermediate : BertIntermediate;
  output : BertOutput
}.

(** The draws of the three dropout modules of a layer. *)
Record layer_draws := mkDraws {
  keep_probs : SelfAttention.keep_mask4;
  keep_attention_output : keep_mask3;
  keep_output : keep_mask3
}.

Definition BertLayer_forward (self : BertLayer) (draws : layer_draws)
  (hidden_states : tensor3) (attention_mask : tensor4) : tensor3 :=
  let attention_output :=
    BertAttention_forward (attention self) (keep_probs draws)
      (keep_attention_output draws) hidden_states attention_mask in
  let intermediate_output :=
    BertIntermediate_forward (intermediate self) attention_output in
  BertOutput_forward (output self) (keep_output draws) intermediate_output
    attention_output.

(** Every dropout module of the layer is in evaluation mode. *)
Definition evaluation_mode (self : BertLayer) : Prop :=
  SelfAttention.training (att_self (attention self)) = false /\
  so_training (att_output (attention self)) = false /\
  out_training (output self) = false.

(** ** The post-norm transformer block

    [a = LayerNorm (W_o (attention x) + x)] and
    [LayerNorm (a + W_2 (act (W_1 a)))]. *)
Definition post_norm_block (attend : tensor3 -> tensor3)
  (W_o : Linear) (norm1 : BertLayerNorm)
  (W_1 : Linear) (act : tensor3 -> tensor3) (W_2 : Linear)
  (norm2 : BertLayerNorm) (x : tensor3) : tensor3 :=
  let a := LayerNorm.forward3 norm1 (add3 (Linear_forward3 W_o (attend x)) x) in
  LayerNorm.forward3 norm2
    (add3 a (Linear_forward3 W_2 (act (Linear_forward3 W_1 a)))).

(** The block made of the parameters of a [BertLayer]. *)
Definition block_of (self : BertLayer) (draws : layer_draws)
  (attention_mask : tensor4) : tensor3 -> tensor3 :=
  post_norm_block
    (fun x => SelfAttention.forward (att_self (attention self))
                (keep_probs draws) x attention_mask)
    (so_dense (att_output (attention self)))
    (so_LayerNorm (att_output (attention self)))
    (int_dense (intermediate self))
    (intermediate_act_fn (intermediate self))
    (out_dense (output self))
    (out_LayerNorm (output self)).

End EncoderLayer.

Module EncoderLayerFacts.

Import LayerNorm EncoderLayer.
Local Open Scope R_scope.

Lemma zip_with_flip {A C} (f g : A -> A -> C) (a b : list A) :
  (forall x y, f x y = g y x) -> zip_with f a b = zip_with g b a.
Proof.
  intros Hfg. revert b.
  induction a as [|u a IH]; intros [|v b]; simpl; try reflexivity.
  now rewrite Hfg, IH.
Qed.

Lemma broadcast_flip {A C} (f g : A -> A -> C) (a b : list A) :
  (forall x y, f x y = g y x) -> broadcast f a b = broadcast g b a.
Proof.
  intros Hfg. unfold broadcast.
  destruct a as [|x [|x' a]]; destruct b as [|y [|y' b]];
    try reflexivity.
  - cbn [map]. now rewrite Hfg.
  - apply map_ext. intros; apply Hfg.
  - apply map_ext. intros; apply Hfg.
  - now apply zip_with_flip.
Qed.

Lemma add1_comm a b : add1 a b = add1 b a.
Proof. apply broadcast_flip. intros; apply Rplus_comm. Qed.

Lemma add2_comm a b : add2 a b = add2 b a.
Proof. apply broadcast_flip. intros; apply add1_comm. Qed.

Lemma add3_comm a b : add3 a b = add3 b a.
Proof. apply broadcast_flip. intros; apply add2_comm. Qed.


(** ** A layer in training mode *)

Definition eps12 : R := LayerNorm.default_eps.

Definition zero2 : Linear := mkLinear [[0; 0]; [0; 0]] [0; 0].

Definition unit_norm : BertLayerNorm := mkLayerNorm [1; 1] [0; 0] eps12.

(** [ACT2FN["relu"]] on a tensor. *)
Definition relu3 (x : tensor3) : tensor3 :=
  map (map (map Activations.relu)) x.

(** Hidden size 2, one head, intermediate size 1; the only non-zero
    parameter besides the normalisation weights is the bias [[1; 0]] of the
    output projection. *)
Definition layer_with (training : bool) : BertLayer :=
  mkLayer
    (mkAttention
       (SelfAttention.mkSelfAttention 1 2 zero2 zero2 zero2 (1 / 10) training)
       (mkSelfOutput zero2 unit_norm (1 / 10) training))
    (mkIntermediate (mkLinear [[0; 0]] [0]) relu3)
    (mkOutput (mkLinear [[0]; [0]] [1; 0]) unit_norm (1 / 10) training).

(** A draw in which the output dropout zeroes both entries. *)
Definition dropping_draws : layer_draws :=
  mkDraws [[[[true]]]] [[[true; true]]] [[[false; false]]].

Ltac entries := repeat (f_equal; try reflexivity).

Ltac arith :=
  unfold dot, mean, sum, drop_entry, Rdiv; simpl; ring.

Lemma zero_attention training :
  SelfAttention.forward (att_self (attention (layer_with training)))
    [[[[true]]]] [[[0; 0]]] [[[[0]]]] = [[[0; 0]]].
Proof.
  unfold SelfAttention.forward. destruct training; simpl; entries; arith.
Qed.

Lemma unit_norm_zero : LayerNorm.forward3 unit_norm [[[0; 0]]] = [[[0; 0]]].
Proof.
  unfold forward3, forward2. cbn [map].
  rewrite forward1_spec by reflexivity.
  unfold layer_norm_spec, tabulate. simpl. entries; arith.
Qed.

Lemma eps12_pos : 0 < eps12.
Proof.
  unfold eps12, default_eps. apply Rdiv_lt_0_compat; [lra|]. apply pow_lt. lra.
Qed.

Lemma unit_norm_one_zero :
  exists c c', LayerNorm.forward3 unit_norm [[[1; 0]]] = [[[c; c']]] /\ 0 < c.
Proof.
  unfold forward3, forward2. cbn [map].
  rewrite forward1_spec by reflexivity.
  unfold layer_norm_spec, tabulate. cbn [map seq length nth ln_weight ln_bias
    unit_norm variance_epsilon].
  eexists. eexists. split; [reflexivity|].
  assert (Hm : mean [1; 0] = 1 / 2) by (unfold mean, sum; simpl; lra).
  rewrite Hm.
  assert (Hs : 0 < mean (squared_deviations (1 / 2) [1; 0]) + eps12).
  { unfold squared_deviations, mean, sum. simpl.
    pose proof eps12_pos. lra. }
  pose proof (sqrt_lt_R0 _ Hs) as Hq.
  pose proof (Rinv_0_lt_compat _ Hq) as Hi.
  unfold Rdiv. rewrite Rplus_0_r.
  apply Rmult_lt_0_compat; [lra|exact Hi].
Qed.

Lemma relu_zero : Activations.relu 0 = 0.
Proof. unfold Activations.relu, Rmax. destruct (Rle_dec 0 0); reflexivity. Qed.

Lemma zero_self_output training :
  BertSelfOutput_forward (att_output (attention (layer_with training)))
    [[[true; true]]] [[[0; 0]]] [[[0; 0]]] = [[[0; 0]]].
Proof.
  unfold BertSelfOutput_forward.
  transitivity (LayerNorm.forward3 unit_norm [[[0; 0]]]);
    [|apply unit_norm_zero].
  cbn [layer_with attention att_output so_LayerNorm]. f_equal.
  destruct training; simpl; entries; arith.
Qed.

Lemma zero_intermediate training :
  BertIntermediate_forward (intermediate (layer_with training)) [[[0; 0]]] =
  [[[0]]].
Proof.
  unfold BertIntermediate_forward. simpl. entries.
  replace (dot [0; 0] [0; 0] + 0) with 0 by arith. apply relu_zero.
Qed.

Lemma training_output_dropped :
  BertOutput_forward (output (layer_with true)) [[[false; false]]]
    [[[0]]] [[[0; 0]]] = [[[0; 0]]].
Proof.
  unfold BertOutput_forward.
  transitivity (LayerNorm.forward3 unit_norm [[[0; 0]]]);
    [|apply unit_norm_zero].
  cbn [layer_with output out_LayerNorm]. f_equal.
  simpl; entries; arith.
Qed.

Lemma training_forward_value :
  BertLayer_forward (layer_with true) dropping_draws [[[0; 0]]] [[[[0]]]] =
  [[[0; 0]]].
Proof.
  unfold BertLayer_forward, BertAttention_forward.
  cbn [dropping_draws keep_probs keep_attention_output keep_output].
  rewrite zero_attention, zero_self_output, zero_intermediate.
  apply training_output_dropped.
Qed.

Lemma block_value training :
  block_of (layer_with training) dropping_draws [[[[0]]]] [[[0; 0]]] =
  LayerNorm.forward3 unit_norm [[[1; 0]]].
Proof.
  unfold block_of, post_norm_block.
  cbn [dropping_draws keep_probs].
  rewrite zero_attention.
  cbn [layer_with attention att_output so_dense so_LayerNorm intermediate
         int_dense intermediate_act_fn output out_dense out_LayerNorm].
  assert (Ha : add3 (Linear_forward3 zero2 [[[0; 0]]]) [[[0; 0]]] = [[[0; 0]]])
    by (simpl; entries; arith).
  rewrite Ha, unit_norm_zero.
  f_equal. simpl. entries.
  all: replace (dot [0; 0] [0; 0] + 0) with 0 by arith.
  all: rewrite relu_zero; arith.
Qed.




(** ** A layer works on every sequence of the batch by itself *)

(** The activation acts on every entry by itself, as [gelu], [relu] and
    [swish] do. *)
Definition entrywise (act : tensor3 -> tensor3) : Prop :=
  exists f : R -> R, forall x, act x = map (map (map f)) x.

(** What a layer in evaluation mode computes for one sequence [X] of the
    batch and its part [Mb] of the mask. *)
Definition sequence_forward (self : BertLayer) (X : tensor2) (Mb : tensor3)
  : tensor2 :=
  let self_output :=
    SelfAttentionFacts.batch_forward (att_self (attention self)) X Mb in
  let attention_output :=
    LayerNorm.forward2 (so_LayerNorm (att_output (attention self)))
      (add2 (Linear_forward2 (so_dense (att_output (attention self)))
               self_output) X) in
  let intermediate_output :=
    hd [] (intermediate_act_fn (intermediate self)
             [Linear_forward2 (int_dense (intermediate self))
                attention_output]) in
  LayerNorm.forward2 (out_LayerNorm (output self))
    (add2 (Linear_forward2 (out_dense (output self)) intermediate_output)
       attention_output).

Lemma add3_tabulate (n : nat) (g h : nat -> tensor2) :
  add3 (tabulate n g) (tabulate n h) = tabulate n (fun b => add2 (g b) (h b)).
Proof.
  unfold add3. rewrite broadcast_same_length by now rewrite !tabulate_length.
  apply SelfAttentionFacts.zip_with_tabulate_tabulate.
Qed.

Lemma BertLayer_forward_batchwise (self : BertLayer) (draws : layer_draws)
  (hidden_states : tensor3) (attention_mask : tensor4) :
  evaluation_mode self ->
  entrywise (intermediate_act_fn (intermediate self)) ->
  length attention_mask = 1%nat \/
  length attention_mask = length hidden_states ->
  BertLayer_forward self draws hidden_states attention_mask =
  tabulate (length hidden_states)
    (fun b => sequence_forward self (nth b hidden_states [])
                (bnth b attention_mask [])).
Proof.
  intros (Ht1 & Ht2 & Ht3) [f Hf] Hmask.
  unfold BertLayer_forward, BertAttention_forward, BertSelfOutput_forward,
    BertIntermediate_forward, BertOutput_forward.
  rewrite Ht2, Ht3. unfold Dropout3.
  rewrite (SelfAttentionFacts.forward_batchwise _ _ _ _ Ht1 Hmask).
  set (n := length hidden_states).
  set (a := fun b => SelfAttentionFacts.batch_forward (att_self (attention self))
                       (nth b hidden_states []) (bnth b attention_mask [])).
  assert (Hhs : hidden_states = tabulate n (fun b => nth b hidden_states []))
    by apply tabulate_self.
  assert (Hao :
    LayerNorm.forward3 (so_LayerNorm (att_output (attention self)))
      (add3 (Linear_forward3 (so_dense (att_output (attention self)))
               (tabulate n a)) hidden_states) =
    tabulate n (fun b =>
      LayerNorm.forward2 (so_LayerNorm (att_output (attention self)))
        (add2 (Linear_forward2 (so_dense (att_output (attention self))) (a b))
           (nth b hidden_states [])))).
  { rewrite Hhs at 1. unfold Linear_forward3, LayerNorm.forward3.
    rewrite map_tabulate, add3_tabulate, map_tabulate. reflexivity. }
  rewrite Hao. clear Hao.
  set (ao := fun b =>
    LayerNorm.forward2 (so_LayerNorm (att_output (attention self)))
      (add2 (Linear_forward2 (so_dense (att_output (attention self))) (a b))
         (nth b hidden_states []))).
  rewrite Hf. unfold Linear_forward3, LayerNorm.forward3.
  rewrite !map_tabulate, add3_tabulate, map_tabulate.
  apply tabulate_ext. intros b Hb.
  unfold sequence_forward. cbv zeta. rewrite Hf. reflexivity.
Qed.


End EncoderLayerFacts.

(* ================================================================== *)
(** * Exceptions *)
(* ================================================================== *)

Module Exceptions.

Inductive exception :=
| AssertionError (args : list (list nat))
| AttributeError (name : string)
| IndexError
| KeyError (key : string)
| OSError
| TypeError
| ValueError (message : string)
| ZeroDivisionError
| RuntimeError.

Inductive result (A : Type) :=
| Ok (a : A)
| Raise (e : exception).

Arguments Ok {A} a.
Arguments Raise {A} e.

Definition bind {A B : Type} (r : result A) (k : A -> result B) : result B :=
  match r with
  | Ok a => k a
  | Raise e => Raise e
  end.

(** [traverse f l]: apply [f] from left to right, stopping at the first
    exception. *)
Fixpoint traverse {A B : Type} (f : A -> result B) (l : list A)
  : result (list B) :=
  match l with
  | [] => Ok []
  | x :: l' =>
      bind (f x) (fun y => bind (traverse f l') (fun ys => Ok (y :: ys)))
  end.

End Exceptions.

Import Exceptions.

Declare Scope exc_scope.
Notation "x <- r ;; k" := (bind r (fun x => k))
  (at level 61, r at next level, right associativity) : exc_scope.
Notation "' p <- r ;; k" := (bind r (fun p => k))
  (at level 61, p pattern, r at next level, right associativity) : exc_scope.

(* ================================================================== *)
(** * [BertEmbeddings], [BertEncoder], [BertPooler], [BertModel] *)
(* ================================================================== *)

Module Model.

Import LayerNorm EncoderLayer.
Local Open Scope R_scope.
Local Open Scope exc_scope.

(** [nn.Embedding]: row [i] of the weight for index [i]; an index outside
    the table raises. *)
Definition Embedding_forward (weight : tensor2) (ids : list (list nat))
  : result tensor3 :=
  traverse (traverse (fun i =>
    match nth_error weight i with
    | Some row => Ok row
    | None => Raise IndexError
    end)) ids.

Record BertEmbeddings := mkEmbeddings {
  word_embeddings : tensor2;
  position_embeddings : tensor2;
  token_type_embeddings : tensor2;
  emb_LayerNorm : BertLayerNorm;
  emb_dropout_prob : R;
  emb_training : bool
}.

Definition BertEmbeddings_forward (self : BertEmbeddings) (keep : keep_mask3)
  (input_ids : list (list nat)) (token_type_ids : option (list (list nat)))
  : result tensor3 :=
  let seq_length := dim1 input_ids in
  let position_ids := map (fun _ => seq 0 seq_length) input_ids in
  let token_type_ids :=
    match token_type_ids with
    | Some t => t
    | None => map (map (fun _ => 0%nat)) input_ids
    end in
  words_embeddings <- Embedding_forward (word_embeddings self) input_ids ;;
  position_embeddings <-
    Embedding_forward (position_embeddings self) position_ids ;;
  token_type_embeddings <-
    Embedding_forward (token_type_embeddings self) token_type_ids ;;
  let embeddings :=
    add3 (add3 words_embeddings position_embeddings) token_type_embeddings in
  let embeddings := LayerNorm.forward3 (emb_LayerNorm self) embeddings in
  Ok (Dropout3 (emb_training self) (emb_dropout_prob self) keep embeddings).

Definition no_draws : layer_draws := mkDraws [] [] [].

(** The loop of [BertEncoder.forward]: [all] collects the output of every
    layer when [output_all_encoded_layers] is set. *)
Fixpoint encoder_loop (layers : list BertLayer) (draws : list layer_draws)
  (hidden_states : tensor3) (attention_mask : tensor4)
  (output_all_encoded_layers : bool) (all : list tensor3)
  : tensor3 * list tensor3 :=
  match layers with
  | [] => (hidden_states, all)
  | layer_module :: rest =>
      let hidden_states :=
        BertLayer_forward layer_module (hd no_draws draws) hidden_states
          attention_mask in
      encoder_loop rest (tl draws) hidden_states attention_mask
        output_all_encoded_layers
        (if output_all_encoded_layers then all ++ [hidden_states] else all)
  end.

Definition BertEncoder_forward (layers : list BertLayer)
  (draws : list layer_draws) (hidden_states : tensor3)
  (attention_mask : tensor4) (output_all_encoded_layers : bool)
  : list tensor3 :=
  let '(hidden_states, all_encoder_layers) :=
    encoder_loop layers draws hidden_states attention_mask
      output_all_encoded_layers [] in
  if output_all_encoded_layers then all_encoder_layers
  else all_encoder_layers ++ [hidden_states].

Record BertPooler := mkPooler { pool_dense : Linear }.

(** [hidden_states[:, 0]], then the dense layer and [tanh]. *)
Definition BertPooler_forward (self : BertPooler) (hidden_states : tensor3)
  : result tensor2 :=
  first_token_tensor <-
    traverse (fun X : tensor2 =>
                match X with
                | t :: _ => Ok t
                | [] => Raise IndexError
                end) hidden_states ;;
  let pooled_output := Linear_forward2 (pool_dense self) first_token_tensor in
  Ok (map (map tanh) pooled_output).

Record BertModel := mkModel {
  embeddings : BertEmbeddings;
  encoder : list BertLayer;
  pooler : BertPooler
}.

Record model_draws := mkModelDraws {
  keep_embeddings : keep_mask3;
  keep_layers : list layer_draws
}.

(** What [BertModel.forward] returns first: every layer's output, or the
    last one only. *)
Inductive encoded :=
| AllLayers (layers : list tensor3)
| LastLayer (layer : tensor3).

(** [encoded_layers[-1]] *)
Definition last_layer (l : list tensor3) : result tensor3 :=
  match rev l with
  | x :: _ => Ok x
  | [] => Raise IndexError
  end.

Definition BertModel_forward (self : BertModel) (draws : model_draws)
  (input_ids : list (list nat)) (token_type_ids : option (list (list nat)))
  (attention_mask : option (list (list Z))) (output_all_encoded_layers : bool)
  : result (encoded * tensor2) :=
  let attention_mask :=
    match attention_mask with
    | Some m => m
    | None => map (map (fun _ => 1%Z)) input_ids
    end in
  let token_type_ids :=
    match token_type_ids with
    | Some t => t
    | None => map (map (fun _ => 0%nat)) input_ids
    end in
  let extended_attention_mask : tensor4 :=
    map (fun row => [[map IZR row]]) attention_mask in
  let extended_attention_mask :=
    map (map (map (map (fun m => (1 - m) * - 10000))))
      extended_attention_mask in
  embedding_output <-
    BertEmbeddings_forward (embeddings self) (keep_embeddings draws)
      input_ids (Some token_type_ids) ;;
  let encoded_layers :=
    BertEncoder_forward (encoder self) (keep_layers draws) embedding_output
      extended_attention_mask output_all_encoded_layers in
  sequence_output <- last_layer encoded_layers ;;
  pooled_output <- BertPooler_forward (pooler self) sequence_output ;;
  if output_all_encoded_layers
  then Ok (AllLayers encoded_layers, pooled_output)
  else Ok (LastLayer sequence_output, pooled_output).

End Model.

Module ModelFacts.

Import LayerNorm EncoderLayer Model.
Local Open Scope R_scope.
Local Open Scope exc_scope.

(** ** [traverse] *)

Lemma traverse_Ok_iff {A B} (f : A -> result B) (l : list A) :
  (exists ys, traverse f l = Ok ys) <->
  Forall (fun x => exists y, f x = Ok y) l.
Proof.
  induction l as [|x l IH]; cbn [traverse].
  - split; [constructor|eauto].
  - split.
    + intros [ys H]. destruct (f x) as [y|e] eqn:Hx; cbn [bind] in H;
        [|discriminate].
      destruct (traverse f l) as [ys'|e] eqn:Hl; cbn [bind] in H;
        [|discriminate].
      constructor; [eauto|]. apply IH. eauto.
    + intros H. inversion H as [|? ? [y Hy] Hl]; subst.
      apply IH in Hl. destruct Hl as [ys Hys].
      rewrite Hy, Hys. cbn [bind]. eauto.
Qed.

Lemma traverse_raises {A B} (f : A -> result B) (l : list A) e :
  traverse f l = Raise e -> exists x, In x l /\ f x = Raise e.
Proof.
  induction l as [|x l IH]; cbn [traverse]; intros H.
  - discriminate.
  - destruct (f x) as [y|e'] eqn:Hx; cbn [bind] in H.
    + destruct (traverse f l) as [ys|e''] eqn:Hl; cbn [bind] in H;
        [discriminate|].
      injection H as ->. destruct (IH eq_refl) as (x' & Hin & Hx').
      exists x'. split; [now right|exact Hx'].
    + injection H as ->. exists x. split; [now left|exact Hx].
Qed.

Lemma Forall_iff_ext {A} (P Q : A -> Prop) (l : list A) :
  (forall x, P x <-> Q x) -> (Forall P l <-> Forall Q l).
Proof.
  intros H. split; apply Forall_impl; intros x Hx; now apply H.
Qed.

(** ** [nn.Embedding] and [BertEmbeddings] *)

(** Every index of [ids] is below [n]. *)
Definition in_range (n : nat) (ids : list (list nat)) : Prop :=
  Forall (Forall (fun i => (i < n)%nat)) ids.

Lemma Embedding_forward_Ok_iff (weight : tensor2) (ids : list (list nat)) :
  (exists out, Embedding_forward weight ids = Ok out) <->
  in_range (length weight) ids.
Proof.
  unfold Embedding_forward, in_range.
  etransitivity; [apply traverse_Ok_iff|].
  apply Forall_iff_ext. intros row.
  etransitivity; [apply traverse_Ok_iff|].
  apply Forall_iff_ext. intros i.
  destruct (nth_error weight i) as [r|] eqn:Hi.
  - split; [|eauto]. intros _. apply nth_error_Some. congruence.
  - split; [intros [y Hy]; discriminate|].
    intros Hlt. apply nth_error_Some in Hlt. congruence.
Qed.

Lemma Embedding_forward_raises (weight : tensor2) (ids : list (list nat)) e :
  Embedding_forward weight ids = Raise e -> e = IndexError.
Proof.
  unfold Embedding_forward. intros H.
  apply traverse_raises in H. destruct H as (row & _ & H).
  apply traverse_raises in H. destruct H as (i & _ & H).
  destruct (nth_error weight i); [discriminate|]. now injection H as <-.
Qed.

Lemma positions_in_range (n seq_length : nat) (input_ids : list (list nat)) :
  in_range n (map (fun _ => seq 0 seq_length) input_ids) <->
  input_ids = [] \/ (seq_length <= n)%nat.
Proof.
  unfold in_range. rewrite Forall_map. split.
  - intros H. destruct input_ids as [|row rest]; [now left|right].
    inversion H as [|? ? Hrow _]; subst.
    destruct (Nat.le_gt_cases seq_length n) as [Hle|Hgt]; [exact Hle|].
    rewrite Forall_forall in Hrow.
    specialize (Hrow n). assert (Hin : In n (seq 0 seq_length)).
    { apply in_seq. lia. }
    specialize (Hrow Hin). lia.
  - intros [->|Hle]; [constructor|].
    apply Forall_forall. intros row _. apply Forall_forall.
    intros i Hi. apply in_seq in Hi. lia.
Qed.

(** The three lookups of [BertEmbeddings.forward]: they raise nothing but
    [IndexError], and all return exactly when every input id is below the
    number of word embeddings, the sequence is no longer than the table of
    position embeddings, and every token type is below the number of token
    type embeddings. *)
Lemma BertEmbeddings_forward_lookups
  (self : BertEmbeddings) (keep : keep_mask3) (input_ids : list (list nat))
  (token_type_ids : option (list (list nat))) :
  (forall e,
     BertEmbeddings_forward self keep input_ids token_type_ids = Raise e ->
     e = IndexError)
  /\
  ((exists out,
      BertEmbeddings_forward self keep input_ids token_type_ids = Ok out)
   <->
   in_range (length (word_embeddings self)) input_ids /\
   (input_ids = [] \/
    (dim1 input_ids <= length (position_embeddings self))%nat) /\
   in_range (length (token_type_embeddings self))
     match token_type_ids with
     | Some t => t
     | None => map (map (fun _ => 0%nat)) input_ids
     end).
Proof.
  unfold BertEmbeddings_forward.
  set (types := match token_type_ids with
                | Some t => t
                | None => map (map (fun _ => 0%nat)) input_ids
                end).
  pose proof (Embedding_forward_Ok_iff (word_embeddings self) input_ids) as Hw.
  pose proof (Embedding_forward_Ok_iff (position_embeddings self)
                (map (fun _ => seq 0 (dim1 input_ids)) input_ids)) as Hp.
  rewrite positions_in_range in Hp.
  pose proof (Embedding_forward_Ok_iff (token_type_embeddings self) types)
    as Ht.
  destruct (Embedding_forward (word_embeddings self) input_ids)
    as [w|e1] eqn:E1; cbn [bind].
  - destruct (Embedding_forward (position_embeddings self)
                (map (fun _ => seq 0 (dim1 input_ids)) input_ids))
      as [p|e2] eqn:E2; cbn [bind].
    + destruct (Embedding_forward (token_type_embeddings self) types)
        as [t|e3] eqn:E3; cbn [bind].
      * split; [discriminate|]. split; [|eauto].
        intros _. split; [|split]; [apply Hw|apply Hp|apply Ht]; eauto.
      * split.
        -- intros e H. injection H as <-.
           exact (Embedding_forward_raises _ _ _ E3).
        -- split; [intros [out H]; discriminate|].
           intros (_ & _ & H). apply Ht in H. destruct H as [out H].
           discriminate.
    + split.
      * intros e H. injection H as <-.
        exact (Embedding_forward_raises _ _ _ E2).
      * split; [intros [out H]; discriminate|].
        intros (_ & H & _). apply Hp in H. destruct H as [out H].
        discriminate.
  - split.
    + intros e H. injection H as <-.
      exact (Embedding_forward_raises _ _ _ E1).
    + split; [intros [out H]; discriminate|].
      intros (H & _). apply Hw in H. destruct H as [out H]. discriminate.
Qed.

(** Some index of [ids] is [n] or more. *)
Definition index_out_of_range (n : nat) (ids : list (list nat)) : Prop :=
  Exists (Exists (fun i => (n <= i)%nat)) ids.

Lemma out_of_range_not_in_range (n : nat) (ids : list (list nat)) :
  index_out_of_range n ids -> ~ in_range n ids.
Proof.
  unfold index_out_of_range, in_range. intros Hex Hall.
  apply Exists_exists in Hex. destruct Hex as (row & Hrow & Hex).
  apply Exists_exists in Hex. destruct Hex as (i & Hi & Hle).
  rewrite Forall_forall in Hall. specialize (Hall row Hrow).
  rewrite Forall_forall in Hall. specialize (Hall i Hi). lia.
Qed.

(** [BertEmbeddings.forward] does not return, but raises the error of the
    lookup in an embedding table, when an input id is not below the number
    of word embeddings, when the sequence is longer than the table of
    position embeddings ([max_position_embeddings] rows), or when a token
    type is not below the number of token type embeddings. *)
Theorem BertEmbeddings_forward_index_out_of_range
  (self : BertEmbeddings) (keep : keep_mask3) (input_ids : list (list nat))
  (token_type_ids : option (list (list nat))) :
  index_out_of_range (length (word_embeddings self)) input_ids \/
  (input_ids <> [] /\
   (length (position_embeddings self) < dim1 input_ids)%nat) \/
  index_out_of_range (length (token_type_embeddings self))
    match token_type_ids with
    | Some t => t
    | None => map (map (fun _ => 0%nat)) input_ids
    end ->
  exists e,
    BertEmbeddings_forward self keep input_ids token_type_ids = Raise e.
Proof.
  intros Hout. exists IndexError.
  destruct (BertEmbeddings_forward_lookups self keep input_ids token_type_ids)
    as [Hraise Hok].
  destruct (BertEmbeddings_forward self keep input_ids token_type_ids)
    as [out|e].
  - exfalso. destruct Hok as [Hok _].
    destruct (Hok (ex_intro _ out eq_refl)) as (Hw & Hp & Ht).
    destruct Hout as [Hout|[[Hne Hlt]|Hout]].
    + exact (out_of_range_not_in_range _ _ Hout Hw).
    + destruct Hp as [Hp|Hp]; [contradiction|lia].
    + exact (out_of_range_not_in_range _ _ Hout Ht).
  - now rewrite (Hraise e eq_refl).
Qed.

(** A table of two position embeddings and a sequence of three tokens. *)
Definition short_embeddings : BertEmbeddings :=
  mkEmbeddings [[0]; [0]; [0]; [0]] [[0]; [0]] [[0]]
    (mkLayerNorm [1] [0] default_eps) (1 / 10) false.

Example BertEmbeddings_forward_index_out_of_range_witness :
  exists e,
    BertEmbeddings_forward short_embeddings [] [[1; 2; 3]%nat] None = Raise e.
Proof.
  apply (BertEmbeddings_forward_index_out_of_range short_embeddings []
           [[1; 2; 3]%nat] None).
  right. left. split; [discriminate|]. unfold dim1. simpl. lia.
Defined.

(** ** [BertEncoder] *)

(** The outputs of the layers, one after the other. *)
Fixpoint layer_outputs (layers : list BertLayer) (draws : list layer_draws)
  (hidden_states : tensor3) (attention_mask : tensor4) : list tensor3 :=
  match layers with
  | [] => []
  | layer_module :: rest =>
      let hidden_states :=
        BertLayer_forward layer_module (hd no_draws draws) hidden_states
          attention_mask in
      hidden_states :: layer_outputs rest (tl draws) hidden_states attention_mask
  end.

Lemma last_cons {A} (a d : A) (l : list A) : last (a :: l) d = last l a.
Proof.
  revert a d. induction l as [|b l IH]; intros a d; [reflexivity|].
  change (last (a :: b :: l) d) with (last (b :: l) d).
  now rewrite (IH b d), (IH b a).
Qed.

Lemma layer_outputs_length layers draws h m :
  length (layer_outputs layers draws h m) = length layers.
Proof.
  revert draws h. induction layers as [|layer rest IH]; intros draws h.
  - reflexivity.
  - cbn [layer_outputs length]. now rewrite IH.
Qed.

Lemma encoder_loop_outputs layers draws h m (flag : bool) all :
  encoder_loop layers draws h m flag all =
  (last (layer_outputs layers draws h m) h,
   if flag then (all ++ layer_outputs layers draws h m)%list else all).
Proof.
  revert draws h all. induction layers as [|layer rest IH]; intros draws h all.
  - cbn [encoder_loop layer_outputs last]. destruct flag;
      [now rewrite app_nil_r|reflexivity].
  - cbn [encoder_loop layer_outputs]. rewrite IH, last_cons.
    destruct flag; [|reflexivity].
    now rewrite <- app_assoc.
Qed.

Lemma BertEncoder_forward_all layers draws h m :
  BertEncoder_forward layers draws h m true = layer_outputs layers draws h m.
Proof. unfold BertEncoder_forward. now rewrite encoder_loop_outputs. Qed.

Lemma BertEncoder_forward_last layers draws h m :
  BertEncoder_forward layers draws h m false =
  [last (layer_outputs layers draws h m) h].
Proof. unfold BertEncoder_forward. now rewrite encoder_loop_outputs. Qed.

(** With [output_all_encoded_layers] the encoder returns one tensor for
    every layer; without it, a list of one tensor: the last of these, or the
    hidden states it was given when it has no layer. *)
Theorem BertEncoder_forward_outputs (layers : list BertLayer)
  (draws : list layer_draws) (hidden_states : tensor3)
  (attention_mask : tensor4) :
  length (BertEncoder_forward layers draws hidden_states attention_mask true) =
    length layers
  /\
  BertEncoder_forward layers draws hidden_states attention_mask false =
    [last (BertEncoder_forward layers draws hidden_states attention_mask true)
       hidden_states].
Proof.
  rewrite BertEncoder_forward_all, BertEncoder_forward_last.
  split; [apply layer_outputs_length|reflexivity].
Qed.

(** ** [BertModel] *)

Lemma last_layer_last (l : list tensor3) (d : tensor3) :
  l <> [] -> last_layer l = Ok (last l d).
Proof.
  intros Hl. destruct (exists_last Hl) as (l' & x & ->).
  unfold last_layer. rewrite rev_unit, last_last. reflexivity.
Qed.

(** What [BertModel.forward] returns without [output_all_encoded_layers],
    from what it returns with it. *)
Definition only_last_layer (r : encoded * tensor2) : result (encoded * tensor2) :=
  match r with
  | (AllLayers encoded_layers, pooled_output) =>
      sequence_output <- last_layer encoded_layers ;;
      Ok (LastLayer sequence_output, pooled_output)
  | (LastLayer sequence_output, pooled_output) =>
      Ok (LastLayer sequence_output, pooled_output)
  end.

(** For a model with at least one layer, [output_all_encoded_layers]
    changes the form of the result only: without it the model returns (or
    raises) what it returns (or raises) with it, with the last of the encoded
    layers in place of their list, and the same pooled output.  The list
    has one entry for every layer. *)
Theorem BertModel_forward_last_of_all_layers (self : BertModel)
  (draws : model_draws) (input_ids : list (list nat))
  (token_type_ids : option (list (list nat)))
  (attention_mask : option (list (list Z))) :
  encoder self <> [] ->
  BertModel_forward self draws input_ids token_type_ids attention_mask false =
    (r <- BertModel_forward self draws input_ids token_type_ids
            attention_mask true ;;
     only_last_layer r)
  /\
  (forall encoded_layers pooled_output,
     BertModel_forward self draws input_ids token_type_ids attention_mask
       true = Ok (AllLayers encoded_layers, pooled_output) ->
     length encoded_layers = length (encoder self)).
Proof.
  intros Hlayers. unfold BertModel_forward.
  destruct (BertEmbeddings_forward (embeddings self) (keep_embeddings draws)
              input_ids _) as [emb|e]; cbn [bind]; [|split; [reflexivity|]].
  - rewrite BertEncoder_forward_all, BertEncoder_forward_last.
    set (m := map _ (map _ _)).
    set (outs := layer_outputs (encoder self) (keep_layers draws) emb m).
    assert (Houts : outs <> []).
    { intros H. apply Hlayers. apply length_zero_iff_nil.
      rewrite <- (layer_outputs_length (encoder self) (keep_layers draws) emb m).
      fold outs. now rewrite H. }
    rewrite (last_layer_last outs emb Houts).
    cbn [last_layer rev app bind].
    destruct (BertPooler_forward (pooler self) (last outs emb)) as [p|e];
      cbn [bind only_last_layer].
    + rewrite (last_layer_last outs emb Houts). cbn [bind].
      split; [reflexivity|].
      intros ls p' H. injection H as <- _. apply layer_outputs_length.
    + split; [reflexivity|discriminate].
  - discriminate.
Qed.

(** A model of one layer on a hidden size of one. *)
Definition one_layer_bert : BertModel :=
  let norm := mkLayerNorm [1] [0] default_eps in
  let dense := mkLinear [[1]] [0] in
  mkModel
    (mkEmbeddings [[0]; [1]] [[0]] [[0]] norm (1 / 10) false)
    [mkLayer
       (mkAttention
          (SelfAttention.mkSelfAttention 1 1 dense dense dense (1 / 10) false)
          (mkSelfOutput dense norm (1 / 10) false))
       (mkIntermediate dense (map (map (map Activations.relu))))
       (mkOutput dense norm (1 / 10) false)]
    (mkPooler dense).

Example BertModel_forward_last_of_all_layers_witness :
  BertModel_forward one_layer_bert (mkModelDraws [] []) [[1%nat]] None None
    false =
  (r <- BertModel_forward one_layer_bert (mkModelDraws [] []) [[1%nat]] None
          None true ;;
   only_last_layer r).
Proof.
  apply (BertModel_forward_last_of_all_layers one_layer_bert
           (mkModelDraws [] []) [[1%nat]] None None).
  discriminate.
Defined.

(** A model without layers cannot be run with [output_all_encoded_layers]
    (the default): the list of encoded layers is empty and its last entry is
    asked for, which raises [IndexError].  Without the flag the model
    returns the embeddings as its sequence output. *)
Theorem BertModel_forward_without_layers (self : BertModel)
  (draws : model_draws) (input_ids : list (list nat))
  (token_type_ids : option (list (list nat)))
  (attention_mask : option (list (list Z))) (embedding_output : tensor3) :
  encoder self = [] ->
  BertEmbeddings_forward (embeddings self) (keep_embeddings draws) input_ids
    (Some match token_type_ids with
          | Some t => t
          | None => map (map (fun _ => 0%nat)) input_ids
          end) = Ok embedding_output ->
  BertModel_forward self draws input_ids token_type_ids attention_mask true =
    Raise IndexError
  /\
  BertModel_forward self draws input_ids token_type_ids attention_mask false =
    (pooled_output <- BertPooler_forward (pooler self) embedding_output ;;
     Ok (LastLayer embedding_output, pooled_output)).
Proof.
  intros Hlayers Hemb. unfold BertModel_forward.
  rewrite Hemb, Hlayers. cbn [bind].
  rewrite BertEncoder_forward_all, BertEncoder_forward_last.
  cbn [layer_outputs last last_layer rev app bind].
  split; [reflexivity|].
  destruct (BertPooler_forward (pooler self) embedding_output); reflexivity.
Qed.

Definition no_layer_bert : BertModel :=
  mkModel
    (mkEmbeddings [[0]; [1]] [[0]] [[0]] (mkLayerNorm [1] [0] default_eps)
       (1 / 10) false)
    []
    (mkPooler (mkLinear [[1]] [0])).

Example BertModel_forward_without_layers_witness :
  BertModel_forward no_layer_bert (mkModelDraws [] []) [[1%nat]] None None
    true = Raise IndexError.
Proof.
  apply (BertModel_forward_without_layers no_layer_bert (mkModelDraws [] [])
           [[1%nat]] None None
           (LayerNorm.forward3 (mkLayerNorm [1] [0] default_eps)
              (add3 (add3 [[[1]]] [[[0]]]) [[[0]]]))).
  - reflexivity.
  - reflexivity.
Defined.


(** ** [BertPooler] *)

Lemma tanh_bounds (x : R) : -1 < tanh x < 1.
Proof.
  unfold tanh, sinh, cosh.
  pose proof (exp_pos x) as Ha. pose proof (exp_pos (- x)) as Hb.
  set (a := exp x) in *. set (b := exp (- x)) in *.
  assert (E : (a - b) / 2 / ((a + b) / 2) = (a - b) / (a + b))
    by (field; lra).
  rewrite E. split.
  - apply (Rmult_lt_reg_r (a + b)); [lra|].
    unfold Rdiv. rewrite Rmult_assoc, Rinv_l by lra. lra.
  - apply (Rmult_lt_reg_r (a + b)); [lra|].
    unfold Rdiv. rewrite Rmult_assoc, Rinv_l by lra. lra.
Qed.

(** [hidden_states[:, 0]] *)
Definition first_token (X : tensor2) : result tensor1 :=
  match X with
  | t :: _ => Ok t
  | [] => Raise IndexError
  end.

Lemma first_tokens_Ok (hs : tensor3) (firsts : tensor2) :
  traverse first_token hs = Ok firsts -> firsts = map (hd []) hs.
Proof.
  revert firsts. induction hs as [|X hs IH]; intros firsts H;
    cbn [traverse] in H.
  - now injection H as <-.
  - destruct X as [|t X]; cbn [first_token bind] in H; [discriminate|].
    destruct (traverse first_token hs) as [ys|e]; cbn [bind] in H;
      [|discriminate].
    injection H as <-. cbn [map hd]. now rewrite (IH ys eq_refl).
Qed.



(** ** The attention mask of [BertModel] *)

(** The extended mask of [BertModel.forward] for a mask of integers. *)
Definition extended_mask (attention_mask : list (list Z)) : tensor4 :=
  map (map (map (map (fun m => (1 - m) * - 10000))))
    (map (fun row => [[map IZR row]]) attention_mask).


(** ** The sequences of a batch do not see each other *)

(** Every dropout module of the model is in evaluation mode, and the
    activation of every layer acts entry by entry. *)
Definition model_evaluation_mode (self : BertModel) : Prop :=
  emb_training (embeddings self) = false /\
  Forall (fun layer =>
            evaluation_mode layer /\
            EncoderLayerFacts.entrywise
              (intermediate_act_fn (intermediate layer)))
    (encoder self).

Lemma bnth_nth {A} (b : nat) (l : list A) (d : A) :
  (b < length l)%nat -> bnth b l d = nth b l d.
Proof.
  unfold bnth. destruct l as [|x [|y l]]; cbn [length]; intros Hb;
    try reflexivity.
  destruct b; [reflexivity|lia].
Qed.

Lemma singleton_nth {A} (l : list A) (d : A) :
  length l = 1%nat -> l = [nth 0 l d].
Proof. destruct l as [|x [|y l]]; cbn; intros H; try discriminate; auto. Qed.

Lemma traverse_nth {A B} (f : A -> result B) (l : list A) (ys : list B)
  (d : A) (d' : B) (b : nat) :
  traverse f l = Ok ys ->
  length ys = length l /\
  ((b < length l)%nat -> f (nth b l d) = Ok (nth b ys d')).
Proof.
  revert ys b. induction l as [|x l IH]; intros ys b H; cbn [traverse] in H.
  - injection H as <-. split; [reflexivity|]. cbn. lia.
  - destruct (f x) as [y|e] eqn:Hx; cbn [bind] in H; [|discriminate].
    destruct (traverse f l) as [ys'|e] eqn:Hl; cbn [bind] in H;
      [|discriminate].
    injection H as <-. destruct b as [|b].
    + destruct (IH ys' 0%nat eq_refl) as [Hlen _].
      cbn [length nth]. split; [now rewrite Hlen|auto].
    + destruct (IH ys' b eq_refl) as [Hlen Hb].
      cbn [length nth]. split; [now rewrite Hlen|]. intros Hlt.
      apply Hb. lia.
Qed.

Lemma layer_outputs_batchwise (layers : list BertLayer) :
  forall (draws : list layer_draws) (hs : tensor3) (mask : tensor4) (b : nat),
    Forall (fun layer =>
              evaluation_mode layer /\
              EncoderLayerFacts.entrywise
                (intermediate_act_fn (intermediate layer))) layers ->
    length mask = 1%nat \/ length mask = length hs ->
    (b < length hs)%nat ->
    length (last (layer_outputs layers draws hs mask) hs) = length hs /\
    nth b (last (layer_outputs layers draws hs mask) hs) [] =
    nth 0 (last (layer_outputs layers draws [nth b hs []]
                   [bnth b mask []]) [nth b hs []]) [].
Proof.
  induction layers as [|layer rest IH]; intros draws hs mask b Hall Hmask Hb.
  - cbn [layer_outputs last nth]. auto.
  - inversion Hall as [|? ? [Heval Hact] Hrest]; subst.
    cbn [layer_outputs]. rewrite !last_cons.
    pose proof (EncoderLayerFacts.BertLayer_forward_batchwise layer
                  (hd no_draws draws) hs mask Heval Hact Hmask) as Hbatch.
    pose proof (EncoderLayerFacts.BertLayer_forward_batchwise layer
                  (hd no_draws draws) [nth b hs []] [bnth b mask []]
                  Heval Hact (or_introl eq_refl)) as Hone.
    cbn [length tabulate seq map nth bnth] in Hone.
    remember (BertLayer_forward layer (hd no_draws draws) hs mask) as h1
      eqn:Hh1.
    assert (Hlen1 : length h1 = length hs)
      by (rewrite Hbatch; apply tabulate_length).
    assert (Hnth1 : nth b h1 [] =
                    EncoderLayerFacts.sequence_forward layer (nth b hs [])
                      (bnth b mask []))
      by (rewrite Hbatch, tabulate_nth by exact Hb; reflexivity).
    rewrite Hone, <- Hnth1.
    destruct (IH (tl draws) h1 mask b Hrest) as [Hlen Hnth];
      [rewrite Hlen1; exact Hmask|lia|].
    split; [now rewrite Hlen|exact Hnth].
Qed.

Lemma Embedding_forward_row (weight : tensor2) (ids : list (list nat))
  (out : tensor3) (b : nat) :
  Embedding_forward weight ids = Ok out ->
  length out = length ids /\
  ((b < length ids)%nat ->
   Embedding_forward weight [nth b ids []] = Ok [nth b out []]).
Proof.
  unfold Embedding_forward. intros H.
  destruct (traverse_nth _ ids out [] [] b H) as [Hlen Hb].
  split; [exact Hlen|]. intros Hlt. cbn [traverse].
  rewrite (Hb Hlt). reflexivity.
Qed.

Lemma BertEmbeddings_forward_row (self : BertEmbeddings) (keep : keep_mask3)
  (input_ids token_type_ids : list (list nat)) (out : tensor3) (b : nat) :
  emb_training self = false ->
  Forall (fun row => length row = dim1 input_ids) input_ids ->
  length token_type_ids = length input_ids ->
  (b < length input_ids)%nat ->
  BertEmbeddings_forward self keep input_ids (Some token_type_ids) = Ok out ->
  length out = length input_ids /\
  BertEmbeddings_forward self keep [nth b input_ids []]
    (Some [nth b token_type_ids []]) = Ok [nth b out []].
Proof.
  intros Htr Hrect Htypes Hb. unfold BertEmbeddings_forward.
  rewrite Htr. unfold Dropout3.
  destruct (Embedding_forward (word_embeddings self) input_ids)
    as [W|e] eqn:HW; cbn [bind]; [|discriminate].
  destruct (Embedding_forward (position_embeddings self)
              (map (fun _ => seq 0 (dim1 input_ids)) input_ids))
    as [P|e] eqn:HP; cbn [bind]; [|discriminate].
  destruct (Embedding_forward (token_type_embeddings self) token_type_ids)
    as [T|e] eqn:HT; cbn [bind]; [|discriminate].
  intros H. injection H as <-.
  destruct (Embedding_forward_row _ _ _ b HW) as [HlW HbW].
  destruct (Embedding_forward_row _ _ _ b HP) as [HlP HbP].
  destruct (Embedding_forward_row _ _ _ b HT) as [HlT HbT].
  rewrite length_map in HlP, HbP.
  assert (Hrow : length (nth b input_ids []) = dim1 input_ids).
  { rewrite Forall_forall in Hrect. apply Hrect. now apply nth_In. }
  rewrite (HbW Hb). cbn [bind].
  assert (Hpos : map (fun _ : list nat => seq 0 (dim1 [nth b input_ids []]))
                   [nth b input_ids []] =
                 [nth b (map (fun _ => seq 0 (dim1 input_ids)) input_ids) []]).
  { cbn [map]. f_equal.
    rewrite (map_nth_in _ input_ids [] []) by exact Hb.
    unfold dim1 at 1. cbn [hd]. now rewrite Hrow. }
  rewrite Hpos, (HbP Hb). cbn [bind].
  rewrite HbT by lia. cbn [bind].
  set (n := length input_ids) in *.
  rewrite (tabulate_self W []), (tabulate_self P []), (tabulate_self T []).
  rewrite HlW, HlP, HlT, Htypes. fold n.
  rewrite !EncoderLayerFacts.add3_tabulate.
  unfold LayerNorm.forward3. rewrite map_tabulate.
  rewrite tabulate_length. split; [reflexivity|].
  rewrite !tabulate_nth by exact Hb. reflexivity.
Qed.

Lemma BertPooler_forward_closed_form (self : BertPooler)
  (hidden_states : tensor3) (pooled_output : tensor2) :
  BertPooler_forward self hidden_states = Ok pooled_output ->
  pooled_output =
    map (fun X => map tanh (Linear_forward1 (pool_dense self) (hd [] X)))
      hidden_states
  /\ Forall (fun X => X <> []) hidden_states.
Proof.
  unfold BertPooler_forward.
  change (fun X : tensor2 =>
            match X with
            | t :: _ => Ok t
            | [] => Raise IndexError
            end) with first_token.
  intros Hp.
  destruct (traverse first_token hidden_states) as [firsts|e] eqn:Ht;
    cbn [bind] in Hp; [|discriminate].
  injection Hp as <-. split.
  - apply first_tokens_Ok in Ht. subst firsts.
    unfold Linear_forward2. now rewrite !map_map.
  - assert (Hall : Forall (fun X => exists y, first_token X = Ok y)
                     hidden_states)
      by (apply traverse_Ok_iff; eauto).
    revert Hall. apply Forall_impl. intros X [y Hy] ->. discriminate Hy.
Qed.

Lemma BertPooler_forward_row (self : BertPooler) (hidden_states : tensor3)
  (pooled_output : tensor2) (b : nat) :
  (b < length hidden_states)%nat ->
  BertPooler_forward self hidden_states = Ok pooled_output ->
  BertPooler_forward self [nth b hidden_states []] =
  Ok [nth b pooled_output []].
Proof.
  intros Hb H.
  destruct (BertPooler_forward_closed_form self hidden_states pooled_output H)
    as [Hp Hfirst].
  subst pooled_output.
  rewrite Forall_forall in Hfirst.
  specialize (Hfirst (nth b hidden_states []) (nth_In _ _ Hb)).
  destruct (nth b hidden_states []) as [|t X] eqn:HX; [congruence|].
  transitivity
    (@Ok tensor2 [map tanh (Linear_forward1 (pool_dense self) (hd [] (t :: X)))]);
    [reflexivity|].
  do 2 f_equal. rewrite <- HX. symmetry.
  now apply (map_nth_in
               (fun X => map tanh (Linear_forward1 (pool_dense self) (hd [] X)))).
Qed.


Lemma extended_mask_row (attention_mask : list (list Z)) (b : nat) :
  (b < length attention_mask)%nat ->
  extended_mask [nth b attention_mask []] =
  [bnth b (extended_mask attention_mask) []].
Proof.
  intros Hb. rewrite bnth_nth
    by (unfold extended_mask; now rewrite !length_map).
  unfold extended_mask. cbn [map]. f_equal. symmetry.
  etransitivity;
    [apply (map_nth_in (map (map (map (fun m => (1 - m) * - 10000)))) _ []);
     now rewrite length_map|].
  match goal with
  | |- map _ ?t = _ =>
      assert (Ht : t = [[map IZR (nth b attention_mask [])]])
        by (now apply (map_nth_in (fun row : list Z => [[map IZR row]])));
      rewrite Ht
  end.
  reflexivity.
Qed.

(** In evaluation mode, with activations that act entry by entry, the
    model treats every sequence of a batch by itself (over the real
    numbers): what it returns for sequence [b] of a batch is what it
    returns for that sequence alone, with its token types and its mask. *)
Theorem BertModel_forward_per_sequence (self : BertModel)
  (draws : model_draws) (input_ids token_type_ids : list (list nat))
  (attention_mask : list (list Z)) (sequence_output : tensor3)
  (pooled_output : tensor2) (b : nat) :
  model_evaluation_mode self ->
  Forall (fun row => length row = dim1 input_ids) input_ids ->
  length token_type_ids = length input_ids ->
  length attention_mask = length input_ids ->
  (b < length input_ids)%nat ->
  BertModel_forward self draws input_ids (Some token_type_ids)
    (Some attention_mask) false =
    Ok (LastLayer sequence_output, pooled_output) ->
  BertModel_forward self draws [nth b input_ids []]
    (Some [nth b token_type_ids []]) (Some [nth b attention_mask []]) false =
    Ok (LastLayer [nth b sequence_output []], [nth b pooled_output []]).
Proof.
  intros [Hemb Hlayers] Hrect Htypes Hmask Hb. unfold BertModel_forward.
  fold (extended_mask attention_mask).
  fold (extended_mask [nth b attention_mask []]).
  destruct (BertEmbeddings_forward (embeddings self) (keep_embeddings draws)
              input_ids (Some token_type_ids)) as [E|e] eqn:HE;
    cbn [bind]; [|discriminate].
  destruct (BertEmbeddings_forward_row (embeddings self)
              (keep_embeddings draws) input_ids token_type_ids E b
              Hemb Hrect Htypes Hb HE) as [HlenE Hrow].
  rewrite Hrow. cbn [bind].
  rewrite !BertEncoder_forward_last. cbn [last_layer rev app bind].
  rewrite (extended_mask_row attention_mask b) by lia.
  set (M := extended_mask attention_mask).
  assert (HlenM : length M = length E).
  { unfold M, extended_mask. rewrite !length_map. lia. }
  destruct (layer_outputs_batchwise (encoder self) (keep_layers draws) E M b
              Hlayers (or_intror HlenM)) as [Hlen Hnth]; [lia|].
  destruct (layer_outputs_batchwise (encoder self) (keep_layers draws)
              [nth b E []] [bnth b M []] 0 Hlayers (or_introl eq_refl))
    as [Hlen1 _]; [cbn; lia|].
  assert (Hone :
    last (layer_outputs (encoder self) (keep_layers draws) [nth b E []]
            [bnth b M []]) [nth b E []] =
    [nth b (last (layer_outputs (encoder self) (keep_layers draws) E M) E) []]).
  { rewrite Hnth. apply singleton_nth. exact Hlen1. }
  rewrite Hone.
  destruct (BertPooler_forward (pooler self)
              (last (layer_outputs (encoder self) (keep_layers draws) E M) E))
    as [p|e] eqn:HP; cbn [bind]; [|discriminate].
  intros H. injection H as <- <-.
  rewrite (BertPooler_forward_row (pooler self) _ p b) by (assumption || lia).
  reflexivity.
Qed.

(** A batch of two sequences of one token for [one_layer_bert], and what
    the model returns for it. *)
Definition sample_input_ids : list (list nat) := [[1]; [0]]%nat.
Definition sample_token_type_ids : list (list nat) := [[0]; [0]]%nat.
Definition sample_attention_mask : list (list Z) := [[1]; [1]]%Z.

Definition sample_batch_result : result (encoded * tensor2) :=
  BertModel_forward one_layer_bert (mkModelDraws [] []) sample_input_ids
    (Some sample_token_type_ids) (Some sample_attention_mask) false.

Definition sample_sequence_output : tensor3 :=
  match sample_batch_result with
  | Ok (LastLayer sequence_output, _) => sequence_output
  | _ => []
  end.

Definition sample_pooled_output : tensor2 :=
  match sample_batch_result with
  | Ok (_, pooled_output) => pooled_output
  | _ => []
  end.

Lemma one_layer_bert_evaluation_mode : model_evaluation_mode one_layer_bert.
Proof.
  split; [reflexivity|]. constructor; [|constructor].
  split; [repeat split|]. exists Activations.relu. reflexivity.
Qed.

Example BertModel_forward_per_sequence_witness :
  BertModel_forward one_layer_bert (mkModelDraws [] [])
    [nth 1 sample_input_ids []] (Some [nth 1 sample_token_type_ids []])
    (Some [nth 1 sample_attention_mask []]) false =
  Ok (LastLayer [nth 1 sample_sequence_output []],
      [nth 1 sample_pooled_output []]).
Proof.
  apply (BertModel_forward_per_sequence one_layer_bert (mkModelDraws [] [])
           sample_input_ids sample_token_type_ids sample_attention_mask).
  - exact one_layer_bert_evaluation_mode.
  - repeat constructor.
  - reflexivity.
  - reflexivity.
  - simpl. lia.
  - reflexivity.
Defined.


End ModelFacts.

(* ================================================================== *)
(** * Task heads on top of [BertModel] *)
(* ================================================================== *)

Module Heads.

Import Model EncoderLayer.
Local Open Scope R_scope.
Local Open Scope exc_scope.

(** The value of a loss: a number, or [nan], which the mean of no entries
    is. *)
Inductive loss_value :=
| Finite (value : R)
| NaN.

(** [t.mean()] of the entries [terms]. *)
Definition mean_loss (terms : tensor1) : loss_value :=
  match terms with
  | [] => NaN
  | _ :: _ => Finite (mean terms)
  end.

(** Minus the logarithm of the softmax probability of [label] in [row]; a
    label that is not the index of a class raises [IndexError]. *)
Definition nll (row : tensor1) (label : nat) : result R :=
  match nth_error (softmax row) label with
  | Some p => Ok (- ln p)
  | None => Raise IndexError
  end.

(** [CrossEntropyLoss()(input, target)] for labels that are indices (the
    negative [ignore_index] is not among them): the two batch sizes are
    compared, then the mean of [nll] over the rows is taken. *)
Definition CrossEntropyLoss (logits : tensor2) (labels : list nat)
  : result loss_value :=
  if (length logits =? length labels)%nat
  then terms <-
         traverse (fun '(row, label) => nll row label)
           (combine logits labels) ;;
       Ok (mean_loss terms)
  else Raise (ValueError "Expected input batch_size to match target batch_size").

(** [MSELoss()(input, target)] for an input and a target of one shape: the
    mean of the squared differences of all entries. *)
Definition MSELoss (input target : tensor2) : loss_value :=
  mean_loss (concat (zip_with (zip_with (fun a b => (a - b) ^ 2)) input target)).

(** [t.view(-1, k)] of a tensor with three axes. *)
Definition view_rows (k : nat) (t : tensor3) : result tensor2 :=
  let flat := concat (concat t) in
  match k with
  | O => Raise RuntimeError
  | S _ =>
      if (length flat mod k =? 0)%nat
      then Ok (SelfAttention.view_heads (length flat / k) k flat)
      else Raise RuntimeError
  end.

Inductive output :=
| Loss (loss : loss_value)
| Logits2 (logits : tensor2)
| Logits3 (logits : tensor3)
| LossAndLogits (loss : loss_value) (logits : tensor2).

Record head_draws := mkHeadDraws {
  keep_model : model_draws;
  keep_pooled : list (list bool);
  keep_sequence : keep_mask3
}.

(** ** [BertForSequenceClassification] *)

Record BertForSequenceClassification := mkSequenceClassification {
  sc_bert : BertModel;
  sc_dropout_prob : R;
  sc_classifier : Linear;
  sc_num_labels : nat;
  sc_training : bool
}.

Definition BertForSequenceClassification_forward
  (self : BertForSequenceClassification) (draws : head_draws)
  (input_ids : list (list nat)) (token_type_ids : option (list (list nat)))
  (attention_mask : option (list (list Z))) (labels : option (list nat))
  : result output :=
  '(_, pooled_output) <-
    BertModel_forward (sc_bert self) (keep_model draws) input_ids
      token_type_ids attention_mask false ;;
  let pooled_output :=
    Dropout2 (sc_training self) (sc_dropout_prob self) (keep_pooled draws)
      pooled_output in
  let logits := Linear_forward2 (sc_classifier self) pooled_output in
  match labels with
  | Some labels =>
      rows <- view_rows (sc_num_labels self) [logits] ;;
      loss <- CrossEntropyLoss rows labels ;;
      Ok (Loss loss)
  | None => Ok (Logits2 logits)
  end.

(** ** [BertForTokenClassification] *)

Record BertForTokenClassification := mkTokenClassification {
  tc_bert : BertModel;
  tc_dropout_prob : R;
  tc_classifier : Linear;
  tc_num_labels : nat;
  tc_training : bool
}.

(** The rows of [x] whose mask entry is one. *)
Fixpoint select_active {A : Type} (active : list Z) (x : list A) : list A :=
  match active, x with
  | m :: active', v :: x' =>
      if (m =? 1)%Z then v :: select_active active' x'
      else select_active active' x'
  | _, _ => []
  end.

(** [x[active_loss]] for a mask of booleans: the mask has one entry for
    every row of [x], or the indexing raises [IndexError]. *)
Definition index_by_mask {A : Type} (active : list Z) (x : list A)
  : result (list A) :=
  if (length active =? length x)%nat then Ok (select_active active x)
  else Raise IndexError.

Definition sequence_of (e : encoded) : result tensor3 :=
  match e with
  | LastLayer s => Ok s
  | AllLayers _ => Raise TypeError
  end.

Definition BertForTokenClassification_forward
  (self : BertForTokenClassification) (draws : head_draws)
  (input_ids : list (list nat)) (token_type_ids : option (list (list nat)))
  (attention_mask : option (list (list Z)))
  (labels : option (list (list nat))) : result output :=
  '(sequence_output, _) <-
    BertModel_forward (tc_bert self) (keep_model draws) input_ids
      token_type_ids attention_mask false ;;
  sequence_output <- sequence_of sequence_output ;;
  let sequence_output :=
    Dropout3 (tc_training self) (tc_dropout_prob self) (keep_sequence draws)
      sequence_output in
  let logits := Linear_forward3 (tc_classifier self) sequence_output in
  match labels with
  | Some labels =>
      match attention_mask with
      | Some attention_mask =>
          let active_loss := concat attention_mask in
          rows <- view_rows (tc_num_labels self) logits ;;
          active_logits <- index_by_mask active_loss rows ;;
          active_labels <- index_by_mask active_loss (concat labels) ;;
          loss <- CrossEntropyLoss active_logits active_labels ;;
          Ok (Loss loss)
      | None =>
          rows <- view_rows (tc_num_labels self) logits ;;
          loss <- CrossEntropyLoss rows (concat labels) ;;
          Ok (Loss loss)
      end
  | None => Ok (Logits3 logits)
  end.

(** ** [BertForSimpleRelationExtraction] *)

Record BertForSimpleRelationExtraction := mkSimpleRelationExtraction {
  re_bert : BertModel;
  re_dropout_prob : R;
  re_classifier : Linear;
  re_rel_dim : nat;
  re_training : bool
}.

(** The dropout module is applied to the pooled output, but its result is
    not used: the classifier reads [pooled_output] itself. *)
Definition BertForSimpleRelationExtraction_forward
  (self : BertForSimpleRelationExtraction) (draws : head_draws)
  (input_ids : list (list nat)) (token_type_ids : option (list (list nat)))
  (attention_mask : option (list (list Z))) (kb_rel : tensor2)
  : result output :=
  '(sequence_output, pooled_output) <-
    BertModel_forward (re_bert self) (keep_model draws) input_ids
      token_type_ids attention_mask false ;;
  let sequence_output :=
    Dropout2 (re_training self) (re_dropout_prob self) (keep_pooled draws)
      pooled_output in
  let logits := Linear_forward2 (re_classifier self) pooled_output in
  reshaped_logits <- view_rows (re_rel_dim self) [logits] ;;
  Ok (Loss (MSELoss reshaped_logits kb_rel)).

(** ** [BertForSimpleRelationExtraction_allwords] *)

Record BertForSimpleRelationExtraction_allwords := mkAllWords {
  aw_bert : BertModel;
  aw_dropout_prob : R;
  aw_encode_1 : Linear;
  aw_encode_2 : Linear;
  aw_rel_dim : nat;
  aw_max_tok : nat;
  aw_training : bool
}.

Definition BertForSimpleRelationExtraction_allwords_forward
  (self : BertForSimpleRelationExtraction_allwords) (draws : head_draws)
  (input_ids : list (list nat)) (token_type_ids : option (list (list nat)))
  (attention_mask : option (list (list Z))) (kb_rel : tensor2)
  : result output :=
  '(sequence_output, _) <-
    BertModel_forward (aw_bert self) (keep_model draws) input_ids
      token_type_ids attention_mask false ;;
  sequence_output <- sequence_of sequence_output ;;
  let sequence_output :=
    Dropout3 (aw_training self) (aw_dropout_prob self) (keep_sequence draws)
      sequence_output in
  let logits := Linear_forward3 (aw_encode_1 self) sequence_output in
  reshaped_logits <-
    view_rows (aw_rel_dim self * aw_max_tok self) logits ;;
  let logits_200 := Linear_forward2 (aw_encode_2 self) reshaped_logits in
  Ok (LossAndLogits (MSELoss logits_200 kb_rel) logits_200).

End Heads.

Module HeadsFacts.

Import LayerNorm Model EncoderLayer EncoderLayerFacts Heads.
Local Open Scope R_scope.
Local Open Scope exc_scope.

(** ** What a head reads *)

(** The result of [head] is a function of the pooled output of the model
    under it: whatever the head computes, it computes from [pooled_output],
    so that two inputs with one pooled output have one result. *)
Definition function_of_pooled_output (bert : BertModel) (draws : model_draws)
  (token_type_ids : option (list (list nat)))
  (attention_mask : option (list (list Z)))
  (head : list (list nat) -> result output) : Prop :=
  exists g : tensor2 -> result output,
    forall input_ids,
      head input_ids =
      ('(_, pooled_output) <-
         BertModel_forward bert draws input_ids token_type_ids
           attention_mask false ;;
       g pooled_output).

(** The model with another pooler. *)
Definition with_pooler (bert : BertModel) (pooler' : BertPooler) : BertModel :=
  mkModel (embeddings bert) (encoder bert) pooler'.

(** Two linear layers with weights and biases of the same sizes. *)
Definition same_sizes (l l' : Linear) : Prop :=
  map (@length R) (weight l) = map (@length R) (weight l') /\
  length (bias l) = length (bias l').

(** The first result of [BertModel.forward] does not depend on the
    pooler. *)
Lemma sequence_output_with_pooler (bert : BertModel) (pooler' : BertPooler)
  (draws : model_draws) input_ids token_type_ids attention_mask
  (B : Type) (k : encoded -> result B) :
  ('(encoded_layers, _) <-
     BertModel_forward (with_pooler bert pooler') draws input_ids
       token_type_ids attention_mask false ;;
   k encoded_layers) =
  ('(encoded_layers, _) <-
     BertModel_forward bert draws input_ids token_type_ids attention_mask
       false ;;
   k encoded_layers).
Proof.
  unfold BertModel_forward, with_pooler.
  cbn [embeddings encoder pooler].
  destruct (BertEmbeddings_forward _ _ _ _) as [embedding_output|e];
    cbn [bind]; [|reflexivity].
  destruct (last_layer _) as [sequence_output|e]; cbn [bind]; [|reflexivity].
  unfold BertPooler_forward.
  destruct (traverse _ sequence_output) as [first_token_tensor|e];
    reflexivity.
Qed.

(** ** A model without encoder layers *)

Definition tiny_bert : BertModel :=
  mkModel
    (mkEmbeddings [[0; 0]; [1; 0]] [[0; 0]] [[0; 0]] unit_norm (1 / 10) false)
    []
    (mkPooler zero2).

Definition tiny_token_classifier : BertForTokenClassification :=
  mkTokenClassification tiny_bert (1 / 10) (mkLinear [[1; 0]] [0]) 1 false.

Definition tiny_allwords : BertForSimpleRelationExtraction_allwords :=
  mkAllWords tiny_bert (1 / 10) (mkLinear [[1; 0]] [0]) (mkLinear [[1]] [0])
    1 1 false.

Definition no_head_draws : head_draws :=
  mkHeadDraws (mkModelDraws [] []) [] [].

Lemma tiny_bert_forward (id : nat) (row : tensor1) :
  nth_error [[0; 0]; [1; 0]] id = Some row ->
  BertModel_forward tiny_bert (mkModelDraws [] []) [[id]] None None false =
  Ok (LastLayer (LayerNorm.forward3 unit_norm [[row]]), [[tanh 0; tanh 0]]).
Proof.
  intros Hrow.
  assert (Hrow2 : exists a b, row = [a; b]).
  { destruct id as [|[|id]]; simpl in Hrow;
      [injection Hrow as <- | injection Hrow as <- | destruct id; discriminate];
      do 2 eexists; reflexivity. }
  destruct Hrow2 as (a & b & ->).
  unfold BertModel_forward, BertEmbeddings_forward, Embedding_forward.
  cbn [tiny_bert embeddings word_embeddings position_embeddings
         token_type_embeddings emb_LayerNorm emb_training emb_dropout_prob
         encoder pooler keep_embeddings keep_layers map dim1 hd length seq
         traverse bind].
  change (@nth_error tensor1 [[0; 0]; [1; 0]] id) with
         (@nth_error (list R) [[0; 0]; [1; 0]] id).
  rewrite Hrow. cbn [bind nth_error].
  match goal with
  | |- context [forward3 unit_norm ?t] =>
      assert (Hadd : t = [[[a; b]]]) by (simpl; entries; arith);
      rewrite Hadd
  end.
  unfold Dropout3.
  unfold BertEncoder_forward. cbn [encoder_loop app last_layer rev bind].
  unfold BertPooler_forward.
  unfold forward3, forward2. cbn [map traverse bind].
  f_equal. f_equal.
  unfold Linear_forward2. cbn [map pool_dense zero2 Linear_forward1 weight bias
    zip_with].
  entries; f_equal; arith.
Qed.

Lemma tiny_token_classifier_forward (id : nat) (row : tensor1) :
  nth_error [[0; 0]; [1; 0]] id = Some row ->
  BertForTokenClassification_forward tiny_token_classifier no_head_draws
    [[id]] None None None =
  Ok (Logits3 (Linear_forward3 (mkLinear [[1; 0]] [0])
                 (LayerNorm.forward3 unit_norm [[row]]))).
Proof.
  intros Hrow. unfold BertForTokenClassification_forward.
  cbn [tiny_token_classifier tc_bert tc_training tc_dropout_prob tc_classifier
         no_head_draws keep_model keep_sequence].
  rewrite (tiny_bert_forward id row Hrow). reflexivity.
Qed.

(** On [tiny_bert] the inputs [[0]] and [[1]] have the same pooled output
    and different logits in [BertForTokenClassification]. *)
Lemma tiny_token_classifier_separates (g : tensor2 -> result output) :
  ~ (forall input_ids,
       BertForTokenClassification_forward tiny_token_classifier
         no_head_draws input_ids None None None =
       ('(_, pooled_output) <-
          BertModel_forward tiny_bert (mkModelDraws [] []) input_ids
            None None false ;;
        g pooled_output)).
Proof.
  intros Hg.
  pose proof (Hg [[0%nat]]) as H0. pose proof (Hg [[1%nat]]) as H1.
  rewrite (tiny_bert_forward 0 [0; 0] eq_refl) in H0.
  rewrite (tiny_bert_forward 1 [1; 0] eq_refl) in H1.
  cbn [bind] in H0, H1. rewrite <- H1 in H0. clear H1 Hg.
  rewrite (tiny_token_classifier_forward 0 [0; 0] eq_refl) in H0.
  rewrite (tiny_token_classifier_forward 1 [1; 0] eq_refl) in H0.
  destruct unit_norm_one_zero as (c & c' & Hc & Hpos).
  match type of H0 with
  | Ok (Logits3 (Linear_forward3 _ ?x)) = Ok (Logits3 (Linear_forward3 _ ?y)) =>
      assert (E0 : x = [[[0; 0]]]) by exact unit_norm_zero;
      assert (E1 : y = [[[c; c']]]) by exact Hc;
      rewrite E0, E1 in H0
  end.
  injection H0 as H0. revert H0. unfold dot, sum. simpl. intros H0. lra.
Qed.

Lemma tiny_allwords_forward (id : nat) (row : tensor1) (a b : R) :
  nth_error [[0; 0]; [1; 0]] id = Some row ->
  LayerNorm.forward3 unit_norm [[row]] = [[[a; b]]] ->
  exists loss,
    BertForSimpleRelationExtraction_allwords_forward tiny_allwords
      no_head_draws [[id]] None None [[0]] =
    Ok (LossAndLogits loss [[dot [dot [a; b] [1; 0] + 0] [1] + 0]]).
Proof.
  intros Hrow Hnorm.
  unfold BertForSimpleRelationExtraction_allwords_forward.
  cbn [tiny_allwords aw_bert aw_training aw_dropout_prob aw_encode_1
         aw_encode_2 aw_rel_dim aw_max_tok no_head_draws keep_model
         keep_sequence].
  rewrite (tiny_bert_forward id row Hrow). cbn [bind sequence_of].
  unfold Dropout3. rewrite Hnorm.
  eexists. reflexivity.
Qed.

(** The same two inputs have different results in
    [BertForSimpleRelationExtraction_allwords]. *)
Lemma tiny_allwords_separates (g : tensor2 -> result output) :
  ~ (forall input_ids,
       BertForSimpleRelationExtraction_allwords_forward tiny_allwords
         no_head_draws input_ids None None [[0]] =
       ('(_, pooled_output) <-
          BertModel_forward tiny_bert (mkModelDraws [] []) input_ids
            None None false ;;
        g pooled_output)).
Proof.
  intros Hg.
  pose proof (Hg [[0%nat]]) as H0. pose proof (Hg [[1%nat]]) as H1.
  rewrite (tiny_bert_forward 0 [0; 0] eq_refl) in H0.
  rewrite (tiny_bert_forward 1 [1; 0] eq_refl) in H1.
  cbn [bind] in H0, H1. rewrite <- H1 in H0. clear H1 Hg.
  destruct unit_norm_one_zero as (c & c' & Hc & Hpos).
  destruct (tiny_allwords_forward 0 [0; 0] 0 0 eq_refl unit_norm_zero)
    as [loss0 E0].
  destruct (tiny_allwords_forward 1 [1; 0] c c' eq_refl Hc) as [loss1 E1].
  rewrite E0, E1 in H0.
  injection H0 as _ H0. revert H0. unfold dot, sum. simpl. intros H0. lra.
Qed.



Definition tiny_sequence_classifier : BertForSequenceClassification :=
  mkSequenceClassification tiny_bert (1 / 10) (mkLinear [[1; 0]] [0]) 1 false.


(** ** The loss of [BertForTokenClassification] under an attention mask *)

Lemma select_active_ext {A} (d : A) (active : list Z) :
  forall x x' : list A,
    length x = length x' ->
    (forall i, nth i active 0%Z = 1%Z -> nth i x d = nth i x' d) ->
    select_active active x = select_active active x'.
Proof.
  induction active as [|m active IH]; intros x x' Hlen Hagree.
  - reflexivity.
  - destruct x as [|v x], x' as [|v' x']; cbn [length] in Hlen;
      try discriminate; [reflexivity|].
    cbn [select_active].
    assert (Hrest : select_active active x = select_active active x').
    { apply IH; [lia|]. intros i Hi. exact (Hagree (S i) Hi). }
    destruct (Z.eqb_spec m 1) as [->|_]; [|exact Hrest].
    rewrite Hrest. f_equal. exact (Hagree 0%nat eq_refl).
Qed.

(** With an attention mask, the loss of [BertForTokenClassification] reads
    the labels of the positions whose mask entry is 1 only: two tensors of
    labels of one shape that agree on these positions give the same
    result, whatever the labels of the other positions are. *)
Theorem token_classification_loss_ignores_masked_labels
  (self : BertForTokenClassification) (draws : head_draws)
  (input_ids : list (list nat)) (token_type_ids : option (list (list nat)))
  (attention_mask : list (list Z)) (labels labels' : list (list nat)) :
  length (concat labels) = length (concat labels') ->
  (forall i, nth i (concat attention_mask) 0%Z = 1%Z ->
     nth i (concat labels) 0%nat = nth i (concat labels') 0%nat) ->
  BertForTokenClassification_forward self draws input_ids token_type_ids
    (Some attention_mask) (Some labels) =
  BertForTokenClassification_forward self draws input_ids token_type_ids
    (Some attention_mask) (Some labels').
Proof.
  intros Hlen Hagree. unfold BertForTokenClassification_forward, index_by_mask.
  now rewrite (select_active_ext 0%nat (concat attention_mask)
                 (concat labels) (concat labels') Hlen Hagree), Hlen.
Qed.

(** Two tokens, two positions and no encoder layer. *)
Definition two_token_bert : BertModel :=
  mkModel
    (mkEmbeddings [[0; 0]; [1; 0]] [[0; 0]; [0; 0]] [[0; 0]] unit_norm
       (1 / 10) false)
    []
    (mkPooler zero2).

Definition two_token_classifier : BertForTokenClassification :=
  mkTokenClassification two_token_bert (1 / 10) (mkLinear [[1; 0]] [0]) 1
    false.

(** The second token is masked; its label 5 names no class, and the loss is
    the loss of the first token alone. *)
Example token_classification_loss_ignores_masked_labels_witness :
  BertForTokenClassification_forward two_token_classifier no_head_draws
    [[1; 0]%nat] None (Some [[1; 0]%Z]) (Some [[0; 5]%nat]) =
  BertForTokenClassification_forward two_token_classifier no_head_draws
    [[1; 0]%nat] None (Some [[1; 0]%Z]) (Some [[0; 0]%nat])
  /\
  exists loss,
    BertForTokenClassification_forward two_token_classifier no_head_draws
      [[1; 0]%nat] None (Some [[1; 0]%Z]) (Some [[0; 0]%nat]) =
    Ok (Loss (Finite loss)).
Proof.
  split.
  - apply (token_classification_loss_ignores_masked_labels
             two_token_classifier no_head_draws [[1; 0]%nat] None [[1; 0]%Z]
             [[0; 5]%nat] [[0; 0]%nat]).
    + reflexivity.
    + intros [|[|i]] Hi; cbn in Hi |- *; try reflexivity; discriminate Hi.
  - eexists. reflexivity.
Defined.

End HeadsFacts.

(* ================================================================== *)
(** * Strings and the two regular expressions of the loader *)
(* ================================================================== *)

Module PyStrings.

Local Open Scope string_scope.

(** [s.split(sep)] for a separator of one character. *)
Fixpoint split (sep : ascii) (s : string) : list string :=
  match s with
  | EmptyString => [EmptyString]
  | String c s' =>
      if Ascii.eqb c sep then EmptyString :: split sep s'
      else match split sep s' with
           | piece :: pieces => String c piece :: pieces
           | [] => [String c EmptyString]
           end
  end.

(** [s[-n:]] *)
Definition last_chars (n : nat) (s : string) : string :=
  substring (String.length s - n)%nat n s.

Definition is_letter (c : ascii) : bool :=
  let n := nat_of_ascii c in
  ((65 <=? n)%nat && (n <=? 90)%nat) || ((97 <=? n)%nat && (n <=? 122)%nat).

Definition is_digit (c : ascii) : bool :=
  let n := nat_of_ascii c in (48 <=? n)%nat && (n <=? 57)%nat.

Fixpoint all_chars (p : ascii -> bool) (s : string) : bool :=
  match s with
  | EmptyString => true
  | String c s' => p c && all_chars p s'
  end.

Definition nonempty (s : string) : bool :=
  match s with
  | EmptyString => false
  | String _ _ => true
  end.

(** The longest prefix of characters satisfying [p], and the rest. *)
Fixpoint span (p : ascii -> bool) (s : string) : string * string :=
  match s with
  | EmptyString => (EmptyString, EmptyString)
  | String c s' =>
      if p c then let '(a, b) := span p s' in (String c a, b)
      else (EmptyString, s)
  end.

(** [re.fullmatch(r'[A-Za-z]+_\d+', s)] on a name of ASCII characters:
    one or more letters, an underscore, one or more digits, and nothing
    else. *)
Definition fullmatch_letters_digits (s : string) : bool :=
  let '(letters, rest) := span is_letter s in
  match rest with
  | String "_" digits =>
      nonempty letters && nonempty digits && all_chars is_digit digits
  | _ => false
  end.

(** [re.split(r'_(\d+)', s)]: the pieces between the matches of an
    underscore followed by digits, with the digits of every match between
    them.  [piece] is the piece being read; [digits] is [Some d] while the
    digits of a match are being read. *)
Fixpoint split_digits_from (piece : string) (digits : option string)
  (s : string) : list string :=
  match s with
  | EmptyString =>
      match digits with
      | Some d => [d; EmptyString]
      | None => [piece]
      end
  | String c s' =>
      let starts_match :=
        match s' with
        | String c' _ => Ascii.eqb c "_" && is_digit c'
        | EmptyString => false
        end in
      match digits with
      | Some d =>
          if is_digit c
          then split_digits_from piece (Some (d ++ String c EmptyString)) s'
          else if starts_match
          then d :: EmptyString :: split_digits_from EmptyString (Some EmptyString) s'
          else d :: split_digits_from (String c EmptyString) None s'
      | None =>
          if starts_match
          then piece :: split_digits_from EmptyString (Some EmptyString) s'
          else split_digits_from (piece ++ String c EmptyString) None s'
      end
  end.

Definition re_split_underscore_digits (s : string) : list string :=
  split_digits_from EmptyString None s.

(** [int(s)] for a string of decimal digits. *)
Definition digit_value (c : ascii) : nat := (nat_of_ascii c - 48)%nat.

Fixpoint int_from (acc : nat) (s : string) : nat :=
  match s with
  | EmptyString => acc
  | String c s' => int_from (10 * acc + digit_value c)%nat s'
  end.

Definition int (s : string) : nat := int_from 0 s.

(** [str(i) == s] for some position [i]: digits without a leading zero. *)
Definition decimal_position (s : string) : option nat :=
  match s with
  | EmptyString => None
  | String "0" (String _ _) => None
  | _ => if all_chars is_digit s then Some (int s) else None
  end.

End PyStrings.

(* ================================================================== *)
(** * Python objects: modules, parameters and arrays *)
(* ================================================================== *)

Module PyObjects.

Import PyStrings.
Local Open Scope R_scope.

(** A numpy array or a tensor: its shape and its entries in row-major
    order. *)
Record ndarray := mkArray {
  shape : list nat;
  data : list R
}.

Definition product (dims : list nat) : nat := fold_right Nat.mul 1%nat dims.

(** The multi-index of the flat position [t] in an array of shape [dims]. *)
Fixpoint unravel (dims : list nat) (t : nat) : list nat :=
  match dims with
  | [] => []
  | _ :: rest =>
      let stride := product rest in
      (t / stride)%nat :: unravel rest (t mod stride)
  end.

(** The flat position of a multi-index. *)
Fixpoint ravel (dims : list nat) (index : list nat) : nat :=
  match dims, index with
  | _ :: rest, i :: index' => (i * product rest + ravel rest index')%nat
  | _, _ => 0%nat
  end.

(** [np.transpose(array)]: the axes in reverse order. *)
Definition np_transpose (a : ndarray) : ndarray :=
  let dims := rev (shape a) in
  mkArray dims
    (map (fun t => nth (ravel (shape a) (rev (unravel dims t))) (data a) 0)
       (seq 0 (length (data a)))).

(** The objects reachable from a model.  The tree of modules does not change
    while a checkpoint is loaded; the value of a parameter lives in a store
    under the parameter's address, so that a parameter shared by two modules
    (tied weights) is one cell. *)
Inductive pyobj :=
| Module (attrs : list (string * pyobj))
| ModuleList (items : list pyobj)
| Param (address : nat)        (* nn.Parameter *)
| TensorView (dims : list nat)   (* a temporary tensor: an indexed row, [t.data], ... *)
| Int (z : Z)
| Float (r : R)
| Object (tag : nat).            (* any other object: None, a method, a torch.Size, ... *)

(** What Python and the tensor library answer for an object that is not a
    module.  A tensor has the attributes of [torch.Tensor] ([data], [T],
    [grad], [real], the methods, ...), a number those of [int] or [float],
    and so on; the table is a parameter of the model and nothing is assumed
    of it.  [attribute pointer dims name] is [getattr(pointer, name)], where
    [dims] is the shape of [pointer] when it is a tensor; [item tag num] is
    [pointer[num]] for the object [Object tag]. *)
Record library := mkLibrary {
  attribute : pyobj -> list nat -> string -> result pyobj;
  item : nat -> nat -> result pyobj
}.

Definition store := nat -> ndarray.

Definition update (s : store) (address : nat) (value : ndarray) : store :=
  fun a => if Nat.eqb a address then value else s a.

Fixpoint assoc (name : string) (attrs : list (string * pyobj))
  : option pyobj :=
  match attrs with
  | [] => None
  | (k, v) :: rest => if String.eqb k name then Some v else assoc name rest
  end.

(** The shape of a tensor; the empty shape for another object. *)
Definition dims_of (s : store) (pointer : pyobj) : list nat :=
  match pointer with
  | Param a => shape (s a)
  | TensorView dims => dims
  | _ => []
  end.

(** [getattr(pointer, name)].  [attrs] holds every attribute of a module
    that a name can reach; the entries of an [nn.ModuleList] are its
    attributes under their decimal positions; the attributes of every other
    object are those of the library. *)
Definition getattr (lib : library) (s : store) (pointer : pyobj)
  (name : string) : result pyobj :=
  match pointer with
  | Module attrs =>
      match assoc name attrs with
      | Some v => Ok v
      | None => Raise (AttributeError name)
      end
  | ModuleList items =>
      match decimal_position name with
      | Some i =>
          match nth_error items i with
          | Some v => Ok v
          | None => Raise (AttributeError name)
          end
      | None => attribute lib pointer [] name
      end
  | _ => attribute lib pointer (dims_of s pointer) name
  end.

(** [t[num]] for a tensor of shape [dims]: an index that does not fit a
    signed 64-bit integer is refused when it is unpacked ([RuntimeError]),
    an index outside the first axis, or any index of a tensor without axes,
    raises [IndexError]; the result is a temporary tensor. *)
Definition tensor_item (dims : list nat) (num : nat) : result pyobj :=
  if (Z.of_nat num <? 2 ^ 63)%Z
  then match dims with
       | d :: rest => if (num <? d)%nat then Ok (TensorView rest)
                      else Raise IndexError
       | [] => Raise IndexError
       end
  else Raise RuntimeError.

(** [pointer[num]] for a non-negative [num]. *)
Definition getitem (lib : library) (s : store) (pointer : pyobj) (num : nat)
  : result pyobj :=
  match pointer with
  | ModuleList items =>
      match nth_error items num with
      | Some v => Ok v
      | None => Raise IndexError
      end
  | Param a => tensor_item (shape (s a)) num
  | TensorView dims => tensor_item dims num
  | Module _ | Int _ | Float _ => Raise TypeError
  | Object tag => item lib tag num
  end.

(** [pointer.shape]: the shape of a tensor; no other object that a name
    reaches has this attribute. *)
Definition shape_of (s : store) (pointer : pyobj) : result (list nat) :=
  match pointer with
  | Param a => Ok (shape (s a))
  | TensorView dims => Ok dims
  | _ => Raise (AttributeError "shape")
  end.

(** [pointer.data = value]: a parameter's cell is overwritten; a temporary
    view is rebound, which leaves the model as it was. *)
Definition set_data (s : store) (pointer : pyobj) (value : ndarray) : store :=
  match pointer with
  | Param a => update s a value
  | _ => s
  end.

End PyObjects.

(* ================================================================== *)
(** * [load_tf_weights_in_bert] *)
(* ================================================================== *)

Module TFLoader.

Import PyStrings PyObjects.
Local Open Scope string_scope.
Local Open Scope exc_scope.

(** ** The checkpoint and the walk along a variable name *)

(** What [tf.train.list_variables] and [tf.train.load_variable] give: the
    variables in order, each with its name and its array. *)
Definition checkpoint := list (string * ndarray).

(** [any(n in ["adam_v", "adam_m"] for n in name)] *)
Definition skipped (name : list string) : bool :=
  existsb (fun n => String.eqb n "adam_v" || String.eqb n "adam_m") name.

(** The list [l] of the loop body. *)
Definition pieces (m_name : string) : list string :=
  if fullmatch_letters_digits m_name
  then re_split_underscore_digits m_name
  else [m_name].

(** The attribute the [if]/[elif] chain on [l[0]] reads. *)
Definition attribute_read (l0 : string) : string :=
  if String.eqb l0 "kernel" || String.eqb l0 "gamma" then "weight"
  else if String.eqb l0 "output_bias" || String.eqb l0 "beta" then "bias"
  else if String.eqb l0 "output_weights" then "weight"
  else l0.

Section Library.

(** The attributes and items of the objects that are not modules. *)
Variable lib : library.

(** One turn of [for m_name in name]. *)
Definition step (s : store) (pointer : pyobj) (m_name : string)
  : result pyobj :=
  let l := pieces m_name in
  pointer <- getattr lib s pointer (attribute_read (hd EmptyString l)) ;;
  match l with
  | _ :: l1 :: _ => getitem lib s pointer (int l1)
  | _ => Ok pointer
  end.

Fixpoint walk (s : store) (pointer : pyobj) (name : list string)
  : result pyobj :=
  match name with
  | [] => Ok pointer
  | m_name :: rest => pointer <- step s pointer m_name ;; walk s pointer rest
  end.

(** [m_name] after the loop: the last component of the name. *)
Definition last_component (name : list string) : string :=
  last name EmptyString.

(** The statements between the loop and the assertion: the pointer moves to
    the weight of an embedding table, or the array of a kernel is
    transposed. *)
Definition adjust (s : store) (pointer : pyobj) (m_name : string)
  (array : ndarray) : result (pyobj * ndarray) :=
  if String.eqb (last_chars 11 m_name) "_embeddings"
  then pointer <- getattr lib s pointer "weight" ;; Ok (pointer, array)
  else if String.eqb m_name "kernel"
  then Ok (pointer, np_transpose array)
  else Ok (pointer, array).

(** The tensor a variable name leads to, and the array as it is compared
    and assigned. *)
Definition resolve (model : pyobj) (s : store) (name : list string)
  (array : ndarray) : result (pyobj * ndarray) :=
  pointer <- walk s model name ;;
  adjust s pointer (last_component name) array.

Definition shape_eqb (a b : list nat) : bool :=
  if list_eq_dec Nat.eq_dec a b then true else false.

(** The body of the loop over the variables for one that is not skipped. *)
Definition load_variable (model : pyobj) (s : store) (name : list string)
  (array : ndarray) : result store :=
  '(pointer, array) <- resolve model s name array ;;
  pointer_shape <- shape_of s pointer ;;
  if shape_eqb pointer_shape (shape array)
  then Ok (set_data s pointer array)
  else Raise (AssertionError [pointer_shape; shape array]).

(** [load_tf_weights_in_bert] from the loop over [zip(names, arrays)] on;
    the model it returns is the one it was given, with the store the loop
    leaves. *)
Fixpoint load_tf_weights_in_bert (model : pyobj) (ckpt : checkpoint)
  (s : store) : result store :=
  match ckpt with
  | [] => Ok s
  | (name, array) :: rest =>
      let name := split "/" name in
      if skipped name then load_tf_weights_in_bert model rest s
      else s <- load_variable model s name array ;;
           load_tf_weights_in_bert model rest s
  end.

End Library.

End TFLoader.

Module TFLoaderFacts.

Import PyStrings PyObjects TFLoader.
Local Open Scope string_scope.
Local Open Scope exc_scope.

(** ** The two regular expressions on a name [letters_digits] *)

Lemma append_assoc (a b c : string) : (a ++ b) ++ c = a ++ (b ++ c).
Proof. induction a as [|x a IH]; simpl; [|rewrite IH]; reflexivity. Qed.

Lemma append_empty_r (a : string) : a ++ EmptyString = a.
Proof. induction a as [|x a IH]; simpl; [|rewrite IH]; reflexivity. Qed.

Lemma letter_not_underscore c : is_letter c = true -> Ascii.eqb c "_" = false.
Proof.
  intros Hc. destruct (Ascii.eqb_spec c "_") as [->|]; [discriminate|reflexivity].
Qed.

Lemma letter_not_digit c : is_letter c = true -> is_digit c = false.
Proof.
  unfold is_letter, is_digit. intros Hc.
  destruct (48 <=? nat_of_ascii c)%nat eqn:H1;
    destruct (nat_of_ascii c <=? 57)%nat eqn:H2; try reflexivity.
  apply Nat.leb_le in H2.
  apply orb_true_iff in Hc. destruct Hc as [Hc|Hc];
    apply andb_true_iff in Hc; destruct Hc as [Hc _];
    apply Nat.leb_le in Hc; lia.
Qed.

Lemma span_letters letters digits :
  all_chars is_letter letters = true ->
  span is_letter (letters ++ String "_" digits) = (letters, String "_" digits).
Proof.
  induction letters as [|c l IH]; intros Hl; simpl in *.
  - reflexivity.
  - apply andb_true_iff in Hl. destruct Hl as [Hc Hl].
    rewrite Hc, (IH Hl). reflexivity.
Qed.

Lemma fullmatch_letters_underscore_digits letters digits :
  nonempty letters = true -> all_chars is_letter letters = true ->
  nonempty digits = true -> all_chars is_digit digits = true ->
  fullmatch_letters_digits (letters ++ String "_" digits) = true.
Proof.
  intros Hn Hl Hm Hd. unfold fullmatch_letters_digits.
  rewrite (span_letters letters digits Hl). now rewrite Hn, Hm, Hd.
Qed.

Lemma split_digits_from_cons piece digits c s' :
  split_digits_from piece digits (String c s') =
  let starts_match :=
    match s' with
    | String c' _ => Ascii.eqb c "_" && is_digit c'
    | EmptyString => false
    end in
  match digits with
  | Some d =>
      if is_digit c
      then split_digits_from piece (Some (d ++ String c EmptyString)) s'
      else if starts_match
      then d :: EmptyString :: split_digits_from EmptyString (Some EmptyString) s'
      else d :: split_digits_from (String c EmptyString) None s'
  | None =>
      if starts_match
      then piece :: split_digits_from EmptyString (Some EmptyString) s'
      else split_digits_from (piece ++ String c EmptyString) None s'
  end.
Proof. reflexivity. Qed.

Lemma split_digits_reading piece acc digits :
  all_chars is_digit digits = true ->
  split_digits_from piece (Some acc) digits = [acc ++ digits; EmptyString].
Proof.
  revert acc. induction digits as [|c ds IH]; intros acc Hd.
  - simpl. now rewrite append_empty_r.
  - simpl in Hd. apply andb_true_iff in Hd. destruct Hd as [Hc Hd].
    rewrite split_digits_from_cons. cbv zeta.
    rewrite Hc, (IH _ Hd), append_assoc. reflexivity.
Qed.

Lemma split_letters_underscore_digits piece letters digits :
  all_chars is_letter letters = true ->
  nonempty digits = true -> all_chars is_digit digits = true ->
  split_digits_from piece None (letters ++ String "_" digits) =
  [piece ++ letters; digits; EmptyString].
Proof.
  revert piece. induction letters as [|c l IH]; intros piece Hl Hn Hd.
  - destruct digits as [|d ds]; [discriminate|].
    cbn [append]. rewrite split_digits_from_cons. cbv zeta.
    pose proof Hd as Hd'. simpl in Hd'.
    apply andb_true_iff in Hd'. destruct Hd' as [Hd0 _].
    rewrite Hd0. cbn [Ascii.eqb Bool.eqb andb].
    rewrite (split_digits_reading EmptyString EmptyString (String d ds) Hd).
    now rewrite append_empty_r.
  - simpl in Hl. apply andb_true_iff in Hl. destruct Hl as [Hc Hl].
    cbn [append]. rewrite split_digits_from_cons. cbv zeta.
    rewrite (letter_not_underscore c Hc). cbn [andb].
    assert (Hno : match l ++ String "_" digits with
                  | EmptyString => false
                  | String _ _ => false
                  end = false)
      by (destruct (l ++ String "_" digits); reflexivity).
    rewrite Hno, (IH _ Hl Hn Hd), append_assoc. reflexivity.
Qed.

Lemma pieces_letters_underscore_digits letters digits :
  nonempty letters = true -> all_chars is_letter letters = true ->
  nonempty digits = true -> all_chars is_digit digits = true ->
  pieces (letters ++ String "_" digits) = [letters; digits; EmptyString].
Proof.
  intros Hn Hl Hm Hd. unfold pieces.
  rewrite (fullmatch_letters_underscore_digits letters digits Hn Hl Hm Hd).
  unfold re_split_underscore_digits.
  now rewrite (split_letters_underscore_digits EmptyString letters digits Hl Hm Hd).
Qed.

Section Library.

(** The attributes and items of the objects that are not modules. *)
Variable lib : library.


(** ** Stores with the same shapes *)

Definition same_shapes (s s' : store) : Prop :=
  forall a, shape (s a) = shape (s' a).

Lemma same_shapes_refl s : same_shapes s s.
Proof. intros a. reflexivity. Qed.

Lemma same_shapes_trans s1 s2 s3 :
  same_shapes s1 s2 -> same_shapes s2 s3 -> same_shapes s1 s3.
Proof. intros H12 H23 a. now rewrite H12. Qed.

Lemma getattr_same_shapes s s' pointer name :
  same_shapes s s' -> getattr lib s pointer name = getattr lib s' pointer name.
Proof.
  intros H. destruct pointer; cbn [getattr dims_of]; try reflexivity.
  now rewrite (H address).
Qed.

Lemma getitem_same_shapes s s' pointer num :
  same_shapes s s' -> getitem lib s pointer num = getitem lib s' pointer num.
Proof.
  intros H. destruct pointer; simpl; try reflexivity. now rewrite (H address).
Qed.

Lemma shape_of_same_shapes s s' pointer :
  same_shapes s s' -> shape_of s pointer = shape_of s' pointer.
Proof.
  intros H. destruct pointer; simpl; try reflexivity. now rewrite (H address).
Qed.

Lemma step_same_shapes s s' pointer m_name :
  same_shapes s s' -> step lib s pointer m_name = step lib s' pointer m_name.
Proof.
  intros H. unfold step.
  rewrite (getattr_same_shapes s s' pointer _ H).
  destruct (getattr lib s' pointer
              (attribute_read (hd EmptyString (pieces m_name))));
    simpl; [|reflexivity].
  destruct (pieces m_name) as [|l0 [|l1 l]]; try reflexivity.
  now apply getitem_same_shapes.
Qed.

Lemma walk_same_shapes s s' pointer name :
  same_shapes s s' -> walk lib s pointer name = walk lib s' pointer name.
Proof.
  intros H. revert pointer. induction name as [|m_name rest IH]; intros pointer.
  - reflexivity.
  - simpl. rewrite (step_same_shapes s s' pointer m_name H).
    destruct (step lib s' pointer m_name); simpl; [apply IH|reflexivity].
Qed.

Lemma adjust_same_shapes s s' pointer m_name array :
  same_shapes s s' ->
  adjust lib s pointer m_name array = adjust lib s' pointer m_name array.
Proof.
  intros H. unfold adjust.
  now rewrite (getattr_same_shapes s s' pointer "weight" H).
Qed.

Lemma resolve_same_shapes model s s' name array :
  same_shapes s s' ->
  resolve lib model s name array = resolve lib model s' name array.
Proof.
  intros H. unfold resolve. rewrite (walk_same_shapes s s' model name H).
  destruct (walk lib s' model name) as [pointer|e]; cbn [bind]; [|reflexivity].
  now apply adjust_same_shapes.
Qed.

Lemma shape_eqb_eq a b : shape_eqb a b = true <-> a = b.
Proof.
  unfold shape_eqb. destruct (list_eq_dec Nat.eq_dec a b); split;
    intros; try assumption; try reflexivity; try discriminate; contradiction.
Qed.

Lemma set_data_same_shapes s pointer array dims :
  shape_of s pointer = Ok dims -> dims = shape array ->
  same_shapes s (set_data s pointer array).
Proof.
  intros Hs Hd a. destruct pointer; simpl in *; try reflexivity.
  unfold update. destruct (Nat.eqb_spec a address) as [->|]; [|reflexivity].
  injection Hs as Hs. congruence.
Qed.

(** What [load_variable] does, by cases. *)
Lemma load_variable_cases model s name array :
  match resolve lib model s name array with
  | Raise e => load_variable lib model s name array = Raise e
  | Ok (pointer, array') =>
      match shape_of s pointer with
      | Raise e => load_variable lib model s name array = Raise e
      | Ok dims =>
          (dims = shape array' /\
           load_variable lib model s name array =
           Ok (set_data s pointer array')) \/
          (dims <> shape array' /\
           load_variable lib model s name array =
           Raise (AssertionError [dims; shape array']))
      end
  end.
Proof.
  unfold load_variable.
  destruct (resolve lib model s name array) as [[pointer array']|e]; simpl;
    [|reflexivity].
  destruct (shape_of s pointer) as [dims|e]; simpl; [|reflexivity].
  destruct (shape_eqb dims (shape array')) eqn:E.
  - left. split; [now apply shape_eqb_eq|reflexivity].
  - right. split; [|reflexivity].
    intros Heq. apply shape_eqb_eq in Heq. congruence.
Qed.

Lemma load_variable_same_shapes model s name array s' :
  load_variable lib model s name array = Ok s' -> same_shapes s s'.
Proof.
  intros H. pose proof (load_variable_cases model s name array) as Hc.
  destruct (resolve lib model s name array) as [[pointer array']|e];
    [|congruence].
  destruct (shape_of s pointer) as [dims|e] eqn:Hs; [|congruence].
  destruct Hc as [[Hd Hl]|[_ Hl]]; [|congruence].
  rewrite Hl in H. injection H as <-.
  now apply (set_data_same_shapes s pointer array' dims).
Qed.

(** ** Variables of the optimizer *)

(** The name has a component [adam_v] or [adam_m]. *)
Definition names_optimizer_state (name : string) : Prop :=
  In "adam_v" (split "/" name) \/ In "adam_m" (split "/" name).

Lemma skipped_iff name :
  skipped (split "/" name) = true <-> names_optimizer_state name.
Proof.
  unfold skipped, names_optimizer_state. rewrite existsb_exists. split.
  - intros (n & Hin & Hn). apply orb_true_iff in Hn.
    destruct Hn as [Hn|Hn]; apply String.eqb_eq in Hn; subst; auto.
  - intros [H|H]; eexists; (split; [exact H|]); reflexivity.
Qed.

Lemma load_skips model pre name array post s :
  names_optimizer_state name ->
  load_tf_weights_in_bert lib model (pre ++ (name, array) :: post)%list s =
  load_tf_weights_in_bert lib model (pre ++ post)%list s.
Proof.
  intros Hskip. apply skipped_iff in Hskip. revert s.
  induction pre as [|[name0 array0] pre IH]; intros s; simpl.
  - now rewrite Hskip.
  - destruct (skipped (split "/" name0)); [apply IH|].
    destruct (load_variable lib model s (split "/" name0) array0); simpl;
      [apply IH|reflexivity].
Qed.

Lemma set_data_other s pointer array a :
  pointer <> Param a -> set_data s pointer array a = s a.
Proof.
  intros Hp. destruct pointer; simpl; try reflexivity.
  unfold update. destruct (Nat.eqb_spec a address) as [->|]; congruence.
Qed.

Lemma load_frame model ckpt s0 s s' a :
  same_shapes s0 s ->
  load_tf_weights_in_bert lib model ckpt s = Ok s' ->
  (forall name array pointer array',
     In (name, array) ckpt ->
     resolve lib model s0 (split "/" name) array = Ok (pointer, array') ->
     pointer = Param a -> names_optimizer_state name) ->
  s' a = s a.
Proof.
  revert s. induction ckpt as [|[name array] rest IH]; intros s Hsame Hload Hw.
  - simpl in Hload. now injection Hload as <-.
  - simpl in Hload.
    assert (Hrest : forall name array pointer array',
              In (name, array) rest ->
              resolve lib model s0 (split "/" name) array = Ok (pointer, array') ->
              pointer = Param a -> names_optimizer_state name).
    { intros n ar p ar' Hin. apply Hw. now right. }
    destruct (skipped (split "/" name)) eqn:Hskip; [now apply IH|].
    destruct (load_variable lib model s (split "/" name) array) as [s1|e] eqn:Hv;
      simpl in Hload; [|discriminate].
    pose proof (load_variable_same_shapes model s (split "/" name) array s1 Hv)
      as Hs1.
    rewrite (IH s1 (same_shapes_trans s0 s s1 Hsame Hs1) Hload Hrest).
    pose proof (load_variable_cases model s (split "/" name) array) as Hc.
    rewrite <- (resolve_same_shapes model s0 s (split "/" name) array Hsame)
      in Hc.
    destruct (resolve lib model s0 (split "/" name) array)
      as [[pointer array']|e] eqn:Hr; [|congruence].
    destruct (shape_of s pointer) as [dims|e]; [|congruence].
    destruct Hc as [[_ Hl]|[_ Hl]]; [|congruence].
    rewrite Hl in Hv. injection Hv as <-.
    apply set_data_other. intros ->.
    assert (Hn : names_optimizer_state name)
      by (apply (Hw name array (Param a) array'); auto; now left).
    apply skipped_iff in Hn. congruence.
Qed.

(** C5. A checkpoint variable whose name has a component [adam_v] or
    [adam_m] is skipped: loading a checkpoint with it is loading the
    checkpoint without it, and a parameter that only such variables lead to
    has, after the call, the value it had before. *)
Theorem optimizer_variables_are_skipped (model : pyobj) :
  (forall pre name array post s,
     names_optimizer_state name ->
     load_tf_weights_in_bert lib model (pre ++ (name, array) :: post)%list s =
     load_tf_weights_in_bert lib model (pre ++ post)%list s)
  /\
  (forall ckpt s s' a,
     load_tf_weights_in_bert lib model ckpt s = Ok s' ->
     (forall name array pointer array',
        In (name, array) ckpt ->
        resolve lib model s (split "/" name) array = Ok (pointer, array') ->
        pointer = Param a -> names_optimizer_state name) ->
     s' a = s a).
Proof.
  split.
  - intros pre name array post s. apply load_skips.
  - intros ckpt s s' a. apply load_frame. apply same_shapes_refl.
Qed.

(** ** The assertion on the shapes *)

Definition not_skipped (v : string * ndarray) : Prop :=
  skipped (split "/" (fst v)) = false.

(** The name of [v] leads to a tensor whose shape differs from the shape of
    the array as it is compared. *)
Definition shape_mismatch (model : pyobj) (s : store) (v : string * ndarray)
  (dims : list nat) (array' : ndarray) : Prop :=
  exists pointer,
    resolve lib model s (split "/" (fst v)) (snd v) = Ok (pointer, array') /\
    shape_of s pointer = Ok dims /\
    dims <> shape array'.

Definition some_mismatch (model : pyobj) (s : store) (ckpt : checkpoint)
  : Prop :=
  exists v dims array',
    In v ckpt /\ not_skipped v /\ shape_mismatch model s v dims array'.

(** Every variable that is not skipped has a name that leads to a tensor of
    the model. *)
Definition resolvable (model : pyobj) (s : store) (ckpt : checkpoint) : Prop :=
  forall v, In v ckpt -> not_skipped v ->
    exists pointer array' dims,
      resolve lib model s (split "/" (fst v)) (snd v) = Ok (pointer, array') /\
      shape_of s pointer = Ok dims.

(** The loop without its assertion: every array that is not skipped is
    assigned, in order, to the tensor its name leads to. *)
Fixpoint assign_all (model : pyobj) (ckpt : checkpoint) (s : store) : store :=
  match ckpt with
  | [] => s
  | (name, array) :: rest =>
      if skipped (split "/" name) then assign_all model rest s
      else match resolve lib model s (split "/" name) array with
           | Ok (pointer, array') =>
               assign_all model rest (set_data s pointer array')
           | Raise _ => assign_all model rest s
           end
  end.

(** The name of [v] leads to the parameter at address [a]. *)
Definition leads_to (model : pyobj) (s : store) (v : string * ndarray)
  (a : nat) : Prop :=
  exists array',
    resolve lib model s (split "/" (fst v)) (snd v) = Ok (Param a, array').

(** What the loop has assigned when it ends with the store [s']: a
    parameter holds the array (transposed for a kernel) of the last variable,
    not skipped, whose name leads to it; a parameter that no such name leads
    to holds what it held in [s].  An array whose name leads to a temporary
    tensor is bound to the temporary and is in no parameter. *)
Definition assigned (model : pyobj) (ckpt : checkpoint) (s s' : store)
  : Prop :=
  (forall pre v post a array',
     ckpt = (pre ++ v :: post)%list -> not_skipped v ->
     resolve lib model s (split "/" (fst v)) (snd v) = Ok (Param a, array') ->
     (forall v', In v' post -> not_skipped v' -> ~ leads_to model s v' a) ->
     s' a = array')
  /\
  (forall a,
     (forall v, In v ckpt -> not_skipped v -> ~ leads_to model s v a) ->
     s' a = s a).

(** The claim of the specification on a model, a checkpoint and a store:
    an [AssertionError] exactly when some shapes mismatch, and otherwise the
    model is returned with every array assigned. *)
Definition assertion_contract (model : pyobj) (ckpt : checkpoint) (s : store)
  : Prop :=
  ((exists shapes,
      load_tf_weights_in_bert lib model ckpt s =
      Raise (AssertionError shapes))
   <-> some_mismatch model s ckpt)
  /\
  (~ some_mismatch model s ckpt ->
   exists s',
     load_tf_weights_in_bert lib model ckpt s = Ok s' /\
     assigned model ckpt s s').

Lemma load_outcome model ckpt s0 s :
  same_shapes s0 s -> resolvable model s0 ckpt ->
  (load_tf_weights_in_bert lib model ckpt s = Ok (assign_all model ckpt s) /\
   ~ some_mismatch model s0 ckpt)
  \/
  (exists v dims array',
     In v ckpt /\ not_skipped v /\ shape_mismatch model s0 v dims array' /\
     load_tf_weights_in_bert lib model ckpt s =
     Raise (AssertionError [dims; shape array'])).
Proof.
  revert s. induction ckpt as [|[name array] rest IH]; intros s Hsame Hres.
  - left. split; [reflexivity|]. intros (v & _ & _ & [] & _).
  - assert (Hres' : resolvable model s0 rest).
    { intros v Hin. apply Hres. now right. }
    simpl.
    destruct (skipped (split "/" name)) eqn:Hskip.
    + destruct (IH s Hsame Hres') as [[Hok Hno]|(v & dims & arr & Hin & Hns & Hm & Hr)].
      * left. split; [exact Hok|].
        intros (v & dims & arr & [<-|Hin] & Hns & Hm).
        -- unfold not_skipped in Hns. simpl in Hns. congruence.
        -- apply Hno. exists v, dims, arr. auto.
      * right. exists v, dims, arr. repeat split; auto; try (now right).
    + destruct (Hres (name, array) (or_introl eq_refl) Hskip)
        as (pointer & array' & dims & Hr & Hs).
      simpl in Hr.
      pose proof (load_variable_cases model s (split "/" name) array) as Hc.
      rewrite <- (resolve_same_shapes model s0 s _ _ Hsame), Hr in Hc.
      rewrite <- (resolve_same_shapes model s0 s _ _ Hsame), Hr.
      rewrite <- (shape_of_same_shapes s0 s pointer Hsame), Hs in Hc.
      destruct Hc as [[Hd Hl]|[Hd Hl]]; rewrite Hl; simpl.
      * assert (Hs1 : same_shapes s0 (set_data s pointer array')).
        { apply (same_shapes_trans s0 s _ Hsame).
          apply (set_data_same_shapes s pointer array' dims); [|exact Hd].
          now rewrite <- (shape_of_same_shapes s0 s pointer Hsame). }
        destruct (IH _ Hs1 Hres')
          as [[Hok Hno]|(v & dims' & arr & Hin & Hns & Hm & Hrr)].
        -- left. split; [exact Hok|].
           intros (v & dims' & arr & [<-|Hin] & Hns & (p & Hr' & Hs' & Hne)).
           ++ simpl in Hr'. rewrite Hr in Hr'. injection Hr' as <- <-.
              rewrite Hs in Hs'. injection Hs' as <-. contradiction.
           ++ apply Hno. exists v, dims', arr. repeat split; auto.
              exists p. auto.
        -- right. exists v, dims', arr. repeat split; auto; try (now right).
      * right. exists (name, array), dims, array'.
        split; [now left|]. split; [exact Hskip|].
        split; [exists pointer; auto|reflexivity].
Qed.

(** ** What a load that returns has done *)

Lemma load_same_shapes model ckpt s s' :
  load_tf_weights_in_bert lib model ckpt s = Ok s' -> same_shapes s s'.
Proof.
  revert s. induction ckpt as [|[name array] rest IH]; intros s Hload.
  - simpl in Hload. injection Hload as <-. apply same_shapes_refl.
  - simpl in Hload.
    destruct (skipped (split "/" name)); [now apply IH|].
    destruct (load_variable lib model s (split "/" name) array) as [s1|e] eqn:Hv;
      simpl in Hload; [|discriminate].
    apply (same_shapes_trans s s1 s').
    + exact (load_variable_same_shapes model s _ array s1 Hv).
    + now apply IH.
Qed.

Lemma load_app model pre post s :
  load_tf_weights_in_bert lib model (pre ++ post)%list s =
  (s1 <- load_tf_weights_in_bert lib model pre s ;;
   load_tf_weights_in_bert lib model post s1).
Proof.
  revert s. induction pre as [|[name array] pre IH]; intros s.
  - reflexivity.
  - cbn [app load_tf_weights_in_bert].
    destruct (skipped (split "/" name)); [apply IH|].
    destruct (load_variable lib model s (split "/" name) array) as [s1|e];
      cbn [bind]; [apply IH|reflexivity].
Qed.

Lemma load_last_assignment (model : pyobj)
  (pre post : checkpoint) (name : string) (array array' : ndarray)
  (s s' : store) (a : nat) :
  load_tf_weights_in_bert lib model (pre ++ (name, array) :: post)%list s = Ok s' ->
  skipped (split "/" name) = false ->
  resolve lib model s (split "/" name) array = Ok (Param a, array') ->
  (forall name2 array2 pointer array2',
     In (name2, array2) post ->
     resolve lib model s (split "/" name2) array2 = Ok (pointer, array2') ->
     pointer = Param a -> names_optimizer_state name2) ->
  s' a = array'.
Proof.
  intros Hload Hskip Hres Hpost.
  rewrite load_app in Hload.
  destruct (load_tf_weights_in_bert lib model pre s) as [s1|e] eqn:Hpre;
    cbn [bind] in Hload; [|discriminate].
  pose proof (load_same_shapes model pre s s1 Hpre) as Hs1.
  cbn [load_tf_weights_in_bert] in Hload. rewrite Hskip in Hload.
  destruct (load_variable lib model s1 (split "/" name) array) as [s2|e] eqn:Hv;
    cbn [bind] in Hload; [|discriminate].
  pose proof (load_variable_same_shapes model s1 _ array s2 Hv) as Hs2.
  rewrite (load_frame model post s s2 s' a
             (same_shapes_trans s s1 s2 Hs1 Hs2) Hload Hpost).
  unfold load_variable in Hv.
  rewrite <- (resolve_same_shapes model s s1 _ array Hs1), Hres in Hv.
  cbn [bind shape_of] in Hv.
  destruct (shape_eqb (shape (s1 a)) (shape array')); [|discriminate].
  injection Hv as <-. cbn [set_data]. unfold update.
  now rewrite Nat.eqb_refl.
Qed.

Lemma load_assigned model ckpt s s' :
  load_tf_weights_in_bert lib model ckpt s = Ok s' -> assigned model ckpt s s'.
Proof.
  intros Hload. split.
  - intros pre [name array] post a array' -> Hns Hres Hpost.
    apply (load_last_assignment model pre post name array array' s s' a
             Hload Hns Hres).
    intros name2 array2 pointer array2' Hin Hr ->.
    destruct (skipped (split "/" name2)) eqn:E; [now apply skipped_iff|].
    exfalso. apply (Hpost (name2, array2) Hin E). exists array2'. exact Hr.
  - intros a Hno.
    apply (load_frame model ckpt s s s' a (same_shapes_refl s) Hload).
    intros name array pointer array' Hin Hr ->.
    destruct (skipped (split "/" name)) eqn:E; [now apply skipped_iff|].
    exfalso. apply (Hno (name, array) Hin E). exists array'. exact Hr.
Qed.

(** A load that returns has resolved every name that is not skipped. *)
Lemma load_resolvable model ckpt s0 s s' :
  same_shapes s0 s ->
  load_tf_weights_in_bert lib model ckpt s = Ok s' ->
  resolvable model s0 ckpt.
Proof.
  revert s. induction ckpt as [|[name array] rest IH]; intros s Hsame Hload.
  - intros v [].
  - cbn [load_tf_weights_in_bert] in Hload.
    destruct (skipped (split "/" name)) eqn:Hskip.
    + intros v [<-|Hin] Hns.
      * unfold not_skipped in Hns. cbn [fst] in Hns. congruence.
      * exact (IH s Hsame Hload v Hin Hns).
    + destruct (load_variable lib model s (split "/" name) array)
        as [s1|e] eqn:Hv; cbn [bind] in Hload; [|discriminate].
      pose proof (load_variable_same_shapes model s _ array s1 Hv) as Hs1.
      intros v [<-|Hin] Hns.
      * cbn [fst snd].
        pose proof (load_variable_cases model s (split "/" name) array) as Hc.
        rewrite <- (resolve_same_shapes model s0 s _ _ Hsame) in Hc.
        destruct (resolve lib model s0 (split "/" name) array)
          as [[pointer array']|e] eqn:Hr; [|congruence].
        rewrite <- (shape_of_same_shapes s0 s pointer Hsame) in Hc.
        destruct (shape_of s0 pointer) as [dims|e] eqn:Hd; [|congruence].
        exists pointer, array', dims. split; [reflexivity|exact Hd].
      * exact (IH s1 (same_shapes_trans s0 s s1 Hsame Hs1) Hload v Hin Hns).
Qed.

(** C4, amended.  When the name of every variable that is not skipped leads
    to a tensor (a parameter of the model, or a temporary tensor derived from
    one), [load_tf_weights_in_bert] raises an [AssertionError] if and only
    if, for some such variable, the shape of the tensor differs from the
    shape of the array (transposed when the last component is [kernel]); the
    error carries the two shapes of a variable that mismatches and no other
    exception is raised.  Without a mismatch the model is returned, and in
    it every parameter that such a name leads to holds the array of the last
    such variable, while every other parameter holds what it held.  The call
    returns only if every name that is not skipped leads to a tensor. *)
Theorem assertion_iff_shape_mismatch (model : pyobj) (ckpt : checkpoint)
  (s : store) :
  (resolvable model s ckpt ->
   assertion_contract model ckpt s /\
   (forall e, load_tf_weights_in_bert lib model ckpt s = Raise e ->
      exists v dims array',
        In v ckpt /\ not_skipped v /\ shape_mismatch model s v dims array' /\
        e = AssertionError [dims; shape array']))
  /\
  (forall s',
     load_tf_weights_in_bert lib model ckpt s = Ok s' ->
     resolvable model s ckpt).
Proof.
  split; [|intros s'; apply load_resolvable, same_shapes_refl].
  intros Hres.
  destruct (load_outcome model ckpt s s (same_shapes_refl s) Hres)
    as [[Hok Hno]|(v & dims & arr & Hin & Hns & Hm & Hr)].
  - split; [split|].
    + split.
      * intros [shapes Hraise]. congruence.
      * intros Hsome. contradiction.
    + intros _. exists (assign_all model ckpt s).
      split; [exact Hok|]. now apply load_assigned.
    + intros e He. congruence.
  - split; [split|].
    + split.
      * intros _. exists v, dims, arr. auto.
      * intros _. eexists. exact Hr.
    + intros Hno. exfalso. apply Hno. exists v, dims, arr. auto.
    + intros e He. rewrite Hr in He. injection He as <-.
      exists v, dims, arr. auto.
Qed.

(** ** Further properties of the loader *)

(** A load that returns has changed the values of parameters only: every
    parameter of the model has the shape it had before the call. *)
Theorem load_preserves_shapes (model : pyobj) (ckpt : checkpoint)
  (s s' : store) :
  load_tf_weights_in_bert lib model ckpt s = Ok s' ->
  forall a, shape (s' a) = shape (s a).
Proof.
  intros Hload a. symmetry. exact (load_same_shapes model ckpt s s' Hload a).
Qed.

(** After a load that returns, a parameter holds the array of the last
    variable that was assigned to it: the array of a variable that is not
    skipped (transposed for a kernel) is the value of the parameter its name
    leads to, when no later variable but optimizer variables leads to the
    same parameter. *)
Theorem parameter_holds_last_assignment (model : pyobj)
  (pre post : checkpoint) (name : string) (array array' : ndarray)
  (s s' : store) (a : nat) :
  load_tf_weights_in_bert lib model (pre ++ (name, array) :: post)%list s = Ok s' ->
  skipped (split "/" name) = false ->
  resolve lib model s (split "/" name) array = Ok (Param a, array') ->
  (forall name2 array2 pointer array2',
     In (name2, array2) post ->
     resolve lib model s (split "/" name2) array2 = Ok (pointer, array2') ->
     pointer = Param a -> names_optimizer_state name2) ->
  s' a = array'.
Proof.
  exact (load_last_assignment model pre post name array array' s s' a).
Qed.

(** The array of a variable whose last name component ends in
    [_embeddings] goes, as it is, to the [weight] of the module the name
    leads to, after the same comparison of shapes. *)
Theorem embedding_tables_assigned_to_weight (model : pyobj) (s : store)
  (name : list string) (array : ndarray) (attrs : list (string * pyobj))
  (a : nat) :
  last_chars 11 (last_component name) = "_embeddings" ->
  walk lib s model name = Ok (Module attrs) ->
  assoc "weight" attrs = Some (Param a) ->
  load_variable lib model s name array =
  if shape_eqb (shape (s a)) (shape array)
  then Ok (update s a array)
  else Raise (AssertionError [shape (s a); shape array]).
Proof.
  intros Hlast Hwalk Hweight.
  unfold load_variable, resolve. rewrite Hwalk. cbn [bind].
  unfold adjust. rewrite Hlast. cbn [String.eqb Ascii.eqb Bool.eqb].
  cbn [getattr]. rewrite Hweight. reflexivity.
Qed.

End Library.

(** ** A small model and checkpoint *)

(** A table in which a tensor has the attribute [data], a temporary tensor
    of the same shape, and in which no other lookup succeeds. *)
Definition data_only : library :=
  mkLibrary
    (fun pointer dims name =>
       match pointer with
       | Param _ | TensorView _ =>
           if String.eqb name "data" then Ok (TensorView dims)
           else Raise (AttributeError name)
       | _ => Raise (AttributeError name)
       end)
    (fun _ _ => Raise TypeError).

(** [bert.embeddings.word_embeddings.weight] at address 0 (3 x 2), and in
    [bert.encoder.layer[0].attention.self.query] the weight at address 1
    (3 x 2) and the bias at address 2 (3). *)
Definition sample_model : pyobj :=
  Module
    [("bert",
      Module
        [("embeddings",
          Module [("word_embeddings", Module [("weight", Param 0)])]);
         ("encoder",
          Module
            [("layer",
              ModuleList
                [Module
                   [("attention",
                     Module
                       [("self",
                         Module
                           [("query",
                             Module [("weight", Param 1);
                                     ("bias", Param 2)])])])]])])])].

Definition sample_store : store :=
  fun a =>
    match a with
    | 0 => mkArray [3; 2] (repeat 0%R 6)
    | 1 => mkArray [3; 2] (repeat 0%R 6)
    | 2 => mkArray [3] (repeat 0%R 3)
    | _ => mkArray [] []
    end.

Definition sample_kernel : ndarray := mkArray [2; 3] [1; 2; 3; 4; 5; 6]%R.

Definition sample_checkpoint : checkpoint :=
  [ ("bert/embeddings/word_embeddings", mkArray [3; 2] [1; 2; 3; 4; 5; 6]%R);
    ("bert/encoder/layer_0/attention/self/query/kernel", sample_kernel);
    ("bert/encoder/layer_0/attention/self/query/kernel/adam_m", sample_kernel);
    ("bert/encoder/layer_0/attention/self/query/bias", mkArray [3] [7; 8; 9]%R) ].

Lemma sample_resolvable :
  resolvable data_only sample_model sample_store sample_checkpoint.
Proof.
  intros v Hin Hns. simpl in Hin.
  destruct Hin as [<-|[<-|[<-|[<-|[]]]]].
  - exists (Param 0), (mkArray [3; 2] [1; 2; 3; 4; 5; 6]%R), [3; 2].
    split; reflexivity.
  - exists (Param 1), (np_transpose sample_kernel), [3; 2].
    split; reflexivity.
  - discriminate Hns.
  - exists (Param 2), (mkArray [3] [7; 8; 9]%R), [3].
    split; reflexivity.
Qed.

Lemma sample_no_mismatch :
  ~ some_mismatch data_only sample_model sample_store sample_checkpoint.
Proof.
  intros (v & dims & arr & Hin & Hns & (p & Hr & Hs & Hne)). simpl in Hin.
  destruct Hin as [<-|[<-|[<-|[<-|[]]]]]; try discriminate Hns;
    vm_compute in Hr; injection Hr as <- <-;
    vm_compute in Hs; injection Hs as <-; apply Hne; reflexivity.
Qed.

Lemma sample_load :
  load_tf_weights_in_bert data_only sample_model sample_checkpoint
    sample_store =
  Ok (assign_all data_only sample_model sample_checkpoint sample_store).
Proof.
  destruct (load_outcome data_only sample_model sample_checkpoint sample_store
              sample_store (same_shapes_refl _) sample_resolvable)
    as [[Hok _]|(v & dims & array' & Hin & Hns & Hm & _)].
  - exact Hok.
  - exfalso. apply sample_no_mismatch. exists v, dims, array'. auto.
Qed.

(** The kernel is stored transposed: rows [1 4], [2 5], [3 6]. *)
Example sample_kernel_transposed :
  data (assign_all data_only sample_model sample_checkpoint sample_store 1) =
  [1; 4; 2; 5; 3; 6]%R.
Proof. reflexivity. Qed.

(** Two more variables, whose names lead to temporary tensors: the tensor
    [kernel.data], and row 1 of the kernel. *)
Definition derived_checkpoint : checkpoint :=
  [ ("bert/embeddings/word_embeddings", mkArray [3; 2] [1; 2; 3; 4; 5; 6]%R);
    ("bert/encoder/layer_0/attention/self/query/kernel", sample_kernel);
    ("bert/encoder/layer_0/attention/self/query/kernel/adam_m", sample_kernel);
    ("bert/encoder/layer_0/attention/self/query/bias", mkArray [3] [7; 8; 9]%R);
    ("bert/encoder/layer_0/attention/self/query/kernel/data",
     mkArray [3; 2] [9; 9; 9; 9; 9; 9]%R);
    ("bert/encoder/layer_0/attention/self/query/kernel_1",
     mkArray [2] [9; 9]%R) ].

Lemma derived_resolvable :
  resolvable data_only sample_model sample_store derived_checkpoint.
Proof.
  intros v Hin Hns. simpl in Hin.
  destruct Hin as [<-|[<-|[<-|[<-|[<-|[<-|[]]]]]]].
  - exists (Param 0), (mkArray [3; 2] [1; 2; 3; 4; 5; 6]%R), [3; 2].
    split; reflexivity.
  - exists (Param 1), (np_transpose sample_kernel), [3; 2].
    split; reflexivity.
  - discriminate Hns.
  - exists (Param 2), (mkArray [3] [7; 8; 9]%R), [3].
    split; reflexivity.
  - exists (TensorView [3; 2]), (mkArray [3; 2] [9; 9; 9; 9; 9; 9]%R), [3; 2].
    split; reflexivity.
  - exists (TensorView [2]), (mkArray [2] [9; 9]%R), [2].
    split; reflexivity.
Qed.

Lemma derived_no_mismatch :
  ~ some_mismatch data_only sample_model sample_store derived_checkpoint.
Proof.
  intros (v & dims & arr & Hin & Hns & (p & Hr & Hs & Hne)). simpl in Hin.
  destruct Hin as [<-|[<-|[<-|[<-|[<-|[<-|[]]]]]]]; try discriminate Hns;
    vm_compute in Hr; injection Hr as <- <-;
    vm_compute in Hs; injection Hs as <-; apply Hne; reflexivity.
Qed.

Example assertion_iff_shape_mismatch_witness :
  exists s',
    load_tf_weights_in_bert data_only sample_model derived_checkpoint
      sample_store = Ok s' /\
    assigned data_only sample_model derived_checkpoint sample_store s'.
Proof.
  apply (proj2 (proj1 (proj1 (assertion_iff_shape_mismatch data_only
                                sample_model derived_checkpoint sample_store)
                         derived_resolvable))).
  exact derived_no_mismatch.
Defined.

(** The two arrays bound to temporary tensors are in no parameter: the store
    is the one that [sample_checkpoint] leaves. *)
Example derived_tensors_change_no_parameter :
  assign_all data_only sample_model derived_checkpoint sample_store =
  assign_all data_only sample_model sample_checkpoint sample_store.
Proof. reflexivity. Qed.

(** C4, as stated, fails: a checkpoint whose only variable is [global_step],
    loaded into a model without such an attribute, has no shape mismatch,
    yet the call does not return the model: resolving the name raises an
    [AttributeError], whatever the library. *)
Lemma unresolved_name_breaks_assertion_contract :
  (forall lib,
     load_tf_weights_in_bert lib sample_model
       [("global_step", mkArray [] [0%R])] sample_store =
     Raise (AttributeError "global_step"))
  /\
  (forall lib,
     ~ assertion_contract lib sample_model
         [("global_step", mkArray [] [0%R])] sample_store).
Proof.
  split; [intros lib; reflexivity|].
  intros lib [_ Hret].
  assert (Hno : ~ some_mismatch lib sample_model sample_store
                    [("global_step", mkArray [] [0%R])]).
  { intros (v & dims & arr & [<-|[]] & _ & (p & Hr & _)). discriminate Hr. }
  destruct (Hret Hno) as (s' & Hload & _). discriminate Hload.
Qed.


Example optimizer_variables_are_skipped_witness :
  load_tf_weights_in_bert data_only sample_model sample_checkpoint
    sample_store =
  load_tf_weights_in_bert data_only sample_model
    [ ("bert/embeddings/word_embeddings", mkArray [3; 2] [1; 2; 3; 4; 5; 6]%R);
      ("bert/encoder/layer_0/attention/self/query/kernel", sample_kernel);
      ("bert/encoder/layer_0/attention/self/query/bias",
       mkArray [3] [7; 8; 9]%R) ]
    sample_store.
Proof.
  apply (proj1 (optimizer_variables_are_skipped data_only sample_model)
           [ ("bert/embeddings/word_embeddings",
              mkArray [3; 2] [1; 2; 3; 4; 5; 6]%R);
             ("bert/encoder/layer_0/attention/self/query/kernel",
              sample_kernel) ]
           "bert/encoder/layer_0/attention/self/query/kernel/adam_m"
           sample_kernel
           [ ("bert/encoder/layer_0/attention/self/query/bias",
              mkArray [3] [7; 8; 9]%R) ]
           sample_store).
  right. simpl. tauto.
Defined.

Example load_preserves_shapes_witness :
  shape (assign_all data_only sample_model sample_checkpoint sample_store 1) =
  shape (sample_store 1).
Proof.
  exact (load_preserves_shapes data_only sample_model sample_checkpoint
           sample_store _ sample_load 1%nat).
Defined.

Example parameter_holds_last_assignment_witness :
  assign_all data_only sample_model sample_checkpoint sample_store 1 =
  np_transpose sample_kernel.
Proof.
  apply (parameter_holds_last_assignment data_only sample_model
           [("bert/embeddings/word_embeddings",
             mkArray [3; 2] [1; 2; 3; 4; 5; 6]%R)]
           [("bert/encoder/layer_0/attention/self/query/kernel/adam_m",
             sample_kernel);
            ("bert/encoder/layer_0/attention/self/query/bias",
             mkArray [3] [7; 8; 9]%R)]
           "bert/encoder/layer_0/attention/self/query/kernel"
           sample_kernel (np_transpose sample_kernel) sample_store).
  - exact sample_load.
  - reflexivity.
  - reflexivity.
  - intros name2 array2 pointer array2' Hin Hres Hp.
    destruct Hin as [Hin|[Hin|[]]]; injection Hin as <- <-.
    + apply skipped_iff. reflexivity.
    + subst pointer. discriminate Hres.
Defined.

Example embedding_tables_assigned_to_weight_witness :
  load_variable data_only sample_model sample_store
    (split "/" "bert/embeddings/word_embeddings")
    (mkArray [3; 2] [1; 2; 3; 4; 5; 6]%R) =
  Ok (update sample_store 0 (mkArray [3; 2] [1; 2; 3; 4; 5; 6]%R)).
Proof.
  apply (embedding_tables_assigned_to_weight data_only sample_model
           sample_store
           (split "/" "bert/embeddings/word_embeddings")
           (mkArray [3; 2] [1; 2; 3; 4; 5; 6]%R) [("weight", Param 0)] 0).
  - reflexivity.
  - reflexivity.
  - reflexivity.
Defined.

End TFLoaderFacts.

(* ================================================================== *)
(** * [BertConfig] and the constructors of the modules *)
(* ================================================================== *)

Module Constructors.

Local Open Scope Z_scope.
Local Open Scope exc_scope.

(** [config.hidden_act]: a name looked up in [ACT2FN], or a function. *)
Inductive hidden_act_value :=
| ActName (name : string)
| ActFunction.

(** The attributes [BertConfig.__init__] sets from an integer vocabulary
    size. *)
Record BertConfig := mkConfig {
  vocab_size : Z;
  hidden_size : Z;
  num_hidden_layers : Z;
  num_attention_heads : Z;
  hidden_act : hidden_act_value;
  intermediate_size : Z;
  hidden_dropout_prob : R;
  attention_probs_dropout_prob : R;
  max_position_embeddings : Z;
  type_vocab_size : Z;
  initializer_range : R
}.

(** What a constructor fixes of a module: its attributes and the shapes of
    its tensors (their initial values are drawn at random). *)
Inductive layout :=
| LModule (attrs : list (string * layout))
| LModuleList (items : list layout)
| LTensor (dims : list Z)
| LInt (z : Z)
| LFloat (r : R)
| LFunction (name : string).

Fixpoint attr (name : string) (attrs : list (string * layout))
  : option layout :=
  match attrs with
  | [] => None
  | (k, v) :: rest => if String.eqb k name then Some v else attr name rest
  end.

(** The integer attribute [name] of a module. *)
Definition int_attr (name : string) (m : layout) : option Z :=
  match m with
  | LModule attrs =>
      match attr name attrs with
      | Some (LInt z) => Some z
      | _ => None
      end
  | _ => None
  end.

(** A tensor of the given sizes; a negative size is refused. *)
Definition new_tensor (dims : list Z) : result layout :=
  if forallb (fun d => 0 <=? d) dims then Ok (LTensor dims)
  else Raise RuntimeError.

(** [nn.Linear(in_features, out_features)] *)
Definition nn_Linear (in_features out_features : Z) : result layout :=
  weight <- new_tensor [out_features; in_features] ;;
  bias <- new_tensor [out_features] ;;
  Ok (LModule [("weight"%string, weight); ("bias"%string, bias)]).

(** [nn.Embedding(num_embeddings, embedding_dim, padding_idx=0)] *)
Definition nn_Embedding (num_embeddings embedding_dim : Z) : result layout :=
  weight <- new_tensor [num_embeddings; embedding_dim] ;;
  Ok (LModule [("weight"%string, weight)]).

(** [nn.Dropout(p)] refuses a probability outside [0, 1]. *)
Definition nn_Dropout (p : R) : result layout :=
  if Rlt_dec p 0 then
    Raise (ValueError "dropout probability has to be between 0 and 1")
  else if Rlt_dec 1 p then
    Raise (ValueError "dropout probability has to be between 0 and 1")
  else Ok (LModule [("p"%string, LFloat p)]).

(** [BertLayerNorm(hidden_size, eps=1e-12)] *)
Definition BertLayerNorm_init (hidden_size : Z) : result layout :=
  weight <- new_tensor [hidden_size] ;;
  bias <- new_tensor [hidden_size] ;;
  Ok (LModule [("weight"%string, weight); ("bias"%string, bias);
               ("variance_epsilon"%string, LFloat LayerNorm.default_eps)]).

(** ["The hidden size (%d) is not a multiple of the number of attention
    heads (%d)" % (hidden_size, num_attention_heads)] *)
Definition not_a_multiple (hidden_size num_attention_heads : Z) : string :=
  ("The hidden size (" ++ NilZero.string_of_int (Z.to_int hidden_size)
   ++ ") is not a multiple of the number of attention heads ("
   ++ NilZero.string_of_int (Z.to_int num_attention_heads) ++ ")")%string.

(** [BertSelfAttention.__init__].  Python's [%] raises on a zero divisor
    and otherwise has the sign of the divisor, as [Z.modulo] has;
    [int(a / b)] of an exact quotient is that quotient. *)
Definition BertSelfAttention_init (config : BertConfig) : result layout :=
  if num_attention_heads config =? 0 then Raise ZeroDivisionError
  else if negb (hidden_size config mod num_attention_heads config =? 0) then
    Raise (ValueError
             (not_a_multiple (hidden_size config) (num_attention_heads config)))
  else
    let num_attention_heads := num_attention_heads config in
    let attention_head_size :=
      Z.quot (hidden_size config) num_attention_heads in
    let all_head_size := num_attention_heads * attention_head_size in
    query <- nn_Linear (hidden_size config) all_head_size ;;
    key <- nn_Linear (hidden_size config) all_head_size ;;
    value <- nn_Linear (hidden_size config) all_head_size ;;
    dropout <- nn_Dropout (attention_probs_dropout_prob config) ;;
    Ok (LModule
          [("num_attention_heads"%string, LInt num_attention_heads);
           ("attention_head_size"%string, LInt attention_head_size);
           ("all_head_size"%string, LInt all_head_size);
           ("query"%string, query); ("key"%string, key);
           ("value"%string, value); ("dropout"%string, dropout)]).

Definition BertSelfOutput_init (config : BertConfig) : result layout :=
  dense <- nn_Linear (hidden_size config) (hidden_size config) ;;
  LayerNorm <- BertLayerNorm_init (hidden_size config) ;;
  dropout <- nn_Dropout (hidden_dropout_prob config) ;;
  Ok (LModule [("dense"%string, dense); ("LayerNorm"%string, LayerNorm);
               ("dropout"%string, dropout)]).

Definition BertAttention_init (config : BertConfig) : result layout :=
  self <- BertSelfAttention_init config ;;
  output <- BertSelfOutput_init config ;;
  Ok (LModule [("self"%string, self); ("output"%string, output)]).

(** [ACT2FN[config.hidden_act]] for a name, the function itself otherwise. *)
Definition activation_of (act : hidden_act_value) : result layout :=
  match act with
  | ActName name =>
      if existsb (fun entry => String.eqb (fst entry) name) Activations.ACT2FN
      then Ok (LFunction name)
      else Raise (KeyError name)
  | ActFunction => Ok (LFunction "hidden_act")
  end.

Definition BertIntermediate_init (config : BertConfig) : result layout :=
  dense <- nn_Linear (hidden_size config) (intermediate_size config) ;;
  intermediate_act_fn <- activation_of (hidden_act config) ;;
  Ok (LModule [("dense"%string, dense);
               ("intermediate_act_fn"%string, intermediate_act_fn)]).

Definition BertOutput_init (config : BertConfig) : result layout :=
  dense <- nn_Linear (intermediate_size config) (hidden_size config) ;;
  LayerNorm <- BertLayerNorm_init (hidden_size config) ;;
  dropout <- nn_Dropout (hidden_dropout_prob config) ;;
  Ok (LModule [("dense"%string, dense); ("LayerNorm"%string, LayerNorm);
               ("dropout"%string, dropout)]).

Definition BertLayer_init (config : BertConfig) : result layout :=
  attention <- BertAttention_init config ;;
  intermediate <- BertIntermediate_init config ;;
  output <- BertOutput_init config ;;
  Ok (LModule [("attention"%string, attention);
               ("intermediate"%string, intermediate);
               ("output"%string, output)]).

(** One layer is built, then copied [num_hidden_layers] times; a negative
    count gives an empty list. *)
Definition BertEncoder_init (config : BertConfig) : result layout :=
  layer <- BertLayer_init config ;;
  Ok (LModule
        [("layer"%string,
          LModuleList (repeat layer (Z.to_nat (num_hidden_layers config))))]).

Definition BertEmbeddings_init (config : BertConfig) : result layout :=
  word_embeddings <-
    nn_Embedding (vocab_size config) (hidden_size config) ;;
  position_embeddings <-
    nn_Embedding (max_position_embeddings config) (hidden_size config) ;;
  token_type_embeddings <-
    nn_Embedding (type_vocab_size config) (hidden_size config) ;;
  LayerNorm <- BertLayerNorm_init (hidden_size config) ;;
  dropout <- nn_Dropout (hidden_dropout_prob config) ;;
  Ok (LModule [("word_embeddings"%string, word_embeddings);
               ("position_embeddings"%string, position_embeddings);
               ("token_type_embeddings"%string, token_type_embeddings);
               ("LayerNorm"%string, LayerNorm); ("dropout"%string, dropout)]).

Definition BertPooler_init (config : BertConfig) : result layout :=
  dense <- nn_Linear (hidden_size config) (hidden_size config) ;;
  Ok (LModule [("dense"%string, dense);
               ("activation"%string, LFunction "Tanh")]).

Definition BertModel_init (config : BertConfig) : result layout :=
  embeddings <- BertEmbeddings_init config ;;
  encoder <- BertEncoder_init config ;;
  pooler <- BertPooler_init config ;;
  Ok (LModule [("embeddings"%string, embeddings);
               ("encoder"%string, encoder); ("pooler"%string, pooler)]).

(** The heads: the wrapped [BertModel], a dropout module and the linear
    layers of the head. *)
Definition BertForSequenceClassification_init (config : BertConfig)
  (num_labels : Z) : result layout :=
  bert <- BertModel_init config ;;
  dropout <- nn_Dropout (hidden_dropout_prob config) ;;
  classifier <- nn_Linear (hidden_size config) num_labels ;;
  Ok (LModule [("num_labels"%string, LInt num_labels); ("bert"%string, bert);
               ("dropout"%string, dropout);
               ("classifier"%string, classifier)]).

Definition BertForTokenClassification_init (config : BertConfig)
  (num_labels : Z) : result layout :=
  bert <- BertModel_init config ;;
  dropout <- nn_Dropout (hidden_dropout_prob config) ;;
  classifier <- nn_Linear (hidden_size config) num_labels ;;
  Ok (LModule [("num_labels"%string, LInt num_labels); ("bert"%string, bert);
               ("dropout"%string, dropout);
               ("classifier"%string, classifier)]).

Definition BertForSimpleRelationExtraction_init (config : BertConfig)
  (rel_dim : Z) : result layout :=
  bert <- BertModel_init config ;;
  dropout <- nn_Dropout (hidden_dropout_prob config) ;;
  classifier <- nn_Linear (hidden_size config) rel_dim ;;
  Ok (LModule [("rel_dim"%string, LInt rel_dim); ("bert"%string, bert);
               ("dropout"%string, dropout);
               ("classifier"%string, classifier)]).

Definition BertForSimpleRelationExtraction_allwords_init
  (config : BertConfig) (rel_dim max_tok : Z) : result layout :=
  bert <- BertModel_init config ;;
  dropout <- nn_Dropout (hidden_dropout_prob config) ;;
  encode_1 <- nn_Linear (hidden_size config) rel_dim ;;
  encode_2 <- nn_Linear (rel_dim * max_tok) rel_dim ;;
  Ok (LModule [("rel_dim"%string, LInt rel_dim);
               ("max_tok"%string, LInt max_tok); ("bert"%string, bert);
               ("dropout"%string, dropout); ("encode_1"%string, encode_1);
               ("encode_2"%string, encode_2)]).

(** The constructors of the model and of the heads, by name. *)
Definition model_constructors (num_labels rel_dim max_tok : Z)
  : list (string * (BertConfig -> result layout)) :=
  [ ("BertModel"%string, BertModel_init);
    ("BertForSequenceClassification"%string,
     fun c => BertForSequenceClassification_init c num_labels);
    ("BertForTokenClassification"%string,
     fun c => BertForTokenClassification_init c num_labels);
    ("BertForSimpleRelationExtraction"%string,
     fun c => BertForSimpleRelationExtraction_init c rel_dim);
    ("BertForSimpleRelationExtraction_allwords"%string,
     fun c => BertForSimpleRelationExtraction_allwords_init c rel_dim max_tok) ].

End Constructors.

Module ConstructorFacts.

Import Constructors.
Local Open Scope Z_scope.
Local Open Scope exc_scope.

(** [h] is an integer multiple of [n]. *)
Definition is_multiple (h n : Z) : Prop := exists k, h = k * n.

Lemma bind_Ok {A B} (r : result A) (k : A -> result B) b :
  bind r k = Ok b -> exists a, r = Ok a /\ k a = Ok b.
Proof. destruct r as [a|e]; simpl; intros H; [eauto|discriminate]. Qed.

Lemma new_tensor_raises dims e :
  new_tensor dims = Raise e -> e = RuntimeError.
Proof.
  unfold new_tensor. destruct (forallb _ dims); intros H;
    [discriminate|now injection H as <-].
Qed.

Lemma nn_Linear_raises a b e : nn_Linear a b = Raise e -> e = RuntimeError.
Proof.
  unfold nn_Linear.
  destruct (new_tensor [b; a]) as [w|e1] eqn:E1; simpl.
  - destruct (new_tensor [b]) as [w2|e2] eqn:E2; simpl; intros H;
      [discriminate|].
    injection H as <-. now apply (new_tensor_raises [b]).
  - intros H. injection H as <-. now apply (new_tensor_raises [b; a]).
Qed.

Lemma nn_Dropout_raises p e :
  nn_Dropout p = Raise e ->
  e = ValueError "dropout probability has to be between 0 and 1".
Proof.
  unfold nn_Dropout. destruct (Rlt_dec p 0); [now intros H; injection H as <-|].
  destruct (Rlt_dec 1 p); intros H; [now injection H as <-|discriminate].
Qed.

Lemma not_a_multiple_message h n :
  ValueError (not_a_multiple h n) <>
  ValueError "dropout probability has to be between 0 and 1".
Proof. unfold not_a_multiple. simpl. discriminate. Qed.

Lemma mod_zero_iff_multiple h n : n <> 0 -> (h mod n = 0 <-> is_multiple h n).
Proof. intros Hn. apply Z.mod_divide. exact Hn. Qed.

Lemma exact_quotient h n : n <> 0 -> h mod n = 0 -> n * Z.quot h n = h.
Proof.
  intros Hn Hm. symmetry. apply Z.quot_exact; [exact Hn|].
  apply Z.rem_divide; [exact Hn|]. now apply Z.mod_divide.
Qed.

(** The two guards that precede the construction of the projections. *)
Lemma BertSelfAttention_init_cases config :
  (num_attention_heads config = 0 /\
   BertSelfAttention_init config = Raise ZeroDivisionError)
  \/
  (num_attention_heads config <> 0 /\
   ~ is_multiple (hidden_size config) (num_attention_heads config) /\
   BertSelfAttention_init config =
   Raise (ValueError (not_a_multiple (hidden_size config)
                        (num_attention_heads config))))
  \/
  (num_attention_heads config <> 0 /\
   is_multiple (hidden_size config) (num_attention_heads config) /\
   BertSelfAttention_init config <>
   Raise (ValueError (not_a_multiple (hidden_size config)
                        (num_attention_heads config))) /\
   BertSelfAttention_init config <> Raise ZeroDivisionError /\
   forall m, BertSelfAttention_init config = Ok m ->
     int_attr "num_attention_heads" m = Some (num_attention_heads config) /\
     int_attr "attention_head_size" m =
       Some (Z.quot (hidden_size config) (num_attention_heads config)) /\
     int_attr "all_head_size" m =
       Some (num_attention_heads config *
             Z.quot (hidden_size config) (num_attention_heads config))).
Proof.
  unfold BertSelfAttention_init.
  destruct (Z.eqb_spec (num_attention_heads config) 0) as [H0|H0].
  { left. auto. }
  right.
  destruct (Z.eqb_spec (hidden_size config mod num_attention_heads config) 0)
    as [Hm|Hm]; cbn [negb].
  - right. split; [exact H0|]. split; [now apply mod_zero_iff_multiple|].
    set (h := hidden_size config).
    set (n := num_attention_heads config).
    destruct (nn_Linear h (n * Z.quot h n)) as [q|e] eqn:Eq; cbn [bind].
    + destruct (nn_Dropout (attention_probs_dropout_prob config))
        as [d|e] eqn:Ed; cbn [bind].
      * split; [discriminate|]. split; [discriminate|].
        intros m Hm'. injection Hm' as <-.
        repeat split; reflexivity.
      * apply nn_Dropout_raises in Ed. subst e.
        split; [|split; discriminate].
        intros H. apply (not_a_multiple_message h n). congruence.
    + apply nn_Linear_raises in Eq. subst e.
      split; [|split]; discriminate.
  - left. split; [exact H0|]. split; [|reflexivity].
    intros Hmul. apply Hm. now apply mod_zero_iff_multiple.
Qed.

Lemma BertModel_init_builds_attention config m :
  BertModel_init config = Ok m ->
  exists a, BertSelfAttention_init config = Ok a.
Proof.
  unfold BertModel_init. intros H.
  apply bind_Ok in H. destruct H as (emb & _ & H).
  apply bind_Ok in H. destruct H as (enc & Henc & _).
  unfold BertEncoder_init in Henc.
  apply bind_Ok in Henc. destruct Henc as (layer & Hlayer & _).
  unfold BertLayer_init in Hlayer.
  apply bind_Ok in Hlayer. destruct Hlayer as (att & Hatt & _).
  unfold BertAttention_init in Hatt.
  apply bind_Ok in Hatt. destruct Hatt as (a & Ha & _).
  eauto.
Qed.

(** C9, amended.  [BertSelfAttention.__init__] raises its [ValueError]
    ("The hidden size ... is not a multiple ...") if and only if
    [num_attention_heads] is not zero and [hidden_size] is not an integer
    multiple of it; with zero heads the modulo raises [ZeroDivisionError].
    When the constructor returns, [all_head_size = num_attention_heads *
    attention_head_size = hidden_size]; and [BertModel] and the heads built
    on it are constructed only for a non-zero number of heads that divides
    [hidden_size]. *)
Theorem BertSelfAttention_init_divisibility (config : BertConfig) :
  (BertSelfAttention_init config =
     Raise (ValueError (not_a_multiple (hidden_size config)
                          (num_attention_heads config)))
   <-> num_attention_heads config <> 0 /\
       ~ is_multiple (hidden_size config) (num_attention_heads config))
  /\
  (BertSelfAttention_init config = Raise ZeroDivisionError
   <-> num_attention_heads config = 0)
  /\
  (forall m, BertSelfAttention_init config = Ok m ->
     exists d,
       int_attr "num_attention_heads" m = Some (num_attention_heads config) /\
       int_attr "attention_head_size" m = Some d /\
       int_attr "all_head_size" m = Some (num_attention_heads config * d) /\
       num_attention_heads config * d = hidden_size config)
  /\
  (forall num_labels rel_dim max_tok name constructor m,
     In (name, constructor) (model_constructors num_labels rel_dim max_tok) ->
     constructor config = Ok m ->
     num_attention_heads config <> 0 /\
     is_multiple (hidden_size config) (num_attention_heads config)).
Proof.
  pose proof (BertSelfAttention_init_cases config) as Hc.
  assert (Hok : forall a, BertSelfAttention_init config = Ok a ->
            num_attention_heads config <> 0 /\
            is_multiple (hidden_size config) (num_attention_heads config)).
  { intros a Ha.
    destruct Hc as [[_ Hr]|[(_ & _ & Hr)|(Hn & Hm & _)]];
      [congruence|congruence|auto]. }
  split; [|split; [|split]].
  - destruct Hc as [[H0 Hr]|[(Hn & Hm & Hr)|(Hn & Hm & Hne & _)]].
    + rewrite Hr. split; [discriminate|]. intros [Hn _]. contradiction.
    + split; auto.
    + split; [contradiction|]. intros [_ Hnm]. contradiction.
  - destruct Hc as [[H0 Hr]|[(Hn & Hm & Hr)|(Hn & Hm & _ & Hne & _)]].
    + split; auto.
    + rewrite Hr. split; [discriminate|contradiction].
    + split; [contradiction|]. intros H0. contradiction.
  - intros m Hm.
    destruct Hc as [[_ Hr]|[(_ & _ & Hr)|(Hn & Hmul & _ & _ & Hattrs)]];
      [congruence|congruence|].
    destruct (Hattrs m Hm) as (H1 & H2 & H3).
    eexists. repeat split; [exact H1|exact H2|exact H3|].
    apply exact_quotient; [exact Hn|].
    now apply mod_zero_iff_multiple.
  - intros num_labels rel_dim max_tok name constructor m Hin Hm.
    assert (Hbert : exists b, BertModel_init config = Ok b).
    { simpl in Hin.
      destruct Hin as [Hin|[Hin|[Hin|[Hin|[Hin|[]]]]]];
        injection Hin as _ <-; [eauto| | | |];
        (apply bind_Ok in Hm; destruct Hm as (b & Hb & _); eauto). }
    destruct Hbert as (b & Hb).
    destruct (BertModel_init_builds_attention config b Hb) as (a & Ha).
    exact (Hok a Ha).
Qed.

(** [BertConfig(30522, num_attention_heads=0)] *)
Definition zero_heads_config : BertConfig :=
  mkConfig 30522 768 12 0 (ActName "gelu") 3072 (1 / 10)%R (1 / 10)%R 512 2
    (2 / 100)%R.

(** C9, as stated, fails for zero heads: 768 is not a multiple of 0, and the
    constructor raises [ZeroDivisionError], not [ValueError]. *)
Lemma zero_heads_raise_ZeroDivisionError :
  ~ is_multiple (hidden_size zero_heads_config)
      (num_attention_heads zero_heads_config)
  /\ BertSelfAttention_init zero_heads_config = Raise ZeroDivisionError
  /\ ~ ((exists message,
           BertSelfAttention_init zero_heads_config =
           Raise (ValueError message))
        <-> ~ is_multiple (hidden_size zero_heads_config)
                (num_attention_heads zero_heads_config)).
Proof.
  assert (Hnot : ~ is_multiple (hidden_size zero_heads_config)
                     (num_attention_heads zero_heads_config)).
  { intros [k Hk]. simpl in Hk. lia. }
  split; [exact Hnot|]. split; [reflexivity|].
  intros [_ H]. destruct (H Hnot) as [message Hm]. discriminate Hm.
Qed.

(** [BertConfig(30522)]: the defaults, 12 heads for a hidden size of 768. *)
Definition default_config : BertConfig :=
  mkConfig 30522 768 12 12 (ActName "gelu") 3072 (1 / 10)%R (1 / 10)%R 512 2
    (2 / 100)%R.

Lemma default_attention_constructed :
  exists m, BertSelfAttention_init default_config = Ok m.
Proof.
  unfold BertSelfAttention_init. cbn [default_config num_attention_heads
    hidden_size attention_probs_dropout_prob].
  change (12 =? 0) with false. change (768 mod 12 =? 0) with true.
  cbn [negb]. unfold nn_Linear, new_tensor.
  change (Z.quot 768 12) with 64. change (12 * 64) with 768.
  cbn [forallb Z.leb Z.compare andb bind]. unfold nn_Dropout.
  destruct (Rlt_dec (1 / 10) 0) as [H|_]; [lra|].
  destruct (Rlt_dec 1 (1 / 10)) as [H|_]; [lra|].
  cbn [bind]. eexists. reflexivity.
Qed.

Example BertSelfAttention_init_divisibility_witness :
  exists m d,
    BertSelfAttention_init default_config = Ok m /\
    int_attr "all_head_size" m = Some (12 * d) /\ 12 * d = 768.
Proof.
  destruct default_attention_constructed as [m Hm].
  destruct (proj1 (proj2 (proj2
              (BertSelfAttention_init_divisibility default_config))) m Hm)
    as (d & _ & _ & Hall & Hd).
  exists m, d. auto.
Defined.

(** ** The activation named by the configuration *)

Lemma unknown_activation name :
  name <> "gelu"%string -> name <> "relu"%string -> name <> "swish"%string ->
  activation_of (ActName name) = Raise (KeyError name).
Proof.
  intros Hg Hr Hs. cbn [activation_of Activations.ACT2FN existsb fst].
  destruct (String.eqb_spec "gelu" name) as [E|_]; [congruence|].
  destruct (String.eqb_spec "relu" name) as [E|_]; [congruence|].
  destruct (String.eqb_spec "swish" name) as [E|_]; [congruence|].
  reflexivity.
Qed.

Lemma BertModel_init_builds_intermediate config m :
  BertModel_init config = Ok m ->
  exists i, BertIntermediate_init config = Ok i.
Proof.
  unfold BertModel_init. intros H.
  apply bind_Ok in H. destruct H as (emb & _ & H).
  apply bind_Ok in H. destruct H as (enc & Henc & _).
  unfold BertEncoder_init in Henc.
  apply bind_Ok in Henc. destruct Henc as (layer & Hlayer & _).
  unfold BertLayer_init in Hlayer.
  apply bind_Ok in Hlayer. destruct Hlayer as (att & _ & Hlayer).
  apply bind_Ok in Hlayer. destruct Hlayer as (i & Hi & _).
  eauto.
Qed.

(** A configuration whose [hidden_act] is a string other than ["gelu"],
    ["relu"] and ["swish"] builds no model: [BertIntermediate.__init__]
    raises [KeyError] with that string once its dense layer is built, and
    neither [BertModel] nor a head on top of it is constructed. *)
Theorem unknown_activation_name_is_refused (config : BertConfig)
  (name : string) :
  hidden_act config = ActName name ->
  name <> "gelu"%string -> name <> "relu"%string -> name <> "swish"%string ->
  (0 < hidden_size config -> 0 < intermediate_size config ->
   BertIntermediate_init config = Raise (KeyError name))
  /\
  (forall num_labels rel_dim max_tok cname constructor m,
     In (cname, constructor) (model_constructors num_labels rel_dim max_tok) ->
     constructor config <> Ok m).
Proof.
  intros Hact Hg Hr Hs.
  pose proof (unknown_activation name Hg Hr Hs) as Hraise.
  assert (Hno : forall i, BertIntermediate_init config <> Ok i).
  { intros i Hi. unfold BertIntermediate_init in Hi.
    apply bind_Ok in Hi. destruct Hi as (dense & _ & Hi).
    rewrite Hact, Hraise in Hi. discriminate Hi. }
  split.
  - intros Hh Hi. unfold BertIntermediate_init, nn_Linear, new_tensor.
    cbn [forallb].
    apply Z.lt_le_incl, Z.leb_le in Hh. apply Z.lt_le_incl, Z.leb_le in Hi.
    rewrite Hh, Hi.
    cbn [andb bind]. now rewrite Hact, Hraise.
  - intros num_labels rel_dim max_tok cname constructor m Hin Hm.
    assert (Hbert : exists b, BertModel_init config = Ok b).
    { simpl in Hin.
      destruct Hin as [Hin|[Hin|[Hin|[Hin|[Hin|[]]]]]];
        injection Hin as _ <-; [eauto| | | |];
        (apply bind_Ok in Hm; destruct Hm as (b & Hb & _); eauto). }
    destruct Hbert as (b & Hb).
    destruct (BertModel_init_builds_intermediate config b Hb) as (i & Hi).
    exact (Hno i Hi).
Qed.

(** [BertConfig(30522, hidden_act="tanh")] *)
Definition tanh_config : BertConfig :=
  mkConfig 30522 768 12 12 (ActName "tanh") 3072 (1 / 10)%R (1 / 10)%R 512 2
    (2 / 100)%R.

Example unknown_activation_name_is_refused_witness :
  BertIntermediate_init tanh_config = Raise (KeyError "tanh").
Proof.
  apply (proj1 (unknown_activation_name_is_refused tanh_config "tanh"
                  eq_refl ltac:(discriminate) ltac:(discriminate)
                  ltac:(discriminate))).
  - reflexivity.
  - reflexivity.
Defined.


End ConstructorFacts.

(* ================================================================== *)
(** * [BertConfig]: the attribute dictionary, [to_dict], [from_dict] *)
(* ================================================================== *)

Module ConfigDict.

Local Open Scope string_scope.

(** Python values.  Lists and dictionaries are objects with an identity:
    two occurrences of one identity are one object, and a mutation of the
    object is seen through both.  The other values are immutable. *)
Inductive pyvalue :=
| VNone
| VBool (b : bool)
| VInt (z : Z)
| VFloat (r : R)
| VStr (s : string)
| VFunction (name : string)
| VList (id : nat) (items : list pyvalue)
| VDict (id : nat) (items : list (string * pyvalue)).

(** A map over a list that threads a state from left to right. *)
Definition map_state {A B S : Type} (f : S -> A -> S * B)
  : S -> list A -> S * list B :=
  fix go (s : S) (l : list A) : S * list B :=
    match l with
    | [] => (s, [])
    | x :: l' =>
        let '(s1, y) := f s x in
        let '(s2, ys) := go s1 l' in
        (s2, y :: ys)
    end.

(** The state of [copy.deepcopy]: the memo (identity of an object already
    copied, identity of its copy) and the next unused identity. *)
Definition copy_state := (list (nat * nat) * nat)%type.

Fixpoint memo_find (id : nat) (memo : list (nat * nat)) : option nat :=
  match memo with
  | [] => None
  | (a, b) :: rest => if Nat.eqb a id then Some b else memo_find id rest
  end.

(** The identity of the copy of object [id]: the one in the memo, or a new
    one, which is entered in the memo before the contents are copied. *)
Definition copy_identity (st : copy_state) (id : nat) : copy_state * nat :=
  let '(memo, next) := st in
  match memo_find id memo with
  | Some id' => (st, id')
  | None => (((id, next) :: memo, S next), next)
  end.

(** [copy.deepcopy(v, memo)].  Numbers, strings, [None] and functions are
    returned as they are; a list or a dictionary is copied into a new
    object, item by item.  An object met a second time has the identity its
    first copy was given; its contents are read from the value again, and
    are the copies of the same objects. *)
Fixpoint deepcopy (st : copy_state) (v : pyvalue) {struct v}
  : copy_state * pyvalue :=
  match v with
  | VList id items =>
      let '(st, id') := copy_identity st id in
      let '(st, items') := map_state deepcopy st items in
      (st, VList id' items')
  | VDict id items =>
      let '(st, id') := copy_identity st id in
      let '(st, items') :=
        map_state (fun st kv =>
                     let '(st, v') := deepcopy st (snd kv) in
                     (st, (fst kv, v'))) st items in
      (st, VDict id' items')
  | _ => (st, v)
  end.

(** [d[key] = value] on the items of a dictionary: the value of an existing
    key is replaced in place, a new key is added at the end. *)
Fixpoint dict_set (key : string) (value : pyvalue)
  (items : list (string * pyvalue)) : list (string * pyvalue) :=
  match items with
  | [] => [(key, value)]
  | (k, v) :: rest =>
      if String.eqb k key then (k, value) :: rest
      else (k, v) :: dict_set key value rest
  end.

(** The keyword arguments of [BertConfig.__init__] after the first. *)
Record init_arguments := mkArguments {
  arg_hidden_size : pyvalue;
  arg_num_hidden_layers : pyvalue;
  arg_num_attention_heads : pyvalue;
  arg_intermediate_size : pyvalue;
  arg_hidden_act : pyvalue;
  arg_hidden_dropout_prob : pyvalue;
  arg_attention_probs_dropout_prob : pyvalue;
  arg_max_position_embeddings : pyvalue;
  arg_type_vocab_size : pyvalue;
  arg_initializer_range : pyvalue
}.

Definition default_arguments : init_arguments :=
  mkArguments (VInt 768) (VInt 12) (VInt 12) (VInt 3072) (VStr "gelu")
    (VFloat (1 / 10)) (VFloat (1 / 10)) (VInt 512) (VInt 2)
    (VFloat (2 / 100)).

(** A [BertConfig] object is its attribute dictionary [__dict__]. *)
Definition BertConfig := pyvalue.

(** The files that can be read: what [json.loads] gives for the text of the
    file of a given path, if there is one. *)
Definition file_system := string -> option pyvalue.

(** [BertConfig.__init__].  A string names a JSON file, whose items become
    the attributes; for an [int] (a [bool] is one) the attributes are set
    from the arguments, in this order.  The dictionary of the new object is
    a new object. *)
Definition BertConfig_init (files : file_system) (next : nat)
  (vocab_size_or_config_json_file : pyvalue) (args : init_arguments)
  : result (nat * BertConfig) :=
  match vocab_size_or_config_json_file with
  | VStr path =>
      match files path with
      | Some (VDict _ json_config) =>
          Ok (S next,
              VDict next
                (fold_left (fun attrs kv => dict_set (fst kv) (snd kv) attrs)
                   json_config []))
      | Some _ => Raise (AttributeError "items")
      | None => Raise OSError
      end
  | VInt _ | VBool _ =>
      Ok (S next,
          VDict next
            [("vocab_size", vocab_size_or_config_json_file);
             ("hidden_size", arg_hidden_size args);
             ("num_hidden_layers", arg_num_hidden_layers args);
             ("num_attention_heads", arg_num_attention_heads args);
             ("hidden_act", arg_hidden_act args);
             ("intermediate_size", arg_intermediate_size args);
             ("hidden_dropout_prob", arg_hidden_dropout_prob args);
             ("attention_probs_dropout_prob",
              arg_attention_probs_dropout_prob args);
             ("max_position_embeddings", arg_max_position_embeddings args);
             ("type_vocab_size", arg_type_vocab_size args);
             ("initializer_range", arg_initializer_range args)])
  | _ =>
      Raise (ValueError
               "First argument must be either a vocabulary size (int)or the path to a pretrained model config file (str)")
  end.

(** [to_dict]: [copy.deepcopy(self.__dict__)], with an empty memo. *)
Definition to_dict (next : nat) (self : BertConfig) : nat * pyvalue :=
  let '((_, next), output) := deepcopy ([], next) self in
  (next, output).

(** [from_dict]: a configuration built from [-1] and the defaults, whose
    attributes are then set from the items of [json_object], in order. *)
Definition from_dict (files : file_system) (next : nat)
  (json_object : pyvalue) : result (nat * BertConfig) :=
  match BertConfig_init files next (VInt (-1)) default_arguments with
  | Ok (next, VDict id attributes) =>
      match json_object with
      | VDict _ items =>
          Ok (next,
              VDict id
                (fold_left (fun attrs kv => dict_set (fst kv) (snd kv) attrs)
                   items attributes))
      | _ => Raise (AttributeError "items")
      end
  | Ok _ => Raise TypeError
  | Raise e => Raise e
  end.

(** ** Equality and mutation *)

(** The value without the identities of its objects: two values are equal
    for [==] when these agree. *)
Fixpoint erase (v : pyvalue) : pyvalue :=
  match v with
  | VList _ items => VList 0 (map erase items)
  | VDict _ items => VDict 0 (map (fun kv => (fst kv, erase (snd kv))) items)
  | _ => v
  end.

(** The identities of the objects of a value. *)
Fixpoint identities (v : pyvalue) : list nat :=
  match v with
  | VList id items => id :: flat_map identities items
  | VDict id items => id :: flat_map (fun kv => identities (snd kv)) items
  | _ => []
  end.

(** An in-place change of the object [target], seen in a value: [on_list]
    and [on_dict] give the new contents of the object from the old. *)
Fixpoint mutate (target : nat)
  (on_list : list pyvalue -> list pyvalue)
  (on_dict : list (string * pyvalue) -> list (string * pyvalue))
  (v : pyvalue) : pyvalue :=
  match v with
  | VList id items =>
      let items := map (mutate target on_list on_dict) items in
      VList id (if Nat.eqb id target then on_list items else items)
  | VDict id items =>
      let items :=
        map (fun kv => (fst kv, mutate target on_list on_dict (snd kv)))
          items in
      VDict id (if Nat.eqb id target then on_dict items else items)
  | _ => v
  end.

(** Every object of the value was allocated before [next]. *)
Definition allocated_before (next : nat) (v : pyvalue) : Prop :=
  Forall (fun id => id < next) (identities v).

Definition arguments_allocated_before (next : nat) (args : init_arguments)
  : Prop :=
  Forall (allocated_before next)
    [arg_hidden_size args; arg_num_hidden_layers args;
     arg_num_attention_heads args; arg_intermediate_size args;
     arg_hidden_act args; arg_hidden_dropout_prob args;
     arg_attention_probs_dropout_prob args;
     arg_max_position_embeddings args; arg_type_vocab_size args;
     arg_initializer_range args].

End ConfigDict.

Module ConfigDictFacts.

Import ConfigDict.
Local Open Scope string_scope.

Lemma pyvalue_nested_ind (P : pyvalue -> Prop) :
  P VNone -> (forall b, P (VBool b)) -> (forall z, P (VInt z)) ->
  (forall r, P (VFloat r)) -> (forall s, P (VStr s)) ->
  (forall n, P (VFunction n)) ->
  (forall id items, Forall P items -> P (VList id items)) ->
  (forall id items, Forall (fun kv => P (snd kv)) items -> P (VDict id items)) ->
  forall v, P v.
Proof.
  intros HN HB HI HF HS HFn HL HD.
  fix IH 1. intros v. destruct v as [| | | | | |id items|id items].
  - exact HN.
  - apply HB.
  - apply HI.
  - apply HF.
  - apply HS.
  - apply HFn.
  - apply HL. induction items as [|x xs IHxs]; constructor;
      [apply IH|apply IHxs].
  - apply HD. induction items as [|x xs IHxs]; constructor;
      [apply IH|apply IHxs].
Qed.

(** ** [deepcopy] keeps the value *)

Lemma map_state_erase (st : copy_state) (items : list pyvalue) :
  Forall (fun v => forall st, erase (snd (deepcopy st v)) = erase v) items ->
  map erase (snd (map_state deepcopy st items)) = map erase items.
Proof.
  intros H. revert st. induction H as [|x xs Hx Hxs IH]; intros st.
  - reflexivity.
  - simpl. specialize (Hx st).
    destruct (deepcopy st x) as [s1 y]. simpl in Hx.
    specialize (IH s1).
    destruct (map_state deepcopy s1 xs) as [s2 ys]. simpl in *.
    now rewrite Hx, IH.
Qed.

Lemma deepcopy_erase v : forall st, erase (snd (deepcopy st v)) = erase v.
Proof.
  induction v as [| | | | | |id items IH|id items IH]
    using pyvalue_nested_ind; intros st; try reflexivity.
  - simpl. destruct (copy_identity st id) as [st1 id'].
    pose proof (map_state_erase st1 items IH) as Hm.
    destruct (map_state deepcopy st1 items) as [st2 items']. simpl in *.
    now rewrite Hm.
  - simpl. destruct (copy_identity st id) as [st1 id'].
    assert (Hm : forall st1,
              map (fun kv => (fst kv, erase (snd kv)))
                (snd (map_state
                        (fun st kv =>
                           let '(st, v') := deepcopy st (snd kv) in
                           (st, (fst kv, v'))) st1 items)) =
              map (fun kv => (fst kv, erase (snd kv))) items).
    { clear st st1. induction IH as [|x xs Hx Hxs IHl]; intros st1.
      - reflexivity.
      - simpl. specialize (Hx st1).
        destruct (deepcopy st1 (snd x)) as [s1 y]. simpl in Hx.
        specialize (IHl s1).
        destruct (map_state _ s1 xs) as [s2 ys]. simpl in *.
        now rewrite Hx, IHl. }
    specialize (Hm st1).
    destruct (map_state _ st1 items) as [st2 items']. simpl in *.
    now rewrite Hm.
Qed.

(** ** The copies are new objects *)

Definition memo_ok (n0 : nat) (st : copy_state) : Prop :=
  (forall a b, memo_find a (fst st) = Some b -> n0 <= b) /\ n0 <= snd st.

Lemma copy_identity_ok n0 st id :
  memo_ok n0 st ->
  memo_ok n0 (fst (copy_identity st id)) /\ n0 <= snd (copy_identity st id).
Proof.
  destruct st as [memo next]. intros [Hmemo Hnext]. simpl in *.
  unfold copy_identity. destruct (memo_find id memo) as [id'|] eqn:E; simpl.
  - split; [split; assumption|]. now apply (Hmemo id).
  - split; [|assumption]. split; [|simpl; lia].
    intros a b. simpl. destruct (Nat.eqb id a).
    + intros H. injection H as <-. assumption.
    + apply Hmemo.
Qed.

Lemma map_state_fresh {A} (f : copy_state -> A -> copy_state * A)
  (ids : A -> list nat) n0 (items : list A) :
  Forall (fun x => forall st, memo_ok n0 st ->
            memo_ok n0 (fst (f st x)) /\
            Forall (fun id => n0 <= id) (ids (snd (f st x)))) items ->
  forall st, memo_ok n0 st ->
    memo_ok n0 (fst (map_state f st items)) /\
    Forall (fun id => n0 <= id) (flat_map ids (snd (map_state f st items))).
Proof.
  intros H. induction H as [|x xs Hx Hxs IH]; intros st Hst.
  - simpl. split; [assumption|constructor].
  - simpl. destruct (Hx st Hst) as [H1 H2].
    destruct (f st x) as [s1 y]. simpl in *.
    destruct (IH s1 H1) as [H3 H4].
    destruct (map_state f s1 xs) as [s2 ys]. simpl in *.
    split; [assumption|]. apply Forall_app. split; assumption.
Qed.

Lemma deepcopy_fresh n0 v :
  forall st, memo_ok n0 st ->
    memo_ok n0 (fst (deepcopy st v)) /\
    Forall (fun id => n0 <= id) (identities (snd (deepcopy st v))).
Proof.
  induction v as [| | | | | |id items IH|id items IH]
    using pyvalue_nested_ind; intros st Hst;
    try (simpl; split; [assumption|constructor]).
  - simpl. destruct (copy_identity_ok n0 st id Hst) as [H1 H2].
    destruct (copy_identity st id) as [st1 id']. simpl in H1, H2.
    destruct (map_state_fresh deepcopy identities n0 items IH st1 H1)
      as [H3 H4].
    destruct (map_state deepcopy st1 items) as [st2 items']. simpl in *.
    split; [assumption|]. constructor; assumption.
  - simpl. destruct (copy_identity_ok n0 st id Hst) as [H1 H2].
    destruct (copy_identity st id) as [st1 id']. simpl in H1, H2.
    assert (IH' : Forall (fun x : string * pyvalue =>
              forall st, memo_ok n0 st ->
                memo_ok n0
                  (fst ((fun st kv =>
                           let '(st, v') := deepcopy st (snd kv) in
                           (st, (fst kv, v'))) st x)) /\
                Forall (fun id => n0 <= id)
                  ((fun kv => identities (snd kv))
                     (snd ((fun st kv =>
                              let '(st, v') := deepcopy st (snd kv) in
                              (st, (fst kv, v'))) st x)))) items).
    { apply (Forall_impl _ (P:=fun kv => forall st, memo_ok n0 st ->
                memo_ok n0 (fst (deepcopy st (snd kv))) /\
                Forall (fun id => n0 <= id)
                  (identities (snd (deepcopy st (snd kv)))))); [|exact IH].
      intros kv Hkv st' Hst'. specialize (Hkv st' Hst').
      destruct (deepcopy st' (snd kv)). exact Hkv. }
    destruct (map_state_fresh _ (fun kv : string * pyvalue => identities (snd kv))
                n0 items IH' st1 H1) as [H3 H4].
    destruct (map_state _ st1 items) as [st2 items']. simpl in *.
    split; [assumption|]. constructor; assumption.
Qed.

(** ** A mutation of an object that a value does not hold *)

Lemma mutate_other target on_list on_dict v :
  Forall (fun id => id <> target) (identities v) ->
  mutate target on_list on_dict v = v.
Proof.
  induction v as [| | | | | |id items IH|id items IH]
    using pyvalue_nested_ind; intros Hids; try reflexivity.
  - simpl in *. inversion Hids as [|? ? Hid Hrest]; subst.
    apply Forall_flat_map in Hrest.
    assert (Hmap : map (mutate target on_list on_dict) items = items).
    { rewrite <- (map_id items) at 2. apply map_ext_in. intros x Hx.
      rewrite Forall_forall in IH, Hrest. apply IH; auto. }
    rewrite Hmap.
    destruct (Nat.eqb_spec id target); [contradiction|reflexivity].
  - simpl in *. inversion Hids as [|? ? Hid Hrest]; subst.
    apply Forall_flat_map in Hrest.
    assert (Hmap : map (fun kv => (fst kv, mutate target on_list on_dict (snd kv)))
                     items = items).
    { rewrite <- (map_id items) at 2. apply map_ext_in. intros [k x] Hx.
      rewrite Forall_forall in IH, Hrest. simpl. f_equal.
      apply (IH (k, x) Hx). apply (Hrest (k, x) Hx). }
    rewrite Hmap.
    destruct (Nat.eqb_spec id target); [contradiction|reflexivity].
Qed.

(** ** The round trip *)

Definition attribute_names : list string :=
  ["vocab_size"; "hidden_size"; "num_hidden_layers"; "num_attention_heads";
   "hidden_act"; "intermediate_size"; "hidden_dropout_prob";
   "attention_probs_dropout_prob"; "max_position_embeddings";
   "type_vocab_size"; "initializer_range"].

Lemma map_state_keys st (items : list (string * pyvalue)) :
  map fst
    (snd (map_state
            (fun st kv =>
               let '(st, v') := deepcopy st (snd kv) in (st, (fst kv, v')))
            st items)) = map fst items.
Proof.
  revert st. induction items as [|kv items IH]; intros st.
  - reflexivity.
  - simpl. destruct (deepcopy st (snd kv)) as [s1 v'].
    specialize (IH s1). destruct (map_state _ s1 items) as [s2 items'].
    simpl in *. now rewrite IH.
Qed.

Lemma deepcopy_dict st id items :
  exists id' items',
    snd (deepcopy st (VDict id items)) = VDict id' items' /\
    map fst items' = map fst items.
Proof.
  simpl. destruct (copy_identity st id) as [st1 id'].
  pose proof (map_state_keys st1 items) as Hk.
  destruct (map_state _ st1 items) as [st2 items']. simpl in *.
  eauto.
Qed.

(** Setting the eleven attributes of a fresh configuration, in order, to
    the items of a dictionary with the same keys gives these items. *)
Lemma from_dict_items files next id items :
  map fst items = attribute_names ->
  from_dict files next (VDict id items) = Ok (S next, VDict next items).
Proof.
  intros Hk. unfold attribute_names in Hk.
  do 11 (destruct items as [|[? ?] items]; [discriminate Hk|];
         simpl in Hk; injection Hk as -> Hk).
  destruct items; [|discriminate Hk].
  reflexivity.
Qed.

(** C10. For a [BertConfig] made from an integer vocabulary size,
    [from_dict] of [to_dict] is a configuration whose attribute dictionary
    is equal to the original's, and [to_dict] is a deep copy: no object of
    the dictionary it returns is an object of the configuration, so a
    mutation of the returned dictionary, at any depth, leaves the
    configuration as it was. *)
Theorem to_dict_from_dict_round_trip (files : file_system) (next : nat)
  (vocab_size : Z) (args : init_arguments) :
  arguments_allocated_before next args ->
  exists next1 c,
    BertConfig_init files next (VInt vocab_size) args = Ok (next1, c) /\
    (exists next3 c',
       from_dict files (fst (to_dict next1 c)) (snd (to_dict next1 c)) =
       Ok (next3, c') /\
       erase c' = erase c) /\
    (forall target on_list on_dict,
       In target (identities (snd (to_dict next1 c))) ->
       mutate target on_list on_dict c = c).
Proof.
  intros Hargs. eexists. eexists. split; [reflexivity|].
  set (c := VDict next _).
  assert (Hd : snd (to_dict (S next) c) = snd (deepcopy ([], S next) c)).
  { unfold to_dict. destruct (deepcopy ([], S next) c) as [[memo n] out].
    reflexivity. }
  split.
  - destruct (deepcopy_dict ([], S next) next
                [("vocab_size", VInt vocab_size);
                 ("hidden_size", arg_hidden_size args);
                 ("num_hidden_layers", arg_num_hidden_layers args);
                 ("num_attention_heads", arg_num_attention_heads args);
                 ("hidden_act", arg_hidden_act args);
                 ("intermediate_size", arg_intermediate_size args);
                 ("hidden_dropout_prob", arg_hidden_dropout_prob args);
                 ("attention_probs_dropout_prob",
                  arg_attention_probs_dropout_prob args);
                 ("max_position_embeddings", arg_max_position_embeddings args);
                 ("type_vocab_size", arg_type_vocab_size args);
                 ("initializer_range", arg_initializer_range args)])
      as (id' & items' & Hcopy & Hkeys).
    fold c in Hcopy.
    pose proof (deepcopy_erase c ([], S next)) as Herase.
    rewrite Hd. rewrite Hcopy in *.
    rewrite (from_dict_items files _ id' items' Hkeys).
    eexists. eexists. split; [reflexivity|].
    simpl in Herase |- *. exact Herase.
  - intros target on_list on_dict Hin. rewrite Hd in Hin.
    assert (Hok : memo_ok (S next) ([], S next)).
    { split; [intros a b H; discriminate H | simpl; lia]. }
    destruct (deepcopy_fresh (S next) c ([], S next) Hok) as [_ Hfresh].
    rewrite Forall_forall in Hfresh. specialize (Hfresh target Hin).
    apply mutate_other. subst c. simpl.
    constructor; [lia|].
    unfold arguments_allocated_before, allocated_before in Hargs.
    repeat match goal with
           | H : Forall _ (_ :: _) |- _ =>
               let H1 := fresh "Ha" in
               let H2 := fresh "Hr" in
               inversion H as [|? ? H1 H2]; subst; clear H
           end.
    repeat (apply Forall_app; split);
      try (eapply Forall_impl; [|eassumption]; simpl; intros; lia);
      constructor.
Qed.

Example to_dict_from_dict_round_trip_witness :
  exists next1 c,
    BertConfig_init (fun _ => None) 0 (VInt 30522) default_arguments =
    Ok (next1, c) /\
    (exists next3 c',
       from_dict (fun _ => None) (fst (to_dict next1 c))
         (snd (to_dict next1 c)) = Ok (next3, c') /\
       erase c' = erase c) /\
    (forall target on_list on_dict,
       In target (identities (snd (to_dict next1 c))) ->
       mutate target on_list on_dict c = c).
Proof.
  apply (to_dict_from_dict_round_trip (fun _ => None) 0 30522
           default_arguments).
  repeat constructor.
Defined.

(** ** Attribute lookups: what [from_dict] and a configuration file give *)

(** [items[key]], if the key is there. *)
Fixpoint dict_get (key : string) (items : list (string * pyvalue))
  : option pyvalue :=
  match items with
  | [] => None
  | (k, v) :: rest => if String.eqb k key then Some v else dict_get key rest
  end.

(** The attributes of the configuration a constructor call returned. *)
Definition attributes_of (r : result (nat * BertConfig))
  : list (string * pyvalue) :=
  match r with
  | Ok (_, VDict _ attributes) => attributes
  | _ => []
  end.

Definition set_items (items attrs : list (string * pyvalue))
  : list (string * pyvalue) :=
  fold_left (fun attrs kv => dict_set (fst kv) (snd kv) attrs) items attrs.

Lemma dict_get_set key k v items :
  dict_get key (dict_set k v items) =
  if String.eqb k key then Some v else dict_get key items.
Proof.
  induction items as [|[k0 v0] items IH]; cbn [dict_set dict_get].
  - reflexivity.
  - destruct (String.eqb_spec k0 k) as [->|Hk]; cbn [dict_get].
    + destruct (String.eqb k key); reflexivity.
    + destruct (String.eqb_spec k0 key) as [->|Hk0].
      * destruct (String.eqb_spec k key) as [->|_]; [congruence|reflexivity].
      * exact IH.
Qed.

Lemma dict_get_absent key items :
  ~ In key (map fst items) -> dict_get key items = None.
Proof.
  induction items as [|[k v] items IH]; intros Hin; cbn [dict_get].
  - reflexivity.
  - destruct (String.eqb_spec k key) as [->|Hk].
    + exfalso. apply Hin. now left.
    + apply IH. intros H. apply Hin. now right.
Qed.

Lemma dict_get_set_items key items :
  NoDup (map fst items) ->
  forall attrs,
    dict_get key (set_items items attrs) =
    match dict_get key items with
    | Some v => Some v
    | None => dict_get key attrs
    end.
Proof.
  unfold set_items.
  induction items as [|[k v] items IH]; intros Hnd attrs.
  - reflexivity.
  - cbn [map fst] in Hnd. inversion Hnd as [|? ? Hk Hrest]; subst.
    cbn [fold_left fst snd dict_get]. rewrite (IH Hrest), dict_get_set.
    destruct (String.eqb_spec k key) as [->|Hne].
    + now rewrite (dict_get_absent key items Hk).
    + reflexivity.
Qed.

(** [from_dict] fills the configuration [BertConfig(-1)] with the items of
    the dictionary: an attribute has the value the dictionary gives its
    name, and the default of the constructor when the dictionary has no such
    key; without a key [vocab_size] the vocabulary size is [-1]. *)
Theorem from_dict_overlays_defaults (files : file_system) (next id : nat)
  (items : list (string * pyvalue)) :
  NoDup (map fst items) ->
  exists next' id' attributes,
    from_dict files next (VDict id items) = Ok (next', VDict id' attributes) /\
    (forall key,
       dict_get key attributes =
       match dict_get key items with
       | Some v => Some v
       | None =>
           dict_get key
             (attributes_of
                (BertConfig_init files next (VInt (-1)) default_arguments))
       end) /\
    (dict_get "vocab_size" items = None ->
     dict_get "vocab_size" attributes = Some (VInt (-1))).
Proof.
  intros Hnd. unfold from_dict. cbn [BertConfig_init attributes_of].
  eexists. eexists. eexists. split; [reflexivity|].
  assert (H : forall key attrs,
            dict_get key (set_items items attrs) =
            match dict_get key items with
            | Some v => Some v
            | None => dict_get key attrs
            end)
    by (intros key attrs; now apply dict_get_set_items).
  unfold set_items in H. split.
  - intros key. apply H.
  - intros Hv. rewrite H, Hv. reflexivity.
Qed.

Example from_dict_overlays_defaults_witness :
  exists next' id' attributes,
    from_dict (fun _ => None) 0 (VDict 7 [("hidden_size", VInt 1024)]) =
    Ok (next', VDict id' attributes) /\
    (forall key,
       dict_get key attributes =
       match dict_get key [("hidden_size", VInt 1024)] with
       | Some v => Some v
       | None =>
           dict_get key
             (attributes_of
                (BertConfig_init (fun _ => None) 0 (VInt (-1))
                   default_arguments))
       end) /\
    (dict_get "vocab_size" [("hidden_size", VInt 1024)] = None ->
     dict_get "vocab_size" attributes = Some (VInt (-1))).
Proof.
  apply (from_dict_overlays_defaults (fun _ => None) 0 7
           [("hidden_size", VInt 1024)]).
  constructor; [intros []|constructor].
Defined.

Lemma dict_set_new k v items :
  ~ In k (map fst items) -> dict_set k v items = (items ++ [(k, v)])%list.
Proof.
  induction items as [|[k0 v0] items IH]; intros Hin; cbn [dict_set app].
  - reflexivity.
  - destruct (String.eqb_spec k0 k) as [->|Hk].
    + exfalso. apply Hin. now left.
    + rewrite IH; [reflexivity|]. intros H. apply Hin. now right.
Qed.

Lemma set_items_new items :
  NoDup (map fst items) ->
  forall attrs,
    (forall k, In k (map fst items) -> ~ In k (map fst attrs)) ->
    set_items items attrs = (attrs ++ items)%list.
Proof.
  unfold set_items.
  induction items as [|[k v] items IH]; intros Hnd attrs Hdis.
  - cbn [fold_left]. now rewrite app_nil_r.
  - cbn [map fst] in Hnd. inversion Hnd as [|? ? Hk Hrest]; subst.
    cbn [fold_left fst snd].
    rewrite dict_set_new by (apply Hdis; now left).
    rewrite (IH Hrest).
    + now rewrite <- app_assoc.
    + intros k0 Hk0. rewrite map_app, in_app_iff. cbn [map fst In].
      intros [Hin|[<-|[]]].
      * apply (Hdis k0); [now right|exact Hin].
      * exact (Hk Hk0).
Qed.

(** A configuration made from the path of a JSON file has the items of the
    file as its attributes, and nothing else: the keyword arguments of the
    constructor are not read, and an attribute the file does not name is not
    set, whatever the arguments are. *)
Theorem BertConfig_init_from_file_sets_no_default (files : file_system)
  (next id : nat) (path : string) (items : list (string * pyvalue))
  (args : init_arguments) :
  files path = Some (VDict id items) ->
  NoDup (map fst items) ->
  BertConfig_init files next (VStr path) args = Ok (S next, VDict next items)
  /\
  (forall key, ~ In key (map fst items) ->
     dict_get key
       (attributes_of (BertConfig_init files next (VStr path) args)) = None).
Proof.
  intros Hfile Hnd.
  assert (Hinit : BertConfig_init files next (VStr path) args =
                  Ok (S next, VDict next items)).
  { cbn [BertConfig_init]. rewrite Hfile.
    pose proof (set_items_new items Hnd [] (fun k _ H => H)) as Hs.
    unfold set_items in Hs. rewrite Hs. reflexivity. }
  split; [exact Hinit|].
  intros key Hkey. rewrite Hinit. cbn [attributes_of].
  now apply dict_get_absent.
Qed.

Definition sample_files : file_system :=
  fun path =>
    if String.eqb path "bert_config.json"
    then Some (VDict 0 [("vocab_size", VInt 30522)])
    else None.

Example BertConfig_init_from_file_witness :
  BertConfig_init sample_files 1 (VStr "bert_config.json") default_arguments =
  Ok (2, VDict 1 [("vocab_size", VInt 30522)])
  /\
  (forall key, ~ In key (map fst [("vocab_size", VInt 30522)]) ->
     dict_get key
       (attributes_of
          (BertConfig_init sample_files 1 (VStr "bert_config.json")
             default_arguments)) = None).
Proof.
  apply (BertConfig_init_from_file_sets_no_default sample_files 1 0
           "bert_config.json" [("vocab_size", VInt 30522)] default_arguments).
  - reflexivity.
  - constructor; [intros []|constructor].
Defined.


End ConfigDictFacts.

(* ================================================================== *)
(** * The contrastive losses *)
(* ================================================================== *)

Module Losses.

Import PyObjects.
Local Open Scope R_scope.
Local Open Scope exc_scope.

(** A plain [assert]: an [AssertionError] without arguments. *)
Definition assert (b : bool) : result unit :=
  if b then Ok tt else Raise (AssertionError []).

(** [t.size()[0]], [t.shape[0]] *)
Definition size0 (t : ndarray) : result nat :=
  match shape t with
  | n :: _ => Ok n
  | [] => Raise IndexError
  end.

(** [t.dim()] *)
Definition dim (t : ndarray) : nat := length (shape t).

(** [check_type_forward((x0, x1, y))], the same in [ContrastiveLoss] and
    [ContrastiveLoss_negativefocus]. *)
Definition check_type_forward (x0 x1 y : ndarray) : result unit :=
  _ <- assert (TFLoader.shape_eqb (shape x0) (shape x1)) ;;
  n1 <- size0 x1 ;;
  ny <- size0 y ;;
  _ <- assert (n1 =? ny)%nat ;;
  n1 <- size0 x1 ;;
  _ <- assert (0 <? n1)%nat ;;
  _ <- assert (dim x0 =? 2)%nat ;;
  _ <- assert (dim x1 =? 2)%nat ;;
  assert (dim y =? 1)%nat.

(** The rows of a tensor with two axes. *)
Definition rows (t : ndarray) : tensor2 :=
  match shape t with
  | [n; d] => SelfAttention.view_heads n d (data t)
  | _ => []
  end.

(** [torch.clamp(v, min=m)] *)
Definition clamp_min (m v : R) : R := Rmax m v.

(** [dist_sq] and the clamped [dist] of the two forward passes. *)
Definition squared_distances (x0 x1 : ndarray) : tensor1 :=
  let diff := zip_with (zip_with Rminus) (rows x0) (rows x1) in
  map (fun r => sum (map (fun v => v ^ 2) r)) diff.

Definition clamped_distances (margin : R) (dist_sq : tensor1) : tensor1 :=
  let dist := map sqrt dist_sq in
  let mdist := map (fun v => margin - v) dist in
  map (clamp_min 0) mdist.

(** [ContrastiveLoss.forward] *)
Definition ContrastiveLoss_forward (margin : R) (x0 x1 y : ndarray)
  : result R :=
  _ <- check_type_forward x0 x1 y ;;
  let dist_sq := squared_distances x0 x1 in
  let dist := clamped_distances margin dist_sq in
  let loss :=
    zip_with Rplus
      (zip_with Rmult (map (fun v => 1 - v) (data y)) dist_sq)
      (zip_with Rmult (data y) (map (fun v => v ^ 2) dist)) in
  n <- size0 x0 ;;
  Ok (sum loss / 2 / INR n).

(** [ContrastiveLoss_negativefocus.forward]: the term of the pairs labelled
    one counts twice. *)
Definition ContrastiveLoss_negativefocus_forward (margin : R)
  (x0 x1 y : ndarray) : result R :=
  _ <- check_type_forward x0 x1 y ;;
  let dist_sq := squared_distances x0 x1 in
  let dist := clamped_distances margin dist_sq in
  let loss :=
    zip_with Rplus
      (zip_with Rmult (map (fun v => 1 - v) (data y)) dist_sq)
      (map (fun v => v * 2)
         (zip_with Rmult (data y) (map (fun v => v ^ 2) dist))) in
  n <- size0 x0 ;;
  Ok (sum loss / 2 / INR n).

(** The entries of a tensor are as many as its shape says. *)
Definition well_formed (t : ndarray) : Prop :=
  length (data t) = product (shape t).

End Losses.

Module LossesFacts.

Import PyObjects Losses.
Local Open Scope R_scope.
Local Open Scope exc_scope.

(** ** The checks on the shapes *)

(** The shapes both forward passes accept: [n] pairs of rows of [d]
    entries, one label for every pair, and at least one pair. *)
Definition accepted_shapes (x0 x1 y : ndarray) : Prop :=
  exists n d, (0 < n)%nat /\
    shape x0 = [n; d] /\ shape x1 = [n; d] /\ shape y = [n].

Lemma check_type_forward_cases (x0 x1 y : ndarray) :
  (check_type_forward x0 x1 y = Ok tt /\ accepted_shapes x0 x1 y) \/
  ((check_type_forward x0 x1 y = Raise (AssertionError []) \/
    check_type_forward x0 x1 y = Raise IndexError) /\
   ~ accepted_shapes x0 x1 y).
Proof.
  unfold check_type_forward, accepted_shapes, size0, dim, assert.
  destruct (TFLoader.shape_eqb (shape x0) (shape x1)) eqn:Heq; cbn [bind].
  - apply TFLoaderFacts.shape_eqb_eq in Heq. rewrite Heq.
    destruct (shape x1) as [|n1 s1]; cbn [bind].
    { right. split; [now right|]. intros (n & d & _ & _ & H & _).
      discriminate H. }
    destruct (shape y) as [|ny sy]; cbn [bind].
    { right. split; [now right|]. intros (n & d & _ & _ & _ & H).
      discriminate H. }
    destruct (Nat.eqb_spec n1 ny) as [<-|Hn]; cbn [bind].
    2:{ right. split; [now left|]. intros (n & d & _ & _ & H1 & H2).
        injection H1 as <- _. injection H2 as <- _. congruence. }
    destruct (Nat.ltb_spec 0 n1) as [Hpos|Hpos]; cbn [bind].
    2:{ right. split; [now left|]. intros (n & d & Hn & _ & H1 & _).
        injection H1 as <- _. lia. }
    cbn [length].
    destruct s1 as [|d1 [|d2 s1]]; cbn [length Nat.eqb bind];
      try (right; split; [now left|];
           intros (n & d & _ & _ & H1 & _); discriminate H1).
    destruct sy as [|d2 sy]; cbn [length Nat.eqb bind].
    + left. split; [reflexivity|]. exists n1, d1. auto.
    + right. split; [now left|]. intros (n & d & _ & _ & _ & H2).
      discriminate H2.
  - right. split; [now left|]. intros (n & d & _ & H0 & H1 & _).
    assert (Hs : TFLoader.shape_eqb (shape x0) (shape x1) = true)
      by (apply TFLoaderFacts.shape_eqb_eq; congruence).
    congruence.
Qed.

Lemma accepted_size0 (x0 x1 y : ndarray) :
  accepted_shapes x0 x1 y -> exists n, (0 < n)%nat /\ size0 x0 = Ok n.
Proof.
  intros (n & d & Hn & H0 & _). exists n. unfold size0. now rewrite H0.
Qed.

(** Both forward passes return exactly for [n > 0] pairs of rows of the same
    size and [n] labels; otherwise they raise [AssertionError], or
    [IndexError] when the tensors have no axis at all.  The batch size the
    loss is divided by is therefore never zero. *)
Theorem ContrastiveLoss_forward_returns_iff (margin : R) (x0 x1 y : ndarray) :
  ((exists loss, ContrastiveLoss_forward margin x0 x1 y = Ok loss)
   <-> accepted_shapes x0 x1 y)
  /\
  ((exists loss, ContrastiveLoss_negativefocus_forward margin x0 x1 y = Ok loss)
   <-> accepted_shapes x0 x1 y)
  /\
  (forall e,
     ContrastiveLoss_forward margin x0 x1 y = Raise e \/
     ContrastiveLoss_negativefocus_forward margin x0 x1 y = Raise e ->
     e = AssertionError [] \/ e = IndexError).
Proof.
  unfold ContrastiveLoss_forward, ContrastiveLoss_negativefocus_forward.
  destruct (check_type_forward_cases x0 x1 y)
    as [[Hok Hacc]|[[Hr|Hr] Hnot]]; rewrite Hr || rewrite Hok; cbn [bind].
  - destruct (accepted_size0 x0 x1 y Hacc) as (n & _ & Hn). rewrite Hn.
    cbn [bind]. split; [|split].
    + split; [auto|eauto].
    + split; [auto|eauto].
    + intros e [H|H]; discriminate H.
  - split; [|split].
    + split; [intros [l H]; discriminate H|contradiction].
    + split; [intros [l H]; discriminate H|contradiction].
    + intros e [H|H]; injection H as <-; now left.
  - split; [|split].
    + split; [intros [l H]; discriminate H|contradiction].
    + split; [intros [l H]; discriminate H|contradiction].
    + intros e [H|H]; injection H as <-; now right.
Qed.

(** ** The value of the loss *)

Lemma check_type_forward_sym (x0 x1 y : ndarray) :
  check_type_forward x0 x1 y = check_type_forward x1 x0 y.
Proof.
  unfold check_type_forward, assert, dim.
  destruct (TFLoader.shape_eqb (shape x0) (shape x1)) eqn:Heq.
  - apply TFLoaderFacts.shape_eqb_eq in Heq.
    assert (Hs : size0 x0 = size0 x1) by (unfold size0; now rewrite Heq).
    assert (Hr : TFLoader.shape_eqb (shape x1) (shape x0) = true)
      by (apply TFLoaderFacts.shape_eqb_eq; congruence).
    rewrite Hr, Hs, Heq. cbn [bind].
    destruct (size0 x1) as [n1|e]; cbn [bind]; [|reflexivity].
    destruct (size0 y) as [ny|e]; cbn [bind]; [|reflexivity].
    destruct (n1 =? ny)%nat; cbn [bind]; [|reflexivity].
    destruct (0 <? n1)%nat; cbn [bind]; [|reflexivity].
    destruct (length (shape x1) =? 2)%nat; reflexivity.
  - destruct (TFLoader.shape_eqb (shape x1) (shape x0)) eqn:Hr;
      [|reflexivity].
    apply TFLoaderFacts.shape_eqb_eq in Hr.
    assert (Hs : TFLoader.shape_eqb (shape x0) (shape x1) = true)
      by (apply TFLoaderFacts.shape_eqb_eq; congruence).
    congruence.
Qed.

Lemma squared_distance_sym (a b : tensor1) :
  sum (map (fun v => v ^ 2) (zip_with Rminus a b)) =
  sum (map (fun v => v ^ 2) (zip_with Rminus b a)).
Proof.
  unfold sum. revert b. induction a as [|u a IH]; intros [|v b];
    cbn [zip_with map fold_right]; try reflexivity.
  rewrite IH. ring.
Qed.

Lemma squared_distances_sym (x0 x1 : ndarray) :
  squared_distances x0 x1 = squared_distances x1 x0.
Proof.
  unfold squared_distances. cbv zeta.
  generalize (rows x0) (rows x1). intros a.
  induction a as [|r a IH]; intros [|r' b]; cbn [zip_with map];
    try reflexivity.
  now rewrite IH, squared_distance_sym.
Qed.

(** The two losses do not depend on the order of the two tensors of a
    pair: [forward(x0, x1, y) = forward(x1, x0, y)], whether they return or
    raise. *)
Theorem ContrastiveLoss_forward_symmetric (margin : R) (x0 x1 y : ndarray) :
  ContrastiveLoss_forward margin x0 x1 y =
    ContrastiveLoss_forward margin x1 x0 y
  /\
  ContrastiveLoss_negativefocus_forward margin x0 x1 y =
    ContrastiveLoss_negativefocus_forward margin x1 x0 y.
Proof.
  unfold ContrastiveLoss_forward, ContrastiveLoss_negativefocus_forward.
  rewrite (check_type_forward_sym x0 x1 y), (squared_distances_sym x0 x1).
  destruct (check_type_forward_cases x1 x0 y)
    as [[Hok (n & d & _ & H1 & H0 & _)]|[[Hr|Hr] _]];
    rewrite Hr || rewrite Hok; cbn [bind]; [|auto|auto].
  unfold size0. rewrite H0, H1. auto.
Qed.

(** The labels lie between zero and one. *)
Definition labels_in_unit_interval (y : ndarray) : Prop :=
  Forall (fun v => 0 <= v <= 1) (data y).

Lemma sum_nonneg (l : tensor1) : Forall (fun v => 0 <= v) l -> 0 <= sum l.
Proof.
  unfold sum. induction 1 as [|v l Hv _ IH]; cbn [fold_right]; lra.
Qed.

Lemma squared_distances_nonneg (x0 x1 : ndarray) :
  Forall (fun v => 0 <= v) (squared_distances x0 x1).
Proof.
  unfold squared_distances. cbv zeta. apply Forall_map.
  apply Forall_forall. intros r _. apply sum_nonneg.
  apply Forall_map. apply Forall_forall. intros v _.
  pose proof (Rle_0_sqr v) as H. unfold Rsqr in H. simpl. lra.
Qed.

Lemma zip_with_Forall {A B C} (f : A -> B -> C) (P : A -> Prop)
  (Q : B -> Prop) (T : C -> Prop) a b :
  (forall x y, P x -> Q y -> T (f x y)) ->
  Forall P a -> Forall Q b -> Forall T (zip_with f a b).
Proof.
  intros H Ha. revert b. induction Ha as [|x a Hx _ IH]; intros b Hb.
  - constructor.
  - destruct Hb as [|y b Hy Hb]; cbn [zip_with]; constructor; auto.
Qed.

(** The two summands of the loss of a pair, before they are added. *)
Definition near_terms (x0 x1 y : ndarray) : tensor1 :=
  zip_with Rmult (map (fun v => 1 - v) (data y)) (squared_distances x0 x1).

Definition far_terms (margin : R) (x0 x1 y : ndarray) : tensor1 :=
  zip_with Rmult (data y)
    (map (fun v => v ^ 2)
       (clamped_distances margin (squared_distances x0 x1))).

Lemma near_terms_nonneg x0 x1 y :
  labels_in_unit_interval y -> Forall (fun v => 0 <= v) (near_terms x0 x1 y).
Proof.
  intros Hy. unfold near_terms.
  apply (zip_with_Forall Rmult (fun v => 0 <= v) (fun v => 0 <= v)).
  - intros u v Hu Hv. now apply Rmult_le_pos.
  - apply Forall_map. revert Hy. apply Forall_impl. intros v Hv. lra.
  - apply squared_distances_nonneg.
Qed.

Lemma far_terms_nonneg margin x0 x1 y :
  labels_in_unit_interval y ->
  Forall (fun v => 0 <= v) (far_terms margin x0 x1 y).
Proof.
  intros Hy. unfold far_terms.
  apply (zip_with_Forall Rmult (fun v => 0 <= v <= 1) (fun v => 0 <= v)).
  - intros u v Hu Hv. apply Rmult_le_pos; lra.
  - exact Hy.
  - apply Forall_map. apply Forall_forall. intros v _.
    pose proof (Rle_0_sqr v) as H. unfold Rsqr in H. simpl. lra.
Qed.

Lemma sums_of_terms (A B : tensor1) :
  Forall (fun v => 0 <= v) A -> Forall (fun v => 0 <= v) B ->
  0 <= sum (zip_with Rplus A B) /\
  sum (zip_with Rplus A B) <= sum (zip_with Rplus A (map (fun v => v * 2) B))
  /\
  sum (zip_with Rplus A (map (fun v => v * 2) B)) <=
    2 * sum (zip_with Rplus A B).
Proof.
  unfold sum. intros HA. revert B.
  induction HA as [|u A Hu _ IH]; intros B HB.
  - cbn [zip_with fold_right]. lra.
  - destruct HB as [|v B Hv HB]; cbn [zip_with map fold_right]; [lra|].
    destruct (IH B HB) as (H0 & H1 & H2). lra.
Qed.

Lemma scaled_by_batch (n : nat) (a b : R) :
  (0 < n)%nat -> a <= b -> a / 2 / INR n <= b / 2 / INR n.
Proof.
  intros Hn Hab. apply lt_0_INR in Hn.
  unfold Rdiv. apply Rmult_le_compat_r.
  - left. now apply Rinv_0_lt_compat.
  - lra.
Qed.


(** One pair of rows of two entries, labelled one. *)
Definition sample_x0 : ndarray := mkArray [1; 2]%nat [0; 0].
Definition sample_x1 : ndarray := mkArray [1; 2]%nat [3; 4].
Definition sample_y : ndarray := mkArray [1]%nat [1].


End LossesFacts.

(* ================================================================== *)
(** * [from_pretrained]: the keys of a PyTorch state dictionary *)
(* ================================================================== *)

Module StateDict.

Local Open Scope string_scope.
Local Open Scope exc_scope.

(** [pattern in s] *)
Fixpoint contains (pattern s : string) : bool :=
  if String.prefix pattern s then true
  else match s with
       | EmptyString => false
       | String _ s' => contains pattern s'
       end.

(** [s.replace(old, new)] for a non-empty [old]: the occurrences of [old]
    are replaced from left to right, without overlap; [skip] characters of
    an occurrence are still to be passed over. *)
Fixpoint replace_from (skip : nat) (old new s : string) : string :=
  match s with
  | EmptyString => EmptyString
  | String c s' =>
      match skip with
      | S k => replace_from k old new s'
      | O =>
          if String.prefix old s
          then new ++ replace_from (String.length old - 1) old new s'
          else String c (replace_from 0 old new s')
      end
  end.

Definition replace (old new s : string) : string := replace_from 0 old new s.

(** The body of the first loop: [new_key] for a key. *)
Definition rename_key (key : string) : option string :=
  let new_key := None in
  let new_key :=
    if contains "gamma" key then Some (replace "gamma" "weight" key)
    else new_key in
  let new_key :=
    if contains "beta" key then Some (replace "beta" "bias" key)
    else new_key in
  new_key.

(** [if new_key:] *)
Definition truthy (new_key : option string) : bool :=
  match new_key with
  | Some (String _ _) => true
  | _ => false
  end.

(** [zip(old_keys, new_keys)] after the first loop. *)
Definition renamed_keys (keys : list string) : list (string * string) :=
  flat_map
    (fun key =>
       match rename_key key with
       | Some new_key =>
           if truthy (Some new_key) then [(key, new_key)] else []
       | None => []
       end) keys.

Section Tensors.

(** The values of the dictionary. *)
Variable tensor : Type.

(** An [OrderedDict]: its items in order, no key twice. *)
Definition state_dict := list (string * tensor).

Fixpoint get (key : string) (sd : state_dict) : option tensor :=
  match sd with
  | [] => None
  | (k, v) :: rest => if String.eqb k key then Some v else get key rest
  end.

Definition remove (key : string) (sd : state_dict) : state_dict :=
  filter (fun kv => negb (String.eqb (fst kv) key)) sd.

(** [sd.pop(key)] *)
Definition pop (key : string) (sd : state_dict)
  : result (tensor * state_dict) :=
  match get key sd with
  | Some v => Ok (v, remove key sd)
  | None => Raise (KeyError key)
  end.

(** [sd[key] = value] *)
Fixpoint setitem (key : string) (value : tensor) (sd : state_dict)
  : state_dict :=
  match sd with
  | [] => [(key, value)]
  | (k, v) :: rest =>
      if String.eqb k key then (k, value) :: rest
      else (k, v) :: setitem key value rest
  end.

(** The second loop: [state_dict[new_key] = state_dict.pop(old_key)]. *)
Fixpoint rename_loop (pairs : list (string * string)) (sd : state_dict)
  : result state_dict :=
  match pairs with
  | [] => Ok sd
  | (old_key, new_key) :: rest =>
      '(value, sd) <- pop old_key sd ;;
      rename_loop rest (setitem new_key value sd)
  end.

(** The two loops of [from_pretrained] that rename the keys of a state
    dictionary written with [gamma] and [beta]. *)
Definition rename_state_dict (sd : state_dict) : result state_dict :=
  rename_loop (renamed_keys (map fst sd)) sd.

End Tensors.

Arguments get {tensor} key sd.
Arguments remove {tensor} key sd.
Arguments pop {tensor} key sd.
Arguments setitem {tensor} key value sd.
Arguments rename_loop {tensor} pairs sd.
Arguments rename_state_dict {tensor} sd.

(** The name a key has after the loops. *)
Definition new_name (key : string) : string :=
  match rename_key key with
  | Some new_key => if truthy (Some new_key) then new_key else key
  | None => key
  end.

End StateDict.

Module StateDictFacts.

Import StateDict.
Local Open Scope string_scope.
Local Open Scope exc_scope.

Example rename_layer_norm_gamma :
  rename_key "bert.embeddings.LayerNorm.gamma" =
  Some "bert.embeddings.LayerNorm.weight".
Proof. reflexivity. Qed.

Example rename_layer_norm_beta :
  rename_key "bert.encoder.layer.0.output.LayerNorm.beta" =
  Some "bert.encoder.layer.0.output.LayerNorm.bias".
Proof. reflexivity. Qed.

Section Tensors.

Variable tensor : Type.

Lemma NoDup_snoc {A} (a : A) (l : list A) :
  NoDup l -> ~ In a l -> NoDup (l ++ [a]).
Proof.
  intros Hl Ha. induction Hl as [|b l Hb Hl IH]; cbn [app].
  - constructor; [intros []|constructor].
  - constructor.
    + intros H. apply in_app_or in H. destruct H as [H|[H|[]]].
      * exact (Hb H).
      * apply Ha. now left.
    + apply IH. intros H. apply Ha. now right.
Qed.

Lemma get_setitem key k v (sd : state_dict tensor) :
  get key (setitem k v sd) =
  if String.eqb k key then Some v else get key sd.
Proof.
  induction sd as [|[k0 v0] sd IH]; cbn [setitem get].
  - reflexivity.
  - destruct (String.eqb_spec k0 k) as [->|Hk]; cbn [get].
    + destruct (String.eqb k key); reflexivity.
    + destruct (String.eqb_spec k0 key) as [->|Hk0].
      * destruct (String.eqb_spec k key) as [->|_]; [congruence|reflexivity].
      * exact IH.
Qed.

Lemma get_remove key k (sd : state_dict tensor) :
  get key (remove k sd) = if String.eqb k key then None else get key sd.
Proof.
  unfold remove. induction sd as [|[k0 v0] sd IH]; cbn [filter get fst].
  - now destruct (String.eqb k key).
  - destruct (String.eqb_spec k0 k) as [->|Hk]; cbn [negb get].
    + rewrite IH. destruct (String.eqb_spec k key) as [->|Hne];
        [reflexivity|].
      destruct (String.eqb_spec k key); [congruence|reflexivity].
    + rewrite IH. destruct (String.eqb_spec k0 key) as [->|Hk0].
      * destruct (String.eqb_spec k key) as [->|_]; [congruence|reflexivity].
      * reflexivity.
Qed.

Lemma get_In key (sd : state_dict tensor) :
  get key sd <> None <-> In key (map fst sd).
Proof.
  induction sd as [|[k v] sd IH]; cbn [get map fst In].
  - split; [congruence|intros []].
  - destruct (String.eqb_spec k key) as [->|Hk].
    + split; [now left|discriminate].
    + rewrite IH. split; [now right|]. intros [H|H]; [congruence|exact H].
Qed.

Lemma length_remove k (sd : state_dict tensor) :
  NoDup (map fst sd) -> In k (map fst sd) ->
  S (length (remove k sd)) = length sd.
Proof.
  unfold remove. induction sd as [|[k0 v0] sd IH]; cbn [map fst In filter];
    intros Hnd Hin; [contradiction|].
  inversion Hnd as [|? ? Hk0 Hrest]; subst.
  destruct (String.eqb_spec k0 k) as [->|Hne]; cbn [negb length].
  - f_equal. clear IH Hin Hnd Hrest.
    induction sd as [|[k1 v1] sd IH]; [reflexivity|].
    cbn [map fst In] in Hk0. cbn [filter fst].
    destruct (String.eqb_spec k1 k) as [->|_]; cbn [negb length].
    + exfalso. apply Hk0. now left.
    + f_equal. apply IH. intros H. apply Hk0. now right.
  - f_equal. apply IH; [exact Hrest|]. destruct Hin as [H|H];
      [congruence|exact H].
Qed.

Lemma keys_remove k (sd : state_dict tensor) :
  NoDup (map fst sd) -> NoDup (map fst (remove k sd)).
Proof.
  unfold remove. induction sd as [|[k0 v0] sd IH]; cbn [map fst filter];
    intros Hnd; [constructor|].
  inversion Hnd as [|? ? Hk0 Hrest]; subst.
  destruct (negb (String.eqb k0 k)); [|now apply IH].
  cbn [map fst]. constructor; [|now apply IH].
  intros Hin. apply Hk0. apply in_map_iff in Hin.
  destruct Hin as (kv & Hkv & Hin). apply filter_In in Hin.
  apply in_map_iff. exists kv. tauto.
Qed.

Lemma setitem_new k v (sd : state_dict tensor) :
  get k sd = None -> setitem k v sd = (sd ++ [(k, v)])%list.
Proof.
  induction sd as [|[k0 v0] sd IH]; cbn [get setitem app]; intros H.
  - reflexivity.
  - destruct (String.eqb k0 k); [discriminate|]. now rewrite IH.
Qed.

(** What the second loop does for pairs of distinct old and distinct new
    keys, the old ones in the dictionary and the new ones not. *)
Lemma rename_loop_spec (pairs : list (string * string)) :
  forall sd : state_dict tensor,
    NoDup (map fst sd) ->
    NoDup (map fst pairs) -> NoDup (map snd pairs) ->
    (forall o n, In (o, n) pairs -> get o sd <> None) ->
    (forall o n, In (o, n) pairs -> get n sd = None) ->
    exists sd',
      rename_loop pairs sd = Ok sd' /\
      (forall o n, In (o, n) pairs -> get n sd' = get o sd) /\
      (forall k, ~ In k (map snd pairs) -> ~ In k (map fst pairs) ->
         get k sd' = get k sd) /\
      length sd' = length sd.
Proof.
  induction pairs as [|[o n] rest IH]; intros sd Hsd Hold Hnew Hin Hout.
  - exists sd. cbn [rename_loop]. repeat split; try reflexivity.
    intros o n [].
  - cbn [map fst snd] in Hold, Hnew.
    inversion Hold as [|? ? Ho Hold']; subst.
    inversion Hnew as [|? ? Hn Hnew']; subst.
    assert (Hov : get o sd <> None) by (apply (Hin o n); now left).
    assert (Hnv : get n sd = None) by (apply (Hout o n); now left).
    destruct (get o sd) as [v|] eqn:Hget; [|congruence].
    assert (Hno : n <> o) by (intros ->; congruence).
    set (sd1 := setitem n v (remove o sd)).
    assert (Hget1 : forall k, get k sd1 =
              if String.eqb n k then Some v
              else if String.eqb o k then None else get k sd).
    { intros k. unfold sd1. now rewrite get_setitem, get_remove. }
    assert (Hkeep : forall k, k <> n -> k <> o -> get k sd1 = get k sd).
    { intros k Hkn Hko. rewrite Hget1.
      destruct (String.eqb_spec n k); [congruence|].
      destruct (String.eqb_spec o k); [congruence|reflexivity]. }
    assert (Hrest_old : forall o' n', In (o', n') rest -> o' <> n /\ o' <> o).
    { intros o' n' Hp. split.
      - intros ->. apply (Hin n n'); [now right|exact Hnv].
      - intros ->. apply Ho. apply in_map_iff. now exists (o, n'). }
    assert (Hsd1 : NoDup (map fst sd1)).
    { unfold sd1. rewrite setitem_new.
      - rewrite map_app. cbn [map fst]. apply NoDup_snoc.
        + now apply keys_remove.
        + intros H. apply get_In in H. rewrite get_remove in H.
          destruct (String.eqb o n); congruence.
      - rewrite get_remove. destruct (String.eqb o n); [reflexivity|exact Hnv]. }
    destruct (IH sd1 Hsd1 Hold' Hnew') as (sd' & Hloop & Hnew_keys & Hothers & Hlen).
    { intros o' n' Hp. destruct (Hrest_old o' n' Hp) as [H1 H2].
      rewrite (Hkeep o' H1 H2). apply (Hin o' n'). now right. }
    { intros o' n' Hp. rewrite Hget1.
      destruct (String.eqb_spec n n') as [->|_].
      - exfalso. apply Hn. apply in_map_iff. now exists (o', n').
      - destruct (String.eqb o n'); [reflexivity|].
        apply (Hout o' n'). now right. }
    exists sd'. cbn [rename_loop]. unfold pop. rewrite Hget. cbn [bind].
    fold sd1. split; [exact Hloop|]. split; [|split].
    + intros o' n' [Hp|Hp].
      * injection Hp as <- <-.
        rewrite Hothers; [|exact Hn|].
        -- rewrite Hget1, String.eqb_refl. now rewrite Hget.
        -- intros H. apply in_map_iff in H. destruct H as ([o' n'] & Heq & Hp).
           cbn [fst] in Heq. subst o'.
           apply (Hin n n'); [now right|exact Hnv].
      * rewrite (Hnew_keys o' n' Hp).
        destruct (Hrest_old o' n' Hp) as [H1 H2]. now apply Hkeep.
    + intros k Hk1 Hk2. cbn [map fst snd In] in Hk1, Hk2.
      rewrite Hothers by tauto. apply Hkeep; intros ->; tauto.
    + rewrite Hlen. unfold sd1. rewrite setitem_new.
      * rewrite length_app. cbn [length].
        rewrite Nat.add_1_r. apply length_remove; [exact Hsd|].
        apply get_In. congruence.
      * rewrite get_remove. destruct (String.eqb o n); [reflexivity|exact Hnv].
Qed.

(** Whether the loops rename the key. *)
Definition renamed (key : string) : bool := truthy (rename_key key).

Lemma renamed_keys_pairs (keys : list string) :
  renamed_keys keys = map (fun k => (k, new_name k)) (filter renamed keys).
Proof.
  unfold renamed_keys, renamed, new_name.
  induction keys as [|key keys IH]; cbn [flat_map filter]; [reflexivity|].
  rewrite IH. destruct (rename_key key) as [new_key|] eqn:Hk; [|reflexivity].
  destruct (truthy (Some new_key)) eqn:Ht; cbn [map app]; [|reflexivity].
  now rewrite Hk, Ht.
Qed.

Lemma new_name_not_renamed (key : string) :
  renamed key = false -> new_name key = key.
Proof.
  unfold renamed, new_name. destruct (rename_key key) as [new_key|];
    [|reflexivity].
  now intros ->.
Qed.

Lemma filter_keeps_distinct_images {A B} (keep : A -> bool) (f : A -> B)
  (xs : list A) :
  NoDup (map f xs) -> NoDup (map f (filter keep xs)).
Proof.
  induction xs as [|x xs IH]; cbn [map filter]; intros H; [constructor|].
  inversion H as [|? ? Hx Hxs]; subst.
  destruct (keep x); cbn [map]; [|now apply IH].
  constructor; [|now apply IH].
  intros Hin. apply Hx. apply in_map_iff in Hin.
  destruct Hin as (y & Hy & Hin). apply filter_In in Hin.
  apply in_map_iff. exists y. tauto.
Qed.

(** No two keys get the same name, and the new name of a key that is
    renamed is not a key of the dictionary. *)
Definition no_collision (keys : list string) : Prop :=
  NoDup (map new_name keys) /\
  forall key, In key keys -> renamed key = true -> ~ In (new_name key) keys.

(** The loops of [from_pretrained] that rename the keys with [gamma] and
    [beta] lose no tensor: when the new names collide neither with each
    other nor with a key of the dictionary, every tensor is found under
    the new name of its key ([gamma] replaced by [weight], or [beta] by
    [bias]; the key itself when it has neither), and the dictionary has as
    many entries as before. *)
Theorem rename_state_dict_keeps_tensors (sd : state_dict tensor) :
  NoDup (map fst sd) ->
  no_collision (map fst sd) ->
  exists sd',
    rename_state_dict sd = Ok sd' /\
    (forall key value,
       get key sd = Some value -> get (new_name key) sd' = Some value) /\
    length sd' = length sd.
Proof.
  intros Hsd [Hnames Hfresh]. unfold rename_state_dict.
  set (keys := map fst sd) in *.
  pose proof (renamed_keys_pairs keys) as Hpairs.
  assert (Hfst : map fst (renamed_keys keys) = filter renamed keys).
  { rewrite Hpairs, map_map. cbn [fst]. apply map_id. }
  assert (Hsnd : map snd (renamed_keys keys) =
                 map new_name (filter renamed keys)).
  { rewrite Hpairs, map_map. reflexivity. }
  assert (Hin : forall o n, In (o, n) (renamed_keys keys) ->
            In o keys /\ renamed o = true /\ n = new_name o).
  { intros o n H. rewrite Hpairs in H. apply in_map_iff in H.
    destruct H as (k & Hk & Hf). injection Hk as <- <-.
    apply filter_In in Hf. tauto. }
  destruct (rename_loop_spec (renamed_keys keys) sd Hsd)
    as (sd' & Hloop & Hnew & Hothers & Hlen).
  - rewrite Hfst. now apply NoDup_filter.
  - rewrite Hsnd. now apply filter_keeps_distinct_images.
  - intros o n H. destruct (Hin o n H) as (Ho & _ & _). now apply get_In.
  - intros o n H. destruct (Hin o n H) as (Ho & Hr & ->).
    destruct (get (new_name o) sd) eqn:Hg; [|reflexivity].
    exfalso. apply (Hfresh o Ho Hr). apply get_In. fold keys. congruence.
  - exists sd'. split; [exact Hloop|]. split; [|exact Hlen].
    intros key value Hget.
    assert (Hkey : In key keys) by (apply get_In; congruence).
    destruct (renamed key) eqn:Hr.
    + rewrite (Hnew key (new_name key)); [exact Hget|].
      rewrite Hpairs. apply in_map_iff. exists key. split; [reflexivity|].
      apply filter_In. tauto.
    + rewrite (new_name_not_renamed key Hr). rewrite Hothers; [exact Hget| |].
      * rewrite Hsnd. intros H. apply in_map_iff in H.
        destruct H as (k & Hk & Hf). apply filter_In in Hf.
        destruct Hf as [Hk1 Hk2]. apply (Hfresh k Hk1 Hk2).
        now rewrite Hk.
      * rewrite Hfst. intros H. apply filter_In in H. destruct H; congruence.
Qed.

End Tensors.

(** A state dictionary written with [gamma], as the old checkpoints are. *)
Definition sample_state_dict : state_dict nat :=
  [("LayerNorm.gamma", 1%nat); ("dense.weight", 2%nat)].

Example rename_state_dict_keeps_tensors_witness :
  exists sd',
    rename_state_dict sample_state_dict = Ok sd' /\
    (forall key value,
       get key sample_state_dict = Some value ->
       get (new_name key) sd' = Some value) /\
    length sd' = length sample_state_dict.
Proof.
  apply (rename_state_dict_keeps_tensors nat sample_state_dict).
  - repeat constructor; cbn; intuition discriminate.
  - split.
    + repeat constructor; cbn; intuition discriminate.
    + intros key [<-|[<-|[]]] Hr; [|discriminate Hr].
      cbn. intuition discriminate.
Defined.

Example sample_state_dict_renamed :
  rename_state_dict sample_state_dict =
  Ok [("dense.weight", 2%nat); ("LayerNorm.weight", 1%nat)].
Proof. reflexivity. Qed.

End StateDictFacts.

(* ================================================================== *)
(** * [init_bert_weights] and [nn.Module.apply] *)
(* ================================================================== *)

Module WeightInit.

Import ConfigDict.
Local Open Scope R_scope.

(** A module with its tensors: the three classes [init_bert_weights] tells
    apart, and any other module, of which only the children matter here (a
    dropout module, an activation, or a container of submodules).  A tensor
    that two modules share stands under both of them. *)
Inductive nn_module :=
| LinearM (weight : tensor2) (bias : option tensor1)
| EmbeddingM (weight : tensor2)
| BertLayerNormM (weight bias : tensor1)
| OtherM (children : list (string * nn_module)).

(** [t.zero_()] and [t.fill_(v)] *)
Definition fill_ (v : R) (t : tensor1) : tensor1 := map (fun _ => v) t.

Definition zero_ (t : tensor1) : tensor1 := fill_ 0 t.

Section Generator.

(** The random number generator: a state, and the draw of one sample of the
    standard normal distribution. *)
Variable generator : Type.
Variable standard_normal : generator -> generator * R.

(** [t.normal_(mean, std)]: every entry is drawn anew. *)
Definition normal_ (mean std : R) (g : generator) (t : tensor2)
  : generator * tensor2 :=
  map_state
    (fun g row =>
       map_state
         (fun g (_ : R) =>
            let '(g, z) := standard_normal g in (g, mean + std * z))
         g row)
    g t.

(** [init_bert_weights(module)], with [self.config.initializer_range]. *)
Definition init_bert_weights (initializer_range : R) (g : generator)
  (module : nn_module) : generator * nn_module :=
  let '(g, module) :=
    match module with
    | LinearM weight bias =>
        let '(g, weight) := normal_ 0 initializer_range g weight in
        (g, LinearM weight bias)
    | EmbeddingM weight =>
        let '(g, weight) := normal_ 0 initializer_range g weight in
        (g, EmbeddingM weight)
    | BertLayerNormM weight bias =>
        (g, BertLayerNormM (fill_ 1 weight) (zero_ bias))
    | OtherM _ => (g, module)
    end in
  match module with
  | LinearM weight (Some bias) => (g, LinearM weight (Some (zero_ bias)))
  | _ => (g, module)
  end.

(** [module.apply(fn)]: the children first, in order, then the module
    itself. *)
Fixpoint apply (fn : generator -> nn_module -> generator * nn_module)
  (g : generator) (module : nn_module) {struct module}
  : generator * nn_module :=
  match module with
  | OtherM children =>
      let '(g, children) :=
        map_state
          (fun g kv =>
             let '(g, child) := apply fn g (snd kv) in (g, (fst kv, child)))
          g children in
      fn g (OtherM children)
  | _ => fn g module
  end.

End Generator.

(** ** What the initialisation fixes, whatever is drawn *)

Definition all_equal (v : R) (t : tensor1) : Prop := t = repeat v (length t).

(** Every [BertLayerNorm] of the module has weight one and bias zero, and
    every bias of a linear layer is zero. *)
Fixpoint initialised (module : nn_module) : Prop :=
  match module with
  | LinearM _ (Some bias) => all_equal 0 bias
  | LinearM _ None => True
  | EmbeddingM _ => True
  | BertLayerNormM weight bias => all_equal 1 weight /\ all_equal 0 bias
  | OtherM children =>
      (fix all (l : list (string * nn_module)) : Prop :=
         match l with
         | [] => True
         | kv :: l' => initialised (snd kv) /\ all l'
         end) children
  end.

(** The module with every entry of every tensor set to zero: what is left
    is the tree of modules and the shapes of their tensors. *)
Fixpoint shapes (module : nn_module) : nn_module :=
  match module with
  | LinearM weight bias => LinearM (map zero_ weight) (option_map zero_ bias)
  | EmbeddingM weight => EmbeddingM (map zero_ weight)
  | BertLayerNormM weight bias => BertLayerNormM (zero_ weight) (zero_ bias)
  | OtherM children =>
      OtherM (map (fun kv => (fst kv, shapes (snd kv))) children)
  end.

End WeightInit.

Module WeightInitFacts.

Import ConfigDict WeightInit.
Local Open Scope R_scope.

Lemma nn_module_nested_ind (P : nn_module -> Prop) :
  (forall weight bias, P (LinearM weight bias)) ->
  (forall weight, P (EmbeddingM weight)) ->
  (forall weight bias, P (BertLayerNormM weight bias)) ->
  (forall children,
     Forall (fun kv => P (snd kv)) children -> P (OtherM children)) ->
  forall module, P module.
Proof.
  intros HL HE HN HO.
  fix IH 1. intros [weight bias|weight|weight bias|children].
  - apply HL.
  - apply HE.
  - apply HN.
  - apply HO. induction children as [|kv children IHc].
    + constructor.
    + constructor; [apply IH|exact IHc].
Qed.

Lemma fill_all_equal (v : R) (t : tensor1) : all_equal v (fill_ v t).
Proof.
  unfold all_equal, fill_. rewrite length_map.
  induction t as [|a t IH]; cbn [map length repeat]; [reflexivity|].
  now rewrite <- IH.
Qed.

Lemma zero_fill (v : R) (t : tensor1) : zero_ (fill_ v t) = zero_ t.
Proof. unfold zero_, fill_. now rewrite map_map. Qed.

Lemma zero_idem (t : tensor1) : zero_ (zero_ t) = zero_ t.
Proof. apply (zero_fill 0). Qed.

Section Generator.

Variable generator : Type.
Variable standard_normal : generator -> generator * R.

Lemma normal_row_shape (mean std : R) (g : generator) (row : tensor1) :
  zero_
    (snd (map_state
            (fun g (_ : R) =>
               let '(g, z) := standard_normal g in (g, mean + std * z))
            g row)) = zero_ row.
Proof.
  revert g. induction row as [|a row IH]; intros g; [reflexivity|].
  cbn [map_state]. destruct (standard_normal g) as [g1 z].
  specialize (IH g1).
  destruct (map_state _ g1 row) as [g2 row']. cbn [snd] in *.
  unfold zero_, fill_ in *. cbn [map]. now rewrite IH.
Qed.

Lemma normal_shape (mean std : R) (g : generator) (t : tensor2) :
  map zero_ (snd (normal_ generator standard_normal mean std g t)) =
  map zero_ t.
Proof.
  unfold normal_. revert g. induction t as [|row t IH]; intros g;
    [reflexivity|].
  cbn [map_state].
  pose proof (normal_row_shape mean std g row) as Hrow.
  destruct (map_state _ g row) as [g1 row']. cbn [snd] in Hrow.
  specialize (IH g1).
  match goal with
  | |- context [map_state ?f g1 t] => destruct (map_state f g1 t) as [g2 t']
  end.
  cbn [snd map] in *. now rewrite Hrow, IH.
Qed.

Lemma init_bert_weights_module (std : R) (g : generator)
  (module : nn_module) :
  (forall children, module <> OtherM children) ->
  initialised
    (snd (init_bert_weights generator standard_normal std g module)) /\
  shapes (snd (init_bert_weights generator standard_normal std g module)) =
  shapes module.
Proof.
  intros Hleaf. unfold init_bert_weights.
  destruct module as [weight bias|weight|weight bias|children].
  - pose proof (normal_shape 0 std g weight) as Hw.
    destruct (normal_ generator standard_normal 0 std g weight) as [g1 w'].
    cbn [snd] in Hw. destruct bias as [bias|]; cbn [snd initialised shapes].
    + split; [apply fill_all_equal|].
      cbn [option_map]. now rewrite Hw, zero_idem.
    + split; [exact I|]. now rewrite Hw.
  - pose proof (normal_shape 0 std g weight) as Hw.
    destruct (normal_ generator standard_normal 0 std g weight) as [g1 w'].
    cbn [snd initialised shapes] in *. split; [exact I|]. now rewrite Hw.
  - cbn [snd initialised shapes]. split.
    + split; apply fill_all_equal.
    + now rewrite zero_fill, zero_idem.
  - exfalso. now apply (Hleaf children).
Qed.

(** After [self.apply(self.init_bert_weights)], whatever the generator
    draws, every [BertLayerNorm] of the model has weight one and bias zero
    and every bias of a linear layer is zero; the tree of modules and the
    shape of every tensor are as before. *)
Theorem apply_init_bert_weights (std : R) (module : nn_module) :
  forall g : generator,
    initialised
      (snd (apply generator
              (init_bert_weights generator standard_normal std) g module))
    /\
    shapes
      (snd (apply generator
              (init_bert_weights generator standard_normal std) g module)) =
    shapes module.
Proof.
  induction module as [weight bias|weight|weight bias|children IH]
    using nn_module_nested_ind; intros g.
  - apply init_bert_weights_module. discriminate.
  - apply init_bert_weights_module. discriminate.
  - apply init_bert_weights_module. discriminate.
  - cbn [apply].
    assert (Hchildren : forall g,
      let r := map_state
                 (fun g kv =>
                    let '(g, child) :=
                      apply generator
                        (init_bert_weights generator standard_normal std) g
                        (snd kv) in
                    (g, (fst kv, child))) g children in
      initialised (OtherM (snd r)) /\
      shapes (OtherM (snd r)) = shapes (OtherM children)).
    { clear g. induction IH as [|kv children Hkv _ IHc]; intros g.
      - cbn. auto.
      - cbn [map_state]. specialize (Hkv g).
        destruct (apply generator _ g (snd kv)) as [g1 child].
        cbn [snd] in Hkv. specialize (IHc g1). cbv zeta in IHc.
        destruct (map_state _ g1 children) as [g2 children'].
        cbn [snd] in *. destruct Hkv as [Hi Hs]. destruct IHc as [Hic Hsc].
        split.
        + cbn [initialised snd]. split; [exact Hi|exact Hic].
        + cbn [shapes map fst snd]. rewrite Hs.
          cbn [shapes] in Hsc. injection Hsc as ->. reflexivity. }
    specialize (Hchildren g). cbv zeta in Hchildren.
    destruct (map_state _ g children) as [g1 children'].
    cbn [snd] in Hchildren. exact Hchildren.
Qed.

End Generator.

End WeightInitFacts.
